(** * AiosOS onboarding-plan generator: the structured-output pipeline

    A shallow embedding of [supabase/functions/ai-generate-plan/shared.ts]
    (sanitizer, extractor, generation client, repair controller) and of the
    plan orchestrator of [generate_plan.ts] (outline and step normalisation,
    placeholder/bulk-insert persistence), followed by the properties the
    specification states about them.

    Conventions.
    - A JavaScript string is the list of its UTF-16 code units ([jsstring]).
    - A JavaScript exception is a [Throw] completion; [try]/[catch] is
      [try_catch].
    - Values of type [any] (what [JSON.parse] returns) are [value]s.
    - Network and datastore effects thread a [world] explicitly. *)

From Stdlib Require Import String Ascii List ZArith QArith Bool Lia.
From Stdlib Require Import DecimalString DecimalPos DecimalZ FinFun.
Import ListNotations.
Local Open Scope Z_scope.
Set Warnings "-register-all".

(* ================================================================== *)
(** ** JavaScript strings *)
(* ================================================================== *)

Module Js.

(** A UTF-16 code unit. *)
Definition char := Z.
Definition jsstring := list char.

(** A string literal of the source (ASCII only). *)
Definition lit (s : string) : jsstring :=
  map (fun a => Z.of_N (N_of_ascii a)) (list_ascii_of_string s).

(** As [lit], with every [~] standing for a double quote. *)
Definition litq (s : string) : jsstring :=
  map (fun c => if c =? 126 then 34 else c) (lit s).

(** [s.length] *)
Definition strlen (s : jsstring) : Z := Z.of_nat (List.length s).

(** WhiteSpace and LineTerminator of ECMA-262: what [\s] matches and what
    [trim] strips. *)
Definition is_ws (c : char) : bool :=
  (c =? 9) || (c =? 10) || (c =? 11) || (c =? 12) || (c =? 13) || (c =? 32)
  || (c =? 160) || (c =? 5760) || ((8192 <=? c) && (c <=? 8202))
  || (c =? 8232) || (c =? 8233) || (c =? 8239) || (c =? 8287)
  || (c =? 12288) || (c =? 65279).

(** [\w] without the [u] flag: [A-Za-z0-9_]. *)
Definition is_word_char (c : char) : bool :=
  ((48 <=? c) && (c <=? 57)) || ((65 <=? c) && (c <=? 90)) || (c =? 95)
  || ((97 <=? c) && (c <=? 122)).

(** [\d] *)
Definition is_digit (c : char) : bool := (48 <=? c) && (c <=? 57).

(** [s.trimStart()] *)
Fixpoint trimStart (s : jsstring) : jsstring :=
  match s with
  | c :: r => if is_ws c then trimStart r else s
  | [] => []
  end.

(** [s.trimEnd()]: the white space that ends [s] is dropped. *)
Fixpoint trimEnd (s : jsstring) : jsstring :=
  match s with
  | [] => []
  | c :: r =>
      match trimEnd r with
      | [] => if is_ws c then [] else [c]
      | r' => c :: r'
      end
  end.

(** [s.trim()] *)
Definition trim (s : jsstring) : jsstring := trimEnd (trimStart s).

(** A relative index of [slice]: negative counts from the end, and the
    result is clamped into [0, len]. *)
Definition rel_index (len i : Z) : Z :=
  if i <? 0 then Z.max (len + i) 0 else Z.min i len.

(** [s.slice(from, to)] *)
Definition slice (s : jsstring) (from to : Z) : jsstring :=
  let a := rel_index (strlen s) from in
  let b := rel_index (strlen s) to in
  firstn (Z.to_nat (b - a)) (skipn (Z.to_nat a) s).

(** [s.slice(from)] *)
Definition slice_from (s : jsstring) (from : Z) : jsstring :=
  slice s from (strlen s).

(** [s.startsWith(p)] *)
Fixpoint startsWith (s p : jsstring) {struct p} : bool :=
  match p with
  | [] => true
  | pc :: pr =>
      match s with
      | c :: r => (c =? pc) && startsWith r pr
      | [] => false
      end
  end.

(** [s.endsWith(p)] *)
Definition endsWith (s p : jsstring) : bool := startsWith (rev s) (rev p).

Fixpoint indexOf_from (i : Z) (s p : jsstring) {struct s} : Z :=
  if startsWith s p then i
  else match s with
       | [] => -1
       | _ :: r => indexOf_from (i + 1) r p
       end.

(** [s.indexOf(p)] *)
Definition indexOf (s p : jsstring) : Z := indexOf_from 0 s p.

(** The last position [<= bound] at which [p] occurs, scanning from
    position [i], or [acc] when there is none. *)
Fixpoint lastIndexOf_from (i : Z) (s p : jsstring) (bound acc : Z)
  {struct s} : Z :=
  let acc' := if (i <=? bound) && startsWith s p then i else acc in
  match s with
  | [] => acc'
  | _ :: r => lastIndexOf_from (i + 1) r p bound acc'
  end.

(** [s.lastIndexOf(p, pos)]: the search starts at [pos] clamped into
    [0, s.length - p.length] and moves left. *)
Definition lastIndexOf (s p : jsstring) (pos : Z) : Z :=
  lastIndexOf_from 0 s p (Z.max 0 pos) (-1).

(** [s.lastIndexOf(p)] *)
Definition lastIndexOf_end (s p : jsstring) : Z :=
  lastIndexOf s p (strlen s).

(** ASCII lower case of one code unit. *)
Definition lower (c : char) : char :=
  if (65 <=? c) && (c <=? 90) then c + 32 else c.

(** [s.toLowerCase()] on the ASCII range. Code units outside [A-Z] are
    kept: the program only compares the result with ASCII words, and no
    code unit outside [A-Z] has one of their letters as its lower case. *)
Definition toLowerCase (s : jsstring) : jsstring := map lower s.

(** Code-unit equality of two strings ([===] on strings). *)
Fixpoint str_eqb (a b : jsstring) : bool :=
  match a, b with
  | [], [] => true
  | x :: a', y :: b' => (x =? y) && str_eqb a' b'
  | _, _ => false
  end.

(** The decimal digits of an integer, as a template literal prints an
    integer-valued number below 10^21. *)
Definition decimal (z : Z) : jsstring :=
  lit (NilZero.string_of_int (Z.to_int z)).

(** *** The regular expressions of the source *)

(** The rest of [s] after a copy of the (lower-case ASCII) word [w],
    compared without case as the [i] flag does. *)
Fixpoint iprefix (w s : jsstring) {struct w} : option jsstring :=
  match w with
  | [] => Some s
  | wc :: wr =>
      match s with
      | c :: r => if lower c =? wc then iprefix wr r else None
      | [] => None
      end
  end.

(** Removal of every match of a pattern, left to right: [m s] is the
    length of the match that starts at the head of [s], if there is one;
    [skip] counts the code units of the current match still to drop.
    (A global [replace] by the empty string, for a pattern with no empty
    match.) *)
Fixpoint remove_go (m : jsstring -> option nat) (skip : nat) (s : jsstring)
  : jsstring :=
  match s with
  | [] => []
  | c :: r =>
      match skip with
      | S k => remove_go m k r
      | O =>
          match m s with
          | Some (S k) => remove_go m k r
          | _ => c :: remove_go m O r
          end
      end
  end.

Definition remove_all (m : jsstring -> option nat) (s : jsstring) : jsstring :=
  remove_go m O s.

(** The global replacement of [\s+] by one space; [in_run] tells that
    the previous code unit was white space already replaced. *)
Fixpoint collapse_ws_go (in_run : bool) (s : jsstring) : jsstring :=
  match s with
  | [] => []
  | c :: r =>
      if is_ws c
      then (if in_run then collapse_ws_go true r
            else 32 :: collapse_ws_go true r)
      else c :: collapse_ws_go false r
  end.

Definition collapse_ws (s : jsstring) : jsstring := collapse_ws_go false s.

(** The curly double quotes U+201C and U+201D become a straight double
    quote, the curly single quotes U+2018 and U+2019 an apostrophe. *)
Definition straighten_double (c : char) : char :=
  if (c =? 8220) || (c =? 8221) then 34 else c.
Definition straighten_single (c : char) : char :=
  if (c =? 8216) || (c =? 8217) then 39 else c.

(** The word boundary [\b] that follows a matched word: the next code
    unit, if any, is not a word character. *)
Definition boundary (rest : jsstring) : bool :=
  match rest with
  | [] => true
  | c :: _ => negb (is_word_char c)
  end.

(** One alternative of the garbage pattern at [s'] (after the quote and
    the white space), [total] being the length of the text from the
    quote on. *)
Definition garbage_word (total : nat) (w s' : jsstring) : option nat :=
  match iprefix w s' with
  | Some rest => if boundary rest then Some (total - List.length rest)%nat else None
  | None => None
  end.

Definition or_else {A} (a b : option A) : option A :=
  match a with Some _ => a | None => b end.

(** [/'\s*(end-user|thelived|ty)\b/i] anchored at the head of [s]. The
    greedy [\s*] never has to give white space back: every alternative
    starts with a letter. *)
Definition m_garbage (s : jsstring) : option nat :=
  match s with
  | c :: r =>
      if c =? 39 then
        let s' := trimStart r in
        let n := List.length s in
        or_else (garbage_word n (lit "end-user") s')
          (or_else (garbage_word n (lit "thelived") s')
             (garbage_word n (lit "ty") s'))
      else None
  | [] => None
  end.

(** [/```json\s*/i] anchored at the head of [s]. *)
Definition m_fence_json (s : jsstring) : option nat :=
  match iprefix (lit "```json") s with
  | Some rest => Some (List.length s - List.length (trimStart rest))%nat
  | None => None
  end.

(** [/```/] anchored at the head of [s]. *)
Definition m_fence (s : jsstring) : option nat :=
  if startsWith s (lit "```") then Some 3%nat else None.

(** The class [[.!?]]. *)
Definition is_terminal (c : char) : bool := (c =? 46) || (c =? 33) || (c =? 63).

(** [/[.!?]$/.test(t)] *)
Definition ends_terminal (t : jsstring) : bool :=
  match rev t with
  | c :: _ => is_terminal c
  | [] => false
  end.

(** [/^step\s*\d+$/i.test(t)] *)
Definition bare_step_title (t : jsstring) : bool :=
  match iprefix (lit "step") t with
  | Some rest =>
      match trimStart rest with
      | [] => false
      | d :: ds => forallb is_digit (d :: ds)
      end
  | None => false
  end.

End Js.
Export Js.


(* ================================================================== *)
(** ** Completions, numbers and values *)
(* ================================================================== *)

(** What a JavaScript exception carries, as far as this program tells
    exceptions apart. *)
Inductive exn :=
| Error (message : jsstring)      (* throw new Error(message) *)
| TypeError                       (* a failed conversion or method call *)
| SyntaxError                     (* JSON.parse on text that is not JSON *)
| Rejected (reason : jsstring).   (* a rejected fetch or read: network failure, abort on timeout *)

Inductive completion (A : Type) :=
| Normal (a : A)
| Throw (e : exn).
Arguments Normal {A} a.
Arguments Throw {A} e.

Definition cbind {A B} (c : completion A) (k : A -> completion B) : completion B :=
  match c with
  | Normal a => k a
  | Throw e => Throw e
  end.

Declare Scope completion_scope.
Delimit Scope completion_scope with completion.
Notation "'let!' x ':=' c 'in' k" := (cbind c (fun x => k))
  (at level 10, x name, c at level 100, k at level 200) : completion_scope.

(** A JavaScript number: a binary64 value. Finite values are carried as
    the rational they denote ([round64] rounds an arbitrary rational to
    the nearest binary64 value, ties to even); the sign of zero is not
    kept, since nothing in this program observes it. *)
Inductive number :=
| NaN
| Infinity (negative : bool)
| Finite (q : Q).

Module Num.

Definition pow2 (e : Z) : Q :=
  if 0 <=? e then inject_Z (2 ^ e) else Qinv (inject_Z (2 ^ (- e))).

Definition pow10 (e : Z) : Q :=
  if 0 <=? e then inject_Z (10 ^ e) else Qinv (inject_Z (10 ^ (- e))).

(** Nearest integer of a non-negative rational, ties to even. *)
Definition round_half_even (q : Q) : Z :=
  let n := Qnum q in
  let d := Zpos (Qden q) in
  let f := n / d in
  let r2 := 2 * (n mod d) in
  if r2 <? d then f
  else if d <? r2 then f + 1
  else if Z.even f then f else f + 1.

(** floor (log2 a) for a positive rational. *)
Definition ilog2 (a : Q) : Z :=
  let e0 := Z.log2 (Qnum a) - Z.log2 (Zpos (Qden a)) in
  if Qle_bool (pow2 e0) a then e0 else e0 - 1.

(** The binary64 value nearest to a rational: 53 significant bits,
    exponents down to -1022 (below, fixed quantum 2^-1074), overflow to
    an infinity. *)
Definition round64 (q : Q) : number :=
  if Qnum q =? 0 then Finite 0
  else
    let neg := Qnum q <? 0 in
    let a := if neg then Qopp q else q in
    let e := Z.max (ilog2 a) (-1022) in
    let quantum := pow2 (e - 52) in
    let m := round_half_even (Qdiv a quantum) in
    let r := Qmult (inject_Z m) quantum in
    if Qle_bool (pow2 1024) r then Infinity neg
    else Finite (Qred (if neg then Qopp r else r)).

Definition of_Z (z : Z) : number := round64 (inject_Z z).

(** [Number.isFinite(n)] *)
Definition isFinite (n : number) : bool :=
  match n with Finite _ => true | _ => false end.

(** [Math.trunc(n)] of a finite number: the integer part, towards zero. *)
Definition trunc (q : Q) : Z := Z.quot (Qnum q) (Zpos (Qden q)).

Definition is_zero (n : number) : bool :=
  match n with Finite q => Qnum q =? 0 | _ => false end.

(** *** Number to string (Number::toString, radix 10) *)

Definition digit_char (d : Z) : char := 48 + d.

(** floor (log10 a) for a positive rational. *)
Definition ilog10 (a : Q) : Z :=
  let est := (ilog2 a * 30103) / 100000 - 2 in
  (fix up (fuel : nat) (n : Z) : Z :=
     match fuel with
     | O => n
     | S f => if Qle_bool (pow10 (n + 1)) a then up f (n + 1) else n
     end) 8%nat est.

(** The shortest decimal [s * 10^(n-k)] ([s] of [k] digits) that rounds
    back to [x], nearest to [x] when several do: the pair [(n, s)] for the
    first [k] that has one. *)
Fixpoint shortest (fuel : nat) (k : Z) (x : Q) (n0 : Z) : Z * Z * Z :=
  let t := Qdiv x (pow10 (n0 - k)) in
  let lo := Qnum t / Zpos (Qden t) in
  let hi := lo + 1 in
  let back (s : Z) := match round64 (Qmult (inject_Z s) (pow10 (n0 - k))) with
                      | Finite y => Qeq_bool y x
                      | _ => false
                      end in
  let pick_hi := if hi <? 10 ^ k then (n0, k, hi) else (n0 + 1, k, 10 ^ (k - 1)) in
  let lo_closer :=
    let dl := Qminus t (inject_Z lo) in
    let dh := Qminus (inject_Z hi) t in
    Qle_bool dl dh && (negb (Qeq_bool dl dh) || Z.even lo) in
  match back lo, back hi with
  | true, true => if lo_closer then (n0, k, lo) else pick_hi
  | true, false => (n0, k, lo)
  | false, true => pick_hi
  | false, false =>
      match fuel with
      | O => (n0, k, lo)
      | S f => shortest f (k + 1) x n0
      end
  end.

Definition digits_of (z : Z) : jsstring := decimal z.

Definition zeros (n : Z) : jsstring := repeat 48 (Z.to_nat n).

Definition format_positive (x : Q) : jsstring :=
  let '(n, k, s) := shortest 20%nat 1 x (ilog10 x + 1) in
  let ds := digits_of s in
  if (-5 <=? n) && (n <=? 21) then
    if k <=? n then ds ++ zeros (n - k)
    else if 0 <? n then firstn (Z.to_nat n) ds ++ [46] ++ skipn (Z.to_nat n) ds
    else [48; 46] ++ zeros (- n) ++ ds
  else
    let e := n - 1 in
    let es := (if 0 <=? e then [43] else [45]) ++ digits_of (Z.abs e) in
    match ds with
    | [d] => [d; 101] ++ es
    | d :: r => d :: 46 :: r ++ [101] ++ es
    | [] => []
    end.

Definition toString (n : number) : jsstring :=
  match n with
  | NaN => lit "NaN"
  | Infinity false => lit "Infinity"
  | Infinity true => lit "-Infinity"
  | Finite q =>
      if Qnum q =? 0 then lit "0"
      else if Qnum q <? 0 then 45 :: format_positive (Qopp q)
      else format_positive q
  end.

(** *** String to number (StringToNumber) *)

Fixpoint span_digits (s : jsstring) : jsstring * jsstring :=
  match s with
  | c :: r => if is_digit c then let '(ds, rest) := span_digits r in (c :: ds, rest)
              else ([], s)
  | [] => ([], [])
  end.

Definition digits_value (base : Z) (ds : list Z) : Z :=
  fold_left (fun acc d => acc * base + d) ds 0.

Definition dec_value (ds : jsstring) : Z := digits_value 10 (map (fun c => c - 48) ds).

Definition hex_digit (c : char) : option Z :=
  if is_digit c then Some (c - 48)
  else if (97 <=? lower c) && (lower c <=? 102) then Some (lower c - 87)
  else None.

Fixpoint all_digits (base : Z) (s : jsstring) : option (list Z) :=
  match s with
  | [] => Some []
  | c :: r =>
      match hex_digit c, all_digits base r with
      | Some d, Some ds => if d <? base then Some (d :: ds) else None
      | _, _ => None
      end
  end.

(** [0x..], [0o..], [0b..]: at least one digit of the base, nothing else. *)
Definition non_decimal (base : Z) (ds : jsstring) : number :=
  match ds with
  | [] => NaN
  | _ => match all_digits base ds with
         | Some vs => of_Z (digits_value base vs)
         | None => NaN
         end
  end.

(** An optional exponent part, which must reach the end of the text. *)
Definition exponent (s : jsstring) : option Z :=
  match s with
  | [] => Some 0
  | c :: r =>
      if lower c =? 101 then
        let '(neg, r') := match r with
                          | 43 :: r' => (false, r')
                          | 45 :: r' => (true, r')
                          | _ => (false, r)
                          end in
        match span_digits r' with
        | (d :: ds, []) => Some (if neg then - dec_value (d :: ds) else dec_value (d :: ds))
        | _ => None
        end
      else None
  end.

(** An unsigned decimal literal: digits, an optional fraction, an
    optional exponent; at least one digit before the exponent. *)
Definition unsigned_decimal (s : jsstring) : option Q :=
  let '(ip, r1) := span_digits s in
  let '(fp, r2, dot) := match r1 with
                        | 46 :: r => let '(fp, r2) := span_digits r in (fp, r2, true)
                        | _ => ([], r1, false)
                        end in
  match ip ++ fp with
  | [] => None
  | ds =>
      match exponent r2 with
      | Some e => Some (Qmult (inject_Z (dec_value ds)) (pow10 (e - strlen fp)))
      | None => None
      end
  end.

Definition negate (n : number) : number :=
  match n with
  | NaN => NaN
  | Infinity b => Infinity (negb b)
  | Finite q => Finite (Qred (Qopp q))
  end.

Definition signed_decimal (s : jsstring) : number :=
  let '(neg, r) := match s with
                   | 43 :: r => (false, r)
                   | 45 :: r => (true, r)
                   | _ => (false, s)
                   end in
  let n := if str_eqb r (lit "Infinity") then Infinity false
           else match unsigned_decimal r with
                | Some q => round64 q
                | None => NaN
                end in
  if neg then negate n else n.

(** [Number(s)] for a string [s]. *)
Definition of_string (s : jsstring) : number :=
  match trim s with
  | [] => Finite 0
  | 48 :: x :: r =>
      if lower x =? 120 then non_decimal 16 r
      else if lower x =? 111 then non_decimal 8 r
      else if lower x =? 98 then non_decimal 2 r
      else signed_decimal (trim s)
  | t => signed_decimal t
  end.

End Num.

(** A value of type [any]: what [JSON.parse] can return, and
    [undefined]. An object is the list of its own properties in creation
    order, each key once. *)
Inductive value :=
| VUndefined
| VNull
| VBool (b : bool)
| VNum (n : number)
| VStr (s : jsstring)
| VArr (items : list value)
| VObj (props : list (jsstring * value)).

Module Val.

(** Truthiness ([ToBoolean]): what [if (v)] and [!v] test. *)
Definition truthy (v : value) : bool :=
  match v with
  | VUndefined | VNull => false
  | VBool b => b
  | VNum NaN => false
  | VNum n => negb (Num.is_zero n)
  | VStr s => match s with [] => false | _ => true end
  | VArr _ | VObj _ => true
  end.

Definition nullish (v : value) : bool :=
  match v with VUndefined | VNull => true | _ => false end.

(** [a ?? b] *)
Definition coalesce (a b : value) : value := if nullish a then b else a.

Fixpoint lookup (k : jsstring) (ps : list (jsstring * value)) : option value :=
  match ps with
  | [] => None
  | (k', v) :: r => if str_eqb k' k then Some v else lookup k r
  end.

(** [CreateDataProperty]: a key already present keeps its place and
    takes the new value. *)
Fixpoint set_prop (k : jsstring) (v : value) (ps : list (jsstring * value))
  : list (jsstring * value) :=
  match ps with
  | [] => [(k, v)]
  | (k', v') :: r => if str_eqb k' k then (k', v) :: r else (k', v') :: set_prop k v r
  end.

(** [v?.k], for the property names this program reads (none of them is
    an index or a property of a built-in prototype other than [length]). *)
Definition get (v : value) (k : jsstring) : value :=
  match v with
  | VObj ps => match lookup k ps with Some x => x | None => VUndefined end
  | VArr xs => if str_eqb k (lit "length") then VNum (Num.of_Z (Z.of_nat (List.length xs)))
               else VUndefined
  | VStr s => if str_eqb k (lit "length") then VNum (Num.of_Z (strlen s))
              else VUndefined
  | _ => VUndefined
  end.

Definition has_own (ps : list (jsstring * value)) (k : jsstring) : bool :=
  match lookup k ps with Some _ => true | None => false end.

(** [String(v)] ([ToString]). A plain object prints as [[object Object]]
    through the inherited [toString], unless an own property of that name
    (never callable in parsed JSON) hides it: then the conversion has no
    method to call and throws. An array joins its elements with a comma,
    [null] and [undefined] printing as nothing. *)
Fixpoint ToString (v : value) : completion jsstring :=
  match v with
  | VUndefined => Normal (lit "undefined")
  | VNull => Normal (lit "null")
  | VBool true => Normal (lit "true")
  | VBool false => Normal (lit "false")
  | VNum n => Normal (Num.toString n)
  | VStr s => Normal s
  | VArr xs =>
      (fix join (l : list value) : completion jsstring :=
         match l with
         | [] => Normal []
         | x :: r =>
             cbind (if nullish x then Normal [] else ToString x) (fun sx =>
             match r with
             | [] => Normal sx
             | _ => cbind (join r) (fun sr => Normal (sx ++ 44 :: sr))
             end)
         end) xs
  | VObj ps =>
      if has_own ps (lit "toString") then Throw TypeError
      else Normal (lit "[object Object]")
  end.

(** [Number(v)] ([ToNumber]); objects and arrays convert through their
    string form. *)
Definition ToNumber (v : value) : completion number :=
  match v with
  | VUndefined => Normal NaN
  | VNull => Normal (Finite 0)
  | VBool true => Normal (Finite 1)
  | VBool false => Normal (Finite 0)
  | VNum n => Normal n
  | VStr s => Normal (Num.of_string s)
  | VArr _ | VObj _ => cbind (ToString v) (fun s => Normal (Num.of_string s))
  end.

(** [Array.isArray(v) ? v : []] *)
Definition array_items (v : value) : list value :=
  match v with VArr xs => xs | _ => [] end.

End Val.

(* ================================================================== *)
(** ** JSON.parse *)
(* ================================================================== *)

Module Json.

Definition is_json_ws (c : char) : bool :=
  (c =? 9) || (c =? 10) || (c =? 13) || (c =? 32).

Fixpoint skip_ws (s : jsstring) : jsstring :=
  match s with
  | c :: r => if is_json_ws c then skip_ws r else s
  | [] => []
  end.

Definition hex4 (a b c d : char) : option char :=
  match Num.hex_digit a, Num.hex_digit b, Num.hex_digit c, Num.hex_digit d with
  | Some x, Some y, Some z, Some w => Some (((x * 16 + y) * 16 + z) * 16 + w)
  | _, _, _, _ => None
  end.

(** The characters of a string up to its closing quote ([acc] holds them
    in reverse), and the text after the quote. *)
Fixpoint string_body (s : jsstring) (acc : jsstring) : option (jsstring * jsstring) :=
  match s with
  | [] => None
  | 34 :: r => Some (rev acc, r)
  | 92 :: e :: r =>
      if e =? 117 then
        match r with
        | a :: b :: c :: d :: r' =>
            match hex4 a b c d with
            | Some u => string_body r' (u :: acc)
            | None => None
            end
        | _ => None
        end
      else
        match (if e =? 34 then Some 34 else if e =? 92 then Some 92
               else if e =? 47 then Some 47 else if e =? 98 then Some 8
               else if e =? 102 then Some 12 else if e =? 110 then Some 10
               else if e =? 114 then Some 13 else if e =? 116 then Some 9
               else None) with
        | Some u => string_body r (u :: acc)
        | None => None
        end
  | c :: r => if (c <? 32) || (c =? 92) then None else string_body r (c :: acc)
  end.

(** A number: [-? (0 | [1-9][0-9]* ) (. [0-9]+)? ([eE] [+-]? [0-9]+)?]. *)
Definition number_token (s : jsstring) : option (number * jsstring) :=
  let '(neg, s1) := match s with 45 :: r => (true, r) | _ => (false, s) end in
  let '(ip, s2) := Num.span_digits s1 in
  match ip with
  | [] => None
  | d :: ds =>
      if (d =? 48) && negb (match ds with [] => true | _ => false end) then None
      else
        let frac := match s2 with
                    | 46 :: r => match Num.span_digits r with
                                 | (f :: fs, r') => Some (f :: fs, r')
                                 | _ => None
                                 end
                    | _ => Some ([], s2)
                    end in
        match frac with
        | None => None
        | Some (fp, s3) =>
            let ex := match s3 with
                      | c :: r =>
                          if lower c =? 101 then
                            let '(eneg, r') := match r with
                                               | 43 :: r' => (false, r')
                                               | 45 :: r' => (true, r')
                                               | _ => (false, r)
                                               end in
                            match Num.span_digits r' with
                            | (e :: es, r'') =>
                                Some ((if eneg then - Num.dec_value (e :: es)
                                       else Num.dec_value (e :: es)), r'')
                            | _ => None
                            end
                          else Some (0, s3)
                      | [] => Some (0, s3)
                      end in
            match ex with
            | None => None
            | Some (e, s4) =>
                let q := Qmult (inject_Z (Num.dec_value (ip ++ fp)))
                           (Num.pow10 (e - strlen fp)) in
                let n := Num.round64 q in
                Some ((if neg then Num.negate n else n), s4)
            end
        end
  end.

(** One JSON value at the head of [s] (after white space) and the text
    that follows it. [fuel] bounds the nesting depth and the number of
    members of one array or object; the length of the text is enough. *)
Fixpoint parse_value (fuel : nat) (s : jsstring) : option (value * jsstring) :=
  match fuel with
  | O => None
  | S f =>
      match skip_ws s with
      | [] => None
      | c :: r =>
          if c =? 123 then
            match skip_ws r with
            | 125 :: r' => Some (VObj [], r')
            | _ =>
                (fix members (n : nat) (s : jsstring) (acc : list (jsstring * value))
                   : option (value * jsstring) :=
                   match n with
                   | O => None
                   | S n' =>
                       match skip_ws s with
                       | 34 :: s1 =>
                           match string_body s1 [] with
                           | Some (k, s2) =>
                               match skip_ws s2 with
                               | 58 :: s3 =>
                                   match parse_value f s3 with
                                   | Some (v, s4) =>
                                       match skip_ws s4 with
                                       | 44 :: s5 => members n' s5 (Val.set_prop k v acc)
                                       | 125 :: s5 => Some (VObj (Val.set_prop k v acc), s5)
                                       | _ => None
                                       end
                                   | None => None
                                   end
                               | _ => None
                               end
                           | None => None
                           end
                       | _ => None
                       end
                   end) f r []
            end
          else if c =? 91 then
            match skip_ws r with
            | 93 :: r' => Some (VArr [], r')
            | _ =>
                (fix elements (n : nat) (s : jsstring) (acc : list value)
                   : option (value * jsstring) :=
                   match n with
                   | O => None
                   | S n' =>
                       match parse_value f s with
                       | Some (v, s1) =>
                           match skip_ws s1 with
                           | 44 :: s2 => elements n' s2 (v :: acc)
                           | 93 :: s2 => Some (VArr (rev (v :: acc)), s2)
                           | _ => None
                           end
                       | None => None
                       end
                   end) f r []
            end
          else if c =? 34 then
            match string_body r [] with
            | Some (str, r') => Some (VStr str, r')
            | None => None
            end
          else if startsWith (c :: r) (lit "true") then Some (VBool true, skipn 4 (c :: r))
          else if startsWith (c :: r) (lit "false") then Some (VBool false, skipn 5 (c :: r))
          else if startsWith (c :: r) (lit "null") then Some (VNull, skipn 4 (c :: r))
          else
            match number_token (c :: r) with
            | Some (n, r') => Some (VNum n, r')
            | None => None
            end
      end
  end.

(** [JSON.parse(text)]: one value, white space around it, nothing else. *)
Definition parse (text : jsstring) : completion value :=
  match parse_value (S (List.length text)) text with
  | Some (v, rest) =>
      match skip_ws rest with
      | [] => Normal v
      | _ => Throw SyntaxError
      end
  | None => Throw SyntaxError
  end.

End Json.

(* ================================================================== *)
(** ** shared.ts: generic utilities *)
(* ================================================================== *)

Local Open Scope completion_scope.

(** [clampInt(n, min, max)]. The bounds are integer literals at every
    call site (10 and 90; MIN_STEPS and MAX_STEPS), so they and the
    result are integers; [n] is any number. A number that is not finite
    gives [min]. *)
Definition clampInt (n : number) (min max : Z) : Z :=
  match n with
  | Finite q => Z.min max (Z.max min (Num.trunc q))
  | _ => min
  end.

Definition is_priority (s : jsstring) : bool :=
  str_eqb s (lit "low") || str_eqb s (lit "medium") || str_eqb s (lit "high").

(** [normalizePriority(v)] *)
Definition normalizePriority (v : value) : completion jsstring :=
  let! s0 := Val.ToString (Val.coalesce v (VStr [])) in
  let s := trim (toLowerCase s0) in
  if is_priority s then Normal s else Normal (lit "medium").

(** The first normalisation of [cleanText]: white space collapsed, curly
    quotes straightened, trimmed. *)
Definition tidy (s : jsstring) : jsstring :=
  trim (map straighten_single (map straighten_double (collapse_ws s))).

(** The targeted removal of glue artifacts, and the second collapse. *)
Definition strip_garbage (t : jsstring) : jsstring := remove_all m_garbage t.

Definition retidy (t : jsstring) : jsstring := trim (collapse_ws t).

(** [if (t.length > maxLen) ...]: cut at the last space at or before
    [maxLen] when that is beyond position 20, else at [maxLen]. *)
Definition truncate (t : jsstring) (maxLen : Z) : jsstring :=
  if maxLen <? strlen t then
    let cut := lastIndexOf t [32] maxLen in
    trim (if 20 <? cut then slice t 0 cut else slice t 0 maxLen)
  else t.

(** [if (t && !/[.!?]$/.test(t)) t += "."] *)
Definition punctuate (t : jsstring) : jsstring :=
  match t with
  | [] => t
  | _ => if ends_terminal t then t else t ++ [46]
  end.

(** The body of [cleanText] once its argument is a string. *)
Definition clean (s : jsstring) (maxLen : Z) : jsstring :=
  punctuate (truncate (retidy (strip_garbage (tidy s))) maxLen).

(** [cleanText(s, maxLen)]. The callers pass values of type [any], which
    [String(s ?? "")] converts first. *)
Definition cleanText (s : value) (maxLen : Z) : completion jsstring :=
  let! t := Val.ToString (Val.coalesce s (VStr [])) in
  Normal (clean t maxLen).

(* ================================================================== *)
(** ** shared.ts: JSON parsing helpers *)
(* ================================================================== *)

(** [stripFences(s)] *)
Definition stripFences (s : jsstring) : jsstring :=
  trim (remove_all m_fence (remove_all m_fence_json s)).

(** [maybeTruncatedJSON(s)] *)
Definition maybeTruncatedJSON (s : jsstring) : bool :=
  let t := trim s in
  match t with
  | [] => true
  | _ =>
      let startsJSON := startsWith t [123] || startsWith t [91] in
      let endsJSON := endsWith t [125] || endsWith t [93] in
      startsJSON && negb endsJSON
  end.

(** [if (cond) { try { return JSON.parse(text); } catch {} }]: the value
    returned, if any, and the parse attempted, if any. *)
Definition attempt (cond : bool) (text : jsstring) : option value * list jsstring :=
  if cond then
    match Json.parse text with
    | Normal v => (Some v, [text])
    | Throw _ => (None, [text])
    end
  else (None, []).

(** [tryParseJSON(raw)]: the completion, and beside it the texts handed
    to [JSON.parse], in order. [raw] comes from a response body of type
    [any]; a truthy value that is not a string has no [replace] method. *)
Definition tryParseJSON (raw : value) : completion value * list jsstring :=
  if negb (Val.truthy raw) then (Normal VNull, [])
  else
    match raw with
    | VStr text =>
        let stripped := stripFences text in
        if maybeTruncatedJSON stripped then (Normal VNull, [])
        else
          match Json.parse stripped with
          | Normal v => (Normal v, [stripped])
          | Throw _ =>
              (* Try extracting object *)
              let fb := indexOf stripped [123] in
              let lb := lastIndexOf_end stripped [125] in
              let '(r1, l1) :=
                attempt (negb (fb =? -1) && negb (lb =? -1) && (fb <? lb))
                  (slice stripped fb (lb + 1)) in
              match r1 with
              | Some v => (Normal v, stripped :: l1)
              | None =>
                  (* Try extracting array *)
                  let fbr := indexOf stripped [91] in
                  let lbr := lastIndexOf_end stripped [93] in
                  let '(r2, l2) :=
                    attempt (negb (fbr =? -1) && negb (lbr =? -1) && (fbr <? lbr))
                      (slice stripped fbr (lbr + 1)) in
                  match r2 with
                  | Some v => (Normal v, stripped :: l1 ++ l2)
                  | None => (Normal VNull, stripped :: l1 ++ l2)
                  end
              end
          end
    | _ => (Throw TypeError, [])
    end.

(* ================================================================== *)
(** ** The world: inference service and datastore *)
(* ================================================================== *)

(** The body of one POST to the inference service. *)
Record request := {
  req_url : jsstring;
  req_model : jsstring;
  req_prompt : jsstring;
  req_num_predict : Z;
  req_stream : bool;
  req_timeoutMs : Z
}.

(** What the service answers: status, the body as text ([res.text()]),
    the body as JSON ([res.json()]), and for a streamed answer the decoded
    chunks the reader yields, then the end of the stream or a failed
    read. *)
Record response := {
  res_ok : bool;
  res_status : Z;
  res_text : completion jsstring;
  res_json : completion value;
  res_body : option (list jsstring * option exn)
}.

Inductive fetch_outcome :=
| FetchFails (e : exn)
| FetchResponds (r : response).

(** A row of [plan_steps]. *)
Record StepRow := {
  plan_id : jsstring;
  step_key : jsstring;
  order_index : Z;
  title : jsstring;
  details : jsstring;
  success_criteria : jsstring;
  priority : jsstring;
  estimated_minutes : Z;
  status : jsstring
}.

(** A row of [plans] as the handler inserts it. *)
Record PlanRow := {
  user_id : jsstring;
  person_name : option jsstring;
  company_name : jsstring;
  company_title : jsstring;
  short_description : jsstring;
  long_description : option jsstring;
  model : jsstring
}.

(** The answer of the datastore to one operation: the generated
    identifier of an insert that selects it, or an error value. *)
Inductive db_reply :=
| DbData (id : jsstring)
| DbError (detail : jsstring).

(** The operations issued to the datastore, with their outcome. *)
Inductive db_event :=
| InsertPlan (row : PlanRow) (ok : bool)
| InsertSteps (rows : list StepRow) (ok : bool)
| UpdateStep (plan key : jsstring) (ok : bool)
| DeleteSteps (plan : jsstring) (ok : bool).

Record world := {
  upstream : list fetch_outcome;   (* the answers the service will give, in order *)
  calls : list request;            (* the requests issued so far, oldest first *)
  delivered : list value;          (* the deltas handed to onToken, oldest first *)
  db_replies : list db_reply;      (* the answers the datastore will give, in order *)
  db_log : list db_event;          (* the datastore operations so far, oldest first *)
  plan_steps : list StepRow        (* the table plan_steps *)
}.

(** A computation that reads and changes the world and may throw. The
    world keeps what was done before the exception. *)
Definition M (A : Type) : Type := world -> completion A * world.

Definition ret {A} (a : A) : M A := fun w => (Normal a, w).
Definition throw {A} (e : exn) : M A := fun w => (Throw e, w).
Definition lift {A} (c : completion A) : M A := fun w => (c, w).
Definition bind {A B} (m : M A) (k : A -> M B) : M B :=
  fun w =>
    match m w with
    | (Normal a, w') => k a w'
    | (Throw e, w') => (Throw e, w')
    end.

Declare Scope m_scope.
Delimit Scope m_scope with m.
Notation "'do' x <- c ; k" := (bind c (fun x => k))
  (at level 10, x name, c at level 100, k at level 200) : m_scope.
Notation "'do' ' p <- c ; k" := (bind c (fun x => let 'p := x in k))
  (at level 10, p pattern, c at level 100, k at level 200) : m_scope.
Local Open Scope m_scope.

(** The world after one more request: it is recorded, and the answer
    it gets is used up. *)
Definition record_call (req : request) (w : world) : world :=
  {| upstream := tl (upstream w); calls := calls w ++ [req];
     delivered := delivered w; db_replies := db_replies w;
     db_log := db_log w; plan_steps := plan_steps w |}.

(** The answer the next request gets. A service with no answer left
    rejects. *)
Definition answer (w : world) : completion response :=
  match upstream w with
  | FetchResponds r :: _ => Normal r
  | FetchFails e :: _ => Throw e
  | [] => Throw (Rejected (lit "no answer"))
  end.

(** [fetch(url, init)] *)
Definition fetch (req : request) : M response :=
  fun w => (answer w, record_call req w).

(** [fetchWithTimeout(url, init, ms)]: the abort on timeout is one of the
    ways the scripted fetch can fail. *)
Definition fetchWithTimeout (req : request) : M response := fetch req.

(** The record that [onToken(delta)] was called. *)
Definition deliver (delta : value) : M unit :=
  fun w =>
    (Normal tt,
     {| upstream := upstream w; calls := calls w;
        delivered := delivered w ++ [delta]; db_replies := db_replies w;
        db_log := db_log w; plan_steps := plan_steps w |}).

(* ================================================================== *)
(** ** shared.ts: the generation client *)
(* ================================================================== *)

Record chat_params := {
  ollamaUrl : jsstring;
  chat_model : jsstring;
  prompt : jsstring;
  num_predict : Z;
  timeoutMs : Z
}.

(** The request a call sends. *)
Definition chat_request (p : chat_params) (stream : bool) : request :=
  {| req_url := ollamaUrl p; req_model := chat_model p;
     req_prompt := prompt p; req_num_predict := num_predict p;
     req_stream := stream; req_timeoutMs := timeoutMs p |}.

(** What [ollamaChat] does with the response of its call. *)
Definition read_chat (res : response) : completion value :=
  if negb (res_ok res) then
    let! text := res_text res in
    Throw (Error (lit "Ollama error (" ++ decimal (res_status res) ++ lit "): " ++ text))
  else
    let! json := res_json res in
    let content := Val.get (Val.get json (lit "message")) (lit "content") in
    if negb (Val.truthy content)
    then Throw (Error (lit "Ollama returned no message.content"))
    else Normal content.

(** [ollamaChat(params)]: one blocking call. *)
Definition ollamaChat (p : chat_params) : M value :=
  do res <- fetchWithTimeout (chat_request p false);
  lift (read_chat res).

(** The [try] block run on one line of the stream: the new accumulated
    text, and whether the inner loop breaks. Whatever the block throws is
    caught and ignored, the test of [done] with it. *)
Definition on_line (onToken : value -> completion unit) (line full : jsstring)
  : M (jsstring * bool) :=
  match Json.parse line with
  | Throw _ => ret (full, false)
  | Normal obj =>
      let delta := Val.coalesce (Val.get (Val.get obj (lit "message")) (lit "content"))
                     (VStr []) in
      let done := Val.truthy (Val.get obj (lit "done")) in
      if Val.truthy delta then
        match Val.ToString delta with               (* full += delta *)
        | Throw _ => ret (full, false)
        | Normal d =>
            do _ <- deliver delta;                  (* onToken(delta) *)
            match onToken delta with
            | Throw _ => ret (full ++ d, false)
            | Normal _ => ret (full ++ d, done)
            end
        end
      else ret (full, done)
  end.

(** The inner loop, [while ((nl = buf.indexOf(newline)) !== -1)]: the
    buffer and accumulated text it leaves. Every turn removes at least
    the newline from [buf], so [fuel] above the length of [buf] is never
    used up ([drain_fuel_irrelevant]). *)
Fixpoint drain (fuel : nat) (onToken : value -> completion unit)
  (onRawLine : option (jsstring -> completion unit)) (buf full : jsstring)
  : M (jsstring * jsstring) :=
  match fuel with
  | O => ret (buf, full)
  | S f =>
      let nl := indexOf buf [10] in
      if nl =? -1 then ret (buf, full)
      else
        let line := trim (slice buf 0 nl) in
        let buf' := slice_from buf (nl + 1) in
        match line with
        | [] => drain f onToken onRawLine buf' full          (* continue *)
        | _ =>
            do _ <- lift (match onRawLine with
                          | Some f => f line
                          | None => Normal tt
                          end);
            do ' (full', break) <- on_line onToken line full;
            if break then ret (buf', full')                  (* break *)
            else drain f onToken onRawLine buf' full'
        end
  end.

(** The outer loop, [while (true) { const { value, done } = await
    reader.read(); if (done) break; ... }], over the chunks the reader
    will yield. *)
Fixpoint read_loop (chunks : list jsstring) (ending : option exn)
  (onToken : value -> completion unit)
  (onRawLine : option (jsstring -> completion unit)) (buf full : jsstring)
  : M jsstring :=
  match chunks with
  | [] =>
      match ending with
      | None => ret full
      | Some e => throw e
      end
  | chunk :: rest =>
      let buf1 := buf ++ chunk in
      do ' (buf2, full2) <- drain (S (List.length buf1)) onToken onRawLine buf1 full;
      read_loop rest ending onToken onRawLine buf2 full2
  end.

(** [ollamaChatStream(params)]: one streamed call. *)
Definition ollamaChatStream (p : chat_params)
  (onToken : value -> completion unit)
  (onRawLine : option (jsstring -> completion unit)) : M jsstring :=
  do res <- fetch (chat_request p true);
  if negb (res_ok res) then
    do text <- lift (res_text res);
    throw (Error (lit "Ollama error (" ++ decimal (res_status res) ++ lit "): " ++ text))
  else
    match res_body res with
    | None => throw (Error (lit "Ollama returned no body (stream unavailable)."))
    | Some (chunks, ending) => read_loop chunks ending onToken onRawLine [] []
    end.

(* ================================================================== *)
(** ** shared.ts: the repair-on-failure controller *)
(* ================================================================== *)

Record json_params := {
  primary : chat_params;
  repairModel : jsstring;
  repairNumPredict : Z;
  repairTimeoutMs : Z;
  requiredKeys : option (list jsstring)
}.

(** [keys.join(", ")] *)
Fixpoint join_keys (keys : list jsstring) : jsstring :=
  match keys with
  | [] => []
  | [k] => k
  | k :: r => k ++ lit ", " ++ join_keys r
  end.

(** [requiredKeys?.length ? with_keys : without] *)
Definition keys_line (keys : option (list jsstring)) (sep : jsstring) : jsstring :=
  match keys with
  | Some (k :: r) =>
      lit "Fix the JSON so it parses and contains these keys:" ++ sep
        ++ join_keys (k :: r) ++ lit "."
  | _ => lit "Fix the JSON so it parses."
  end.

Definition repair_failure (a1 r : jsstring) : exn :=
  Error (lit "Model returned non-JSON after attempt+repair. A1=" ++ slice a1 0 500
           ++ lit " | R=" ++ slice r 0 500).

(** The repair call and what follows it, shared by both controllers:
    [raw1] is the text that failed extraction. *)
Definition repair_call (p : json_params) (repairPrompt : jsstring) : chat_params :=
  {| ollamaUrl := ollamaUrl (primary p); chat_model := repairModel p;
     prompt := repairPrompt; num_predict := repairNumPredict p;
     timeoutMs := repairTimeoutMs p |}.

Definition repair (p : json_params) (repairPrompt raw1 : jsstring)
  : M (value * jsstring) :=
  do r <- ollamaChat (repair_call p repairPrompt);
  do pr <- lift (fst (tryParseJSON r));
  match r with
  | VStr rs =>
      if Val.truthy pr then ret (pr, rs)
      else throw (repair_failure raw1 rs)
  | _ => throw TypeError     (* not reached: tryParseJSON has thrown *)
  end.

(** The repair prompt of [callJSON]. *)
Definition repairPrompt (keys : option (list jsstring)) (a1 : jsstring) : jsstring :=
  let keysLine := keys_line keys [10] in
  lit "Return ONLY corrected MINIFIED JSON on one line.
No extra keys. No markdown.

" ++ keysLine ++ lit "

MALFORMED OUTPUT:
" ++ a1.

(** [callJSON(params)] *)
Definition callJSON (p : json_params) : M value :=
  do a1 <- ollamaChat (primary p);
  do p1 <- lift (fst (tryParseJSON a1));
  if Val.truthy p1 then ret p1
  else
    match a1 with
    | VStr a1s =>
        do ' (pr, _) <- repair p (repairPrompt (requiredKeys p) a1s) a1s;
        ret pr
    | _ => throw TypeError   (* not reached: tryParseJSON has thrown *)
    end.

(** What [callJSONStream] returns. *)
Record parsed_raw := { parsed : value; raw : jsstring }.

(** The repair prompt of [callJSONStream]. *)
Definition repairPromptStream (keys : option (list jsstring)) (raw1 : jsstring) : jsstring :=
  let keysLine := keys_line keys [32] in
  lit "Return ONLY corrected MINIFIED JSON on one line.
No extra keys. No markdown.
" ++ keysLine ++ lit "

MALFORMED OUTPUT:
" ++ raw1.

(** [callJSONStream(params)] *)
Definition callJSONStream (p : json_params) (onToken : value -> completion unit)
  : M parsed_raw :=
  do raw1 <- ollamaChatStream (primary p) onToken None;
  do p1 <- lift (fst (tryParseJSON (VStr raw1)));
  if Val.truthy p1 then ret {| parsed := p1; raw := raw1 |}
  else
    do ' (p2, raw2) <- repair p (repairPromptStream (requiredKeys p) raw1) raw1;
    ret {| parsed := p2; raw := raw2 |}.

(** The number of upstream generation calls made so far. *)
Definition ncalls (w : world) : nat := List.length (calls w).

(** Two worlds that differ at most in the deltas delivered. *)
Definition same_service (w w' : world) : Prop :=
  upstream w' = upstream w /\ calls w' = calls w /\ db_replies w' = db_replies w
  /\ db_log w' = db_log w /\ plan_steps w' = plan_steps w.

(* ================================================================== *)
(** ** generate_plan.ts: prompts and normalisation *)
(* ================================================================== *)

Record Env := {
  DEV_USER_ID : jsstring;
  BUILD_MARKER : jsstring;
  MIN_STEPS : Z;
  MAX_STEPS : Z;
  OLLAMA_URL : jsstring;
  FAST_MODEL : jsstring;
  SMART_MODEL : jsstring;
  REPAIR_MODEL : jsstring
}.

(** The request body; [None] is an absent ([undefined] or [null]) field. *)
Record GeneratePlanBody := {
  body_person_name : option jsstring;
  body_user_id : option jsstring;
  body_company_name : option jsstring;
  body_company_title : option jsstring;
  body_short_description : option jsstring;
  body_long_description : option jsstring
}.

Record OutlineStep := { outline_key : jsstring; outline_title : jsstring }.
Record OutlineResponse := { step_count : Z; steps : list OutlineStep }.

(** What [normalizeStepGen] returns. *)
Record StepGen := {
  gen_step_key : jsstring;
  gen_title : jsstring;
  gen_priority : jsstring;
  gen_details : jsstring;
  gen_success_criteria : jsstring;
  gen_estimated_minutes : Z
}.

(** [x?.trim()], empty when [x] is absent. *)
Definition opt_trim (x : option jsstring) : jsstring :=
  match x with Some s => trim s | None => [] end.

(** [x?.trim() || null] *)
Definition trimmed_or_null (x : option jsstring) : option jsstring :=
  match opt_trim x with [] => None | t => Some t end.

Definition outlinePrompt (company_name company_title short_description : jsstring)
  (long_description : option jsstring) (MIN_STEPS MAX_STEPS : Z) : jsstring :=
  litq "Create an onboarding plan outline.

Return MINIFIED JSON exactly in this shape:
{~step_count~:N,~steps~:[{~step_key~:~step_1~,~title~:~...~}, ...]}

Rules:
- Choose N based on complexity. N must be an integer between "
  ++ decimal MIN_STEPS ++ lit " and " ++ decimal MAX_STEPS ++ litq ".
- step_count MUST equal steps.length.
- step_key must be exactly ~step_1~...~step_N~ (no gaps).
- title: <= 40 characters, action-oriented, non-redundant.
- Output only JSON. One line. No extra keys.

Company: " ++ trim company_name ++ lit "
Title: " ++ trim company_title ++ lit "
Description: " ++ trim short_description ++ lit "
" ++ match opt_trim long_description with
     | [] => []
     | t => lit "Additional context: " ++ t
     end.

Definition stepPrompt (company_name company_title short_description : jsstring)
  (long_description : option jsstring) (step_key title : jsstring)
  (step_count : Z) : jsstring :=
  litq "Return ONLY valid MINIFIED JSON on one line.

You must fill VALUES for details/success_criteria/priority/estimated_minutes only.

DO NOT change step_key or title. Copy them EXACTLY.

JSON TEMPLATE (copy exactly, only replace the ... and NN values):
{~step_key~:~" ++ step_key ++ litq "~,~title~:~" ++ title
  ++ litq "~,~priority~:~medium~,~details~:~...~,~success_criteria~:~...~,~estimated_minutes~:NN}

Rules:
- step_key MUST be exactly ~" ++ step_key ++ litq "~ (no other text).
- title MUST be exactly ~" ++ title ++ litq "~ (no other text).
- details: one sentence, <= 90 chars.
- success_criteria: one sentence, <= 80 chars.
- priority: low|medium|high.
- estimated_minutes: integer 10..90.
- No extra keys. No markdown.

Context:
Company: " ++ trim company_name ++ lit "
Role: " ++ trim company_title ++ lit "
Description: " ++ trim short_description ++ lit "
" ++ match opt_trim long_description with
     | [] => []
     | t => lit "More: " ++ t
     end ++ lit "
Step " ++ step_key ++ lit " of " ++ decimal step_count ++ lit ".".

(** [new Map<string, string>()]: [set] shadows an earlier entry of the
    same key, [get] finds the latest. *)
Definition title_map := list (jsstring * jsstring).

Definition map_set (k v : jsstring) (m : title_map) : title_map := (k, v) :: m.

Fixpoint map_get (k : jsstring) (m : title_map) : option jsstring :=
  match m with
  | [] => None
  | (k', v) :: r => if str_eqb k' k then Some v else map_get k r
  end.

(** [for (const s of stepsRaw) { ... if (k && t) byKey.set(k, t); }] *)
Fixpoint collect_titles (stepsRaw : list value) (byKey : title_map)
  : completion title_map :=
  match stepsRaw with
  | [] => Normal byKey
  | s :: rest =>
      let! k0 := Val.ToString (Val.coalesce (Val.get s (lit "step_key")) (VStr [])) in
      let! t0 := Val.ToString (Val.coalesce (Val.get s (lit "title")) (VStr [])) in
      let k := trim k0 in
      let t := trim t0 in
      collect_titles rest
        (match k, t with
         | _ :: _, _ :: _ => map_set k t byKey
         | _, _ => byKey
         end)
  end.

(** The body of [for (let i = 1; i <= step_count; i++)]. *)
Definition outline_step (byKey : title_map) (i : Z) : OutlineStep :=
  let k := lit "step_" ++ decimal i in
  let t := trim (match map_get k byKey with Some t => t | None => [] end) in
  {| outline_key := k;
     outline_title := match t with [] => lit "Step " ++ decimal i | _ => t end |}.

(** [normalizeOutline(raw, MIN_STEPS, MAX_STEPS)] *)
Definition normalizeOutline (raw : value) (MIN_STEPS MAX_STEPS : Z)
  : completion OutlineResponse :=
  let stepsRaw := Val.array_items (Val.get raw (lit "steps")) in
  let! n := Val.ToNumber
              (Val.coalesce (Val.get raw (lit "step_count"))
                 (VNum (Num.of_Z (Z.of_nat (List.length stepsRaw))))) in
  let step_count := clampInt n MIN_STEPS MAX_STEPS in
  let! byKey := collect_titles stepsRaw [] in
  Normal {| step_count := step_count;
            steps := map (fun i => outline_step byKey (Z.of_nat i))
                       (seq 1 (Z.to_nat step_count)) |}.

(** The degenerate-title pass of the handlers: the title at index [i]
    is replaced when it is empty, a bare step number, or shorter than 6. *)
Definition fix_title (i : Z) (s : OutlineStep) : OutlineStep :=
  let t := trim (outline_title s) in
  if (match t with [] => true | _ => false end)
     || bare_step_title t || (strlen t <? 6)
  then {| outline_key := outline_key s;
          outline_title := lit "Define step " ++ decimal (i + 1) ++ lit " deliverable" |}
  else s.

Fixpoint fix_titles (i : Z) (l : list OutlineStep) : list OutlineStep :=
  match l with
  | [] => []
  | s :: r => fix_title i s :: fix_titles (i + 1) r
  end.

(** [normalizeStepGen(raw, expectedKey, expectedTitle)] *)
Definition normalizeStepGen (raw : value) (expectedKey expectedTitle : jsstring)
  : completion StepGen :=
  let! details := cleanText (Val.coalesce (Val.get raw (lit "details")) (VStr [])) 120 in
  let! success_criteria :=
    cleanText (Val.coalesce (Val.get raw (lit "success_criteria")) (VStr [])) 110 in
  let! n := Val.ToNumber
              (Val.coalesce (Val.get raw (lit "estimated_minutes")) (VNum (Finite 30))) in
  let estimated_minutes := clampInt n 10 90 in
  let! priority := normalizePriority (Val.get raw (lit "priority")) in
  match details, success_criteria with
  | [], _ => Throw (Error (lit "Missing details for " ++ expectedKey))
  | _, [] => Throw (Error (lit "Missing success_criteria for " ++ expectedKey))
  | _, _ =>
      Normal {| gen_step_key := expectedKey; gen_title := expectedTitle;
                gen_priority := priority; gen_details := details;
                gen_success_criteria := success_criteria;
                gen_estimated_minutes := estimated_minutes |}
  end.

(* ================================================================== *)
(** ** The datastore collaborator *)
(* ================================================================== *)

(** Modelled from the spec: the datastore client is not part of the
    repository. It supports insert returning generated identifiers,
    filtered update and filtered delete; every operation may fail, and a
    failure is a value, not an exception. An operation that fails leaves
    the table as it was; a datastore with no answer left fails. *)
Definition db_step (ev : bool -> db_event)
  (apply : list StepRow -> list StepRow) : M db_reply :=
  fun w =>
    let reply := match db_replies w with
                 | r :: _ => r
                 | [] => DbError (lit "no answer")
                 end in
    let ok := match reply with DbData _ => true | DbError _ => false end in
    (Normal reply,
     {| upstream := upstream w; calls := calls w; delivered := delivered w;
        db_replies := tl (db_replies w);
        db_log := db_log w ++ [ev ok];
        plan_steps := if ok then apply (plan_steps w) else plan_steps w |}).

(** [supabase.from(plans).insert(row).select(id).single()] *)
Definition insert_plan (row : PlanRow) : M db_reply :=
  db_step (InsertPlan row) (fun t => t).

(** [supabase.from(plan_steps).insert(rows)] *)
Definition insert_steps (rows : list StepRow) : M db_reply :=
  db_step (InsertSteps rows) (fun t => t ++ rows).

Definition same_step (plan key : jsstring) (r : StepRow) : bool :=
  str_eqb (plan_id r) plan && str_eqb (step_key r) key.

(** [supabase.from(plan_steps).update({details, success_criteria,
    priority, estimated_minutes}).eq(plan_id).eq(step_key)] *)
Definition update_step (row : StepRow) : M db_reply :=
  db_step (UpdateStep (plan_id row) (step_key row))
    (map (fun r =>
            if same_step (plan_id row) (step_key row) r
            then {| plan_id := plan_id r; step_key := step_key r;
                    order_index := order_index r; title := title r;
                    details := details row;
                    success_criteria := success_criteria row;
                    priority := priority row;
                    estimated_minutes := estimated_minutes row;
                    status := status r |}
            else r)).

(** [supabase.from(plan_steps).delete().eq(plan_id)] *)
Definition delete_steps (plan : jsstring) : M db_reply :=
  db_step (DeleteSteps plan)
    (filter (fun r => negb (str_eqb (plan_id r) plan))).

Definition db_failed (r : db_reply) : bool :=
  match r with DbData _ => false | DbError _ => true end.

(* ================================================================== *)
(** ** generate_plan.ts: the non-stream handler *)
(* ================================================================== *)

Inductive response_body :=
| ErrorBody (error : jsstring) (detail : option jsstring)
| PlanBody (mode plan model_used : jsstring) (count : Z) (rows : list StepRow).

Record http_response := {
  http_status : Z;
  http_body : response_body;
  http_build_marker : jsstring
}.

(** One placeholder per outline entry, [idx] being the index of the
    first. *)
Fixpoint placeholder_rows (plan : jsstring) (idx : Z) (l : list OutlineStep)
  : list StepRow :=
  match l with
  | [] => []
  | s :: r =>
      {| plan_id := plan; step_key := outline_key s; order_index := idx + 1;
         title := outline_title s; details := []; success_criteria := [];
         priority := lit "medium"; estimated_minutes := 30;
         status := lit "not_started" |} :: placeholder_rows plan (idx + 1) r
  end.

Definition step_call (env : Env) (company_name company_title short_description : jsstring)
  (long_description : option jsstring) (s : OutlineStep) (count : Z) : json_params :=
  {| primary :=
       {| ollamaUrl := OLLAMA_URL env; chat_model := FAST_MODEL env;
          prompt := stepPrompt company_name company_title short_description
                      long_description (outline_key s) (outline_title s) count;
          num_predict := 260; timeoutMs := 35000 |};
     repairModel := REPAIR_MODEL env; repairNumPredict := 260;
     repairTimeoutMs := 20000; requiredKeys := None |}.

(** The loop [for (let i = 0; i < outline.steps.length; i++)] from index
    [i] on, [l] being the outline entries left: the final
    [insertedPlaceholders] and [generated]. *)
Fixpoint generate_steps (call : OutlineStep -> json_params) (plan : jsstring)
  (i : Z) (l : list OutlineStep) (insertedPlaceholders : bool)
  (generated : list StepRow) : M (bool * list StepRow) :=
  match l with
  | [] => ret (insertedPlaceholders, generated)
  | s :: rest =>
      do raw <- callJSON (call s);
      do stepGen <- lift (normalizeStepGen raw (outline_key s) (outline_title s));
      let row :=
        {| plan_id := plan; step_key := gen_step_key stepGen;
           order_index := i + 1; title := gen_title stepGen;
           details := gen_details stepGen;
           success_criteria := gen_success_criteria stepGen;
           priority := gen_priority stepGen;
           estimated_minutes := gen_estimated_minutes stepGen;
           status := lit "not_started" |} in
      let generated := generated ++ [row] in
      if insertedPlaceholders then
        do upErr <- update_step row;
        generate_steps call plan (i + 1) rest (negb (db_failed upErr)) generated
      else generate_steps call plan (i + 1) rest false generated
  end.

(** [if (!insertedPlaceholders) { delete; bulk insert }], and the final
    response. The result of the delete is not looked at. *)
Definition finalize (env : Env) (plan : jsstring) (count : Z)
  (insertedPlaceholders : bool) (generated : list StepRow) : M http_response :=
  let success :=
    {| http_status := 200;
       http_body := PlanBody (lit "generate_plan") plan (FAST_MODEL env) count generated;
       http_build_marker := BUILD_MARKER env |} in
  if negb insertedPlaceholders then
    do _ <- delete_steps plan;
    do insErr <- insert_steps generated;
    match insErr with
    | DbError detail =>
        ret {| http_status := 500;
               http_body := ErrorBody (lit "Failed to insert generated steps") (Some detail);
               http_build_marker := BUILD_MARKER env |}
    | DbData _ => ret success
    end
  else ret success.

(** A field of the body that is a truthy string after [?.trim()]. *)
Definition present (x : option jsstring) : bool :=
  match opt_trim x with [] => false | _ => true end.

Definition field (x : option jsstring) : jsstring :=
  match x with Some s => s | None => [] end.

(** [handleGeneratePlan(ctx, body)] *)
Definition handleGeneratePlan (env : Env) (body : GeneratePlanBody) : M http_response :=
  let user := match opt_trim (body_user_id body) with
              | [] => DEV_USER_ID env
              | u => u
              end in
  if negb (present (body_company_name body))
     || negb (present (body_company_title body))
     || negb (present (body_short_description body))
  then
    ret {| http_status := 400;
           http_body := ErrorBody
                          (lit "company_name, company_title, and short_description are required")
                          None;
           http_build_marker := BUILD_MARKER env |}
  else
    let company_name := field (body_company_name body) in
    let company_title := field (body_company_title body) in
    let short_description := field (body_short_description body) in
    let long_description := body_long_description body in
    do planRes <- insert_plan
                    {| user_id := user;
                       person_name := trimmed_or_null (body_person_name body);
                       company_name := trim company_name;
                       company_title := trim company_title;
                       short_description := trim short_description;
                       long_description := trimmed_or_null long_description;
                       model := FAST_MODEL env |};
    match planRes with
    | DbError detail =>
        ret {| http_status := 500;
               http_body := ErrorBody (lit "Failed to insert plan") (Some detail);
               http_build_marker := BUILD_MARKER env |}
    | DbData plan =>
        do outlineRaw <- callJSON
            {| primary :=
                 {| ollamaUrl := OLLAMA_URL env; chat_model := FAST_MODEL env;
                    prompt := outlinePrompt company_name company_title
                                short_description long_description
                                (MIN_STEPS env) (MAX_STEPS env);
                    num_predict := 260; timeoutMs := 35000 |};
               repairModel := REPAIR_MODEL env; repairNumPredict := 260;
               repairTimeoutMs := 20000; requiredKeys := None |};
        do outline0 <- lift (normalizeOutline outlineRaw (MIN_STEPS env) (MAX_STEPS env));
        let outline := {| step_count := step_count outline0;
                          steps := fix_titles 0 (steps outline0) |} in
        let placeholders := placeholder_rows plan 0 (steps outline) in
        do phErr <- insert_steps placeholders;
        do ' (insertedPlaceholders, generated) <-
          generate_steps
            (fun s => step_call env company_name company_title short_description
                        long_description s (step_count outline))
            plan 0 (steps outline) (negb (db_failed phErr)) [];
        finalize env plan (step_count outline) insertedPlaceholders generated
    end.

(* ================================================================== *)
(** ** Concrete payloads, answers and worlds used in the examples *)
(* ================================================================== *)

(** A payload that echoes a foreign step_key and title, and one that
    echoes none, with what [normalizeStepGen] makes of them for the step
    [step_2], titled [Meet the team]. *)
Definition echo_payload : value :=
  VObj [(lit "step_key", VStr (lit "step_9")); (lit "title", VStr (lit "Hijacked"));
        (lit "details", VStr (lit "Read the handbook"));
        (lit "success_criteria", VStr (lit "Quiz passed"));
        (lit "priority", VStr (lit "HIGH")); (lit "estimated_minutes", VNum (Finite 45))].

Definition echo_step : StepGen :=
  {| gen_step_key := lit "step_2"; gen_title := lit "Meet the team";
     gen_priority := lit "high"; gen_details := lit "Read the handbook.";
     gen_success_criteria := lit "Quiz passed."; gen_estimated_minutes := 45 |}.

Definition plain_payload : value :=
  VObj [(lit "details", VStr (lit "Shadow a colleague"));
        (lit "success_criteria", VStr (lit "Two tickets closed"))].

Definition plain_step : StepGen :=
  {| gen_step_key := lit "step_2"; gen_title := lit "Meet the team";
     gen_priority := lit "medium"; gen_details := lit "Shadow a colleague.";
     gen_success_criteria := lit "Two tickets closed."; gen_estimated_minutes := 30 |}.

(** A step payload whose estimated_minutes overflows binary64, and one
    where it is a word. *)
Definition overflow_text : jsstring :=
  litq "{~details~:~Read the handbook~,~success_criteria~:~Quiz passed~,~estimated_minutes~:1e999}".

Definition overflow_payload : value :=
  VObj [(lit "details", VStr (lit "Read the handbook"));
        (lit "success_criteria", VStr (lit "Quiz passed"));
        (lit "estimated_minutes", VNum (Infinity false))].

Definition wordy_payload : value :=
  VObj [(lit "details", VStr (lit "Read the handbook"));
        (lit "success_criteria", VStr (lit "Quiz passed"));
        (lit "estimated_minutes", VStr (lit "soon"))].

Definition floor_step : StepGen :=
  {| gen_step_key := lit "step_2"; gen_title := lit "Meet the team";
     gen_priority := lit "medium"; gen_details := lit "Read the handbook.";
     gen_success_criteria := lit "Quiz passed."; gen_estimated_minutes := 10 |}.

(** What the normalised content [g] of a step owes to the payload [raw]:
    the minutes are within 10..90, 30 when the field is absent, the lower
    bound 10 when the field converts to a number that is not finite, and
    the clamped integer part otherwise; the priority is one of the three
    words, the lower-cased and trimmed field when that is one of them and
    medium when it is not. *)
Definition step_content_ok (raw : value) (g : StepGen) : Prop :=
  let minutes := Val.get raw (lit "estimated_minutes") in
  10 <= gen_estimated_minutes g <= 90
  /\ (Val.nullish minutes = true -> gen_estimated_minutes g = 30)
  /\ (forall n, Val.nullish minutes = false -> Val.ToNumber minutes = Normal n ->
       Num.isFinite n = false -> gen_estimated_minutes g = 10)
  /\ (forall q, Val.nullish minutes = false -> Val.ToNumber minutes = Normal (Finite q) ->
       gen_estimated_minutes g = Z.min 90 (Z.max 10 (Num.trunc q)))
  /\ is_priority (gen_priority g) = true
  /\ (forall s, Val.ToString (Val.coalesce (Val.get raw (lit "priority")) (VStr [])) = Normal s ->
       gen_priority g = if is_priority (trim (toLowerCase s)) then trim (toLowerCase s)
                        else lit "medium").

(** Texts for the extractor: an object cut short that ends in a closing
    bracket, and an object cut short that ends in neither closer. *)
Definition mismatched_text : jsstring := litq "{~a~:[1]".
Definition truncated_text : jsstring := litq "{~a~:[1,2".

(** A successful blocking answer whose message content is [content], and
    a successful streamed answer made of [chunks]. *)
Definition chat_answer (content : jsstring) : response :=
  {| res_ok := true; res_status := 200; res_text := Normal [];
     res_json := Normal (VObj [(lit "message", VObj [(lit "content", VStr content)])]);
     res_body := None |}.

Definition stream_answer (chunks : list jsstring) : response :=
  {| res_ok := true; res_status := 200; res_text := Normal [];
     res_json := Throw SyntaxError; res_body := Some (chunks, None) |}.

(** A fresh world: the service will give [answers], the datastore
    [replies]. *)
Definition world_of (answers : list response) (replies : list db_reply) : world :=
  {| upstream := map FetchResponds answers; calls := []; delivered := [];
     db_replies := replies; db_log := []; plan_steps := [] |}.

Definition demo_params : json_params :=
  {| primary := {| ollamaUrl := lit "http://ollama/api/chat"; chat_model := lit "phi3:mini";
                   prompt := lit "Describe the step."; num_predict := 260;
                   timeoutMs := 35000 |};
     repairModel := lit "phi3:mini"; repairNumPredict := 260; repairTimeoutMs := 20000;
     requiredKeys := None |}.

Definition quiet (delta : value) : completion unit := Normal tt.

(** Prose first, a JSON object on repair. *)
Definition prose_text : jsstring := lit "Sorry, I cannot answer in JSON".
Definition object_text : jsstring := litq "{~a~:1}".
Definition object_value : value := VObj [(lit "a", VNum (Finite 1))].
Definition repaired_world : world :=
  world_of [chat_answer prose_text; chat_answer object_text] [].

(** The valid JSON documents whose value is falsy. *)
Definition falsy_documents : list jsstring :=
  [lit "null"; lit "0"; lit "false"; litq "~~"].

Definition null_world : world :=
  world_of [chat_answer (lit "null"); chat_answer object_text] [].

(** A streamed answer in which a record follows the one that carries
    done, in the next chunk; and the same answer ending after the first
    chunk. *)
Definition done_line : jsstring :=
  litq "{~message~:{~content~:~a~},~done~:true}" ++ [10].
Definition late_line : jsstring :=
  litq "{~message~:{~content~:~LATE~},~done~:false}" ++ [10].
Definition late_world : world := world_of [stream_answer [done_line; late_line]] [].
Definition late_same_chunk_world : world :=
  world_of [stream_answer [done_line ++ late_line]] [].

(** The keys [step_1 .. step_n]. *)
Definition step_keys (n : nat) : list jsstring :=
  map (fun i => lit "step_" ++ decimal (Z.of_nat i)) (seq 1 n).

(** An entry of the generator's step list, and an outline that reports
    five steps and lists three. *)
Definition titled (k t : jsstring) : value :=
  VObj [(lit "step_key", VStr k); (lit "title", VStr t)].

Definition short_outline (t1 t2 t3 : jsstring) : value :=
  VObj [(lit "step_count", VNum (Finite 5));
        (lit "steps", VArr [titled (lit "step_1") t1; titled (lit "step_2") t2;
                            titled (lit "step_3") t3])].

Definition demo_outline : value :=
  short_outline (lit "Meet the team") (lit "Read the handbook") (lit "Shadow a colleague").

Definition negative_outline : value := VObj [(lit "step_count", VNum (Finite (-1)))].

(** What one entry of the generator's list adds to the map of titles. *)
Definition add_title (k t : jsstring) (m : title_map) : title_map :=
  match trim k, trim t with
  | _ :: _, _ :: _ => map_set (trim k) (trim t) m
  | _, _ => m
  end.

(** What every outline that [normalizeOutline] returns satisfies, before
    and after the degenerate-title pass. *)
Definition outline_ok (lo hi : Z) (o : OutlineResponse) : Prop :=
  lo <= step_count o <= hi
  /\ Z.of_nat (List.length (steps o)) = step_count o
  /\ map outline_key (steps o) = step_keys (List.length (steps o))
  /\ NoDup (map outline_key (steps o))
  /\ map outline_key (fix_titles 0 (steps o)) = map outline_key (steps o).

(** An update of the plan [plan] that succeeded. *)
Definition ok_update (plan : jsstring) (e : db_event) : Prop :=
  exists k, e = UpdateStep plan k true.

(** The datastore operations of the step loop, given the flag
    insertedPlaceholders before ([before]) and after ([after]) it: none
    when incremental persistence was off from the start; otherwise
    successful updates, ended by one failed update when the flag went
    off. *)
Definition update_trace (plan : jsstring) (before after : bool)
  (evs : list db_event) : Prop :=
  (before = false /\ after = false /\ evs = [])
  \/ (before = true /\ after = true /\ Forall (ok_update plan) evs)
  \/ (before = true /\ after = false
      /\ exists oks k, evs = oks ++ [UpdateStep plan k false] /\ Forall (ok_update plan) oks).

(** The rows of one plan. *)
Definition rows_of (plan : jsstring) (table : list StepRow) : list StepRow :=
  filter (fun r => str_eqb (plan_id r) plan) table.

Definition demo_env : Env :=
  {| DEV_USER_ID := lit "00000000-0000-0000-0000-000000000000";
     BUILD_MARKER := lit "ai-generate-plan stepwise-dynamicN 2025-12-23-03";
     MIN_STEPS := 3; MAX_STEPS := 10;
     OLLAMA_URL := lit "http://host.docker.internal:11434/api/chat";
     FAST_MODEL := lit "phi3:mini"; SMART_MODEL := lit "llama3.1:8b";
     REPAIR_MODEL := lit "phi3:mini" |}.

Definition demo_body : GeneratePlanBody :=
  {| body_person_name := None; body_user_id := None;
     body_company_name := Some (lit "Acme");
     body_company_title := Some (lit "Support Lead");
     body_short_description := Some (lit "Handles tickets");
     body_long_description := None |}.

Definition outline3_text : jsstring :=
  litq "{~step_count~:3,~steps~:[{~step_key~:~step_1~,~title~:~Meet the team~},{~step_key~:~step_2~,~title~:~Read the handbook~},{~step_key~:~step_3~,~title~:~Shadow a colleague~}]}".

Definition step_text : jsstring :=
  litq "{~details~:~Do the work~,~success_criteria~:~Work is done~,~priority~:~high~,~estimated_minutes~:45}".

(** The first update fails; the delete fails too and the bulk insert is
    accepted. *)
Definition failed_delete_world : world :=
  world_of [chat_answer outline3_text; chat_answer step_text; chat_answer step_text;
            chat_answer step_text]
    [DbData (lit "plan-1"); DbData []; DbError (lit "update failed");
     DbError (lit "delete failed"); DbData []].

(** The first update fails; then the second step cannot be generated. *)
Definition failed_generation_world : world :=
  world_of [chat_answer outline3_text; chat_answer step_text; chat_answer prose_text;
            chat_answer prose_text]
    [DbData (lit "plan-1"); DbData []; DbError (lit "update failed")].

(** The second update fails; the delete and the bulk insert succeed. *)
Definition fallback_world : world :=
  world_of [chat_answer outline3_text; chat_answer step_text; chat_answer step_text;
            chat_answer step_text]
    [DbData (lit "plan-1"); DbData []; DbData []; DbError (lit "update failed");
     DbData []; DbData []].

Definition generated_row (i : Z) (t : jsstring) : StepRow :=
  {| plan_id := lit "plan-1"; step_key := lit "step_" ++ decimal i; order_index := i;
     title := t; details := lit "Do the work."; success_criteria := lit "Work is done.";
     priority := lit "high"; estimated_minutes := 45; status := lit "not_started" |}.

Definition generated_rows : list StepRow :=
  [generated_row 1 (lit "Meet the team"); generated_row 2 (lit "Read the handbook");
   generated_row 3 (lit "Shadow a colleague")].

Definition fallback_response : http_response :=
  {| http_status := 200;
     http_body := PlanBody (lit "generate_plan") (lit "plan-1") (FAST_MODEL demo_env) 3
                    generated_rows;
     http_build_marker := BUILD_MARKER demo_env |}.

(** *** The form of a cleaned text *)

(** Every white-space code unit of [s] is a space that no white space
    precedes; [prev] tells whether white space precedes [s]. *)
Fixpoint spaced (prev : bool) (s : jsstring) : bool :=
  match s with
  | [] => true
  | c :: r =>
      if is_ws c then (c =? 32) && negb prev && spaced true r
      else spaced false r
  end.

Definition is_curly (c : char) : bool :=
  (c =? 8220) || (c =? 8221) || (c =? 8216) || (c =? 8217).

Definition no_curly (s : jsstring) : bool := forallb (fun c => negb (is_curly c)) s.

(** A text that the two normalisations of [clean] leave as it is: single
    spaces only, no curly quote, no white space at either end. *)
Definition tidy_form (s : jsstring) : Prop :=
  spaced false s = true /\ no_curly s = true /\ trimStart s = s /\ trimEnd s = s.

(** The invariants of the output of [clean]: at most [maxLen] code units
    and one trailing punctuation mark, and terminal punctuation at the end
    of a text that is not empty. *)
Definition clean_invariant (s : jsstring) (maxLen : Z) : Prop :=
  strlen s <= maxLen + 1 /\ (s = [] \/ ends_terminal s = true).

(** The text [clean] has before it truncates. *)
Definition normalised (s : jsstring) : jsstring := retidy (strip_garbage (tidy s)).

(** Texts for the sanitizer: one in which the removal of a garbage
    fragment brings a quote next to another fragment, and one that is
    hard-cut at [maxLen] = 11 and closed by a period. *)
Definition cascade_text : jsstring := lit "''ty ty.".
Definition hard_cut_text : jsstring := lit "ab cdefghij.".

(** *** Further texts and predicates of the sanitizer and the extractor *)

(** Texts for the sanitizer: one that is cut at the last space before the
    bound 30, and one with curly quotes and runs of white space. *)
Definition wide_text : jsstring :=
  lit "  Ask the   team lead for a walkthrough of the codebase ".

Definition curly_text : jsstring :=
  [32; 83; 104; 101; 32; 32; 115; 97; 105; 100; 9; 8220; 103; 111; 8221; 32; 97; 110;
   100; 10; 105; 116; 8217; 115; 32; 100; 111; 110; 101; 32].

(** A field that is absent, [null], or a string of white space only. *)
Definition blank (v : value) : bool :=
  match v with
  | VUndefined | VNull => true
  | VStr s => forallb is_ws s
  | _ => false
  end.

(** A step payload whose details are white space. *)
Definition blank_details_payload : value :=
  VObj [(lit "details", VStr [32; 10; 9]);
        (lit "success_criteria", VStr (lit "Quiz passed"))].

(** [occurs p s]: the text [p] occurs in [s] (at some position). *)
Fixpoint occurs (p s : jsstring) : bool :=
  startsWith s p
  || match s with
     | [] => false
     | _ :: r => occurs p r
     end.

(** A JSON text inside a fenced block, as a chat model often answers:
    the opening fence with its language tag, white space [w1], the text,
    white space [w2], the closing fence. *)
Definition fenced (w1 t w2 : jsstring) : jsstring :=
  lit "```json" ++ w1 ++ t ++ w2 ++ lit "```".

Definition no_backtick (s : jsstring) : bool := forallb (fun c => negb (c =? 96)) s.

(** *** Further answers and worlds of the generation client *)

(** The text a delta adds to the accumulated answer ([full += delta]). *)
Definition delta_text (delta : value) : jsstring :=
  match Val.ToString delta with
  | Normal d => d
  | Throw _ => []
  end.

(** A streamed answer of three records, the last one cut off before its
    newline; and a streamed answer that holds a whole record and no
    newline. *)
Definition hello_chunks : list jsstring :=
  [litq "{~message~:{~content~:~Hel~}}" ++ [10] ++ litq "{~message~:{~con";
   litq "tent~:~lo~}}" ++ [10] ++ litq "{~message~:{~content~:~!~},~done~:true}"].

Definition hello_world : world := world_of [stream_answer hello_chunks] [].

Definition unterminated_chunks : list jsstring :=
  [litq "{~message~:{~content~:"; litq "~Hello~},~done~:true}"].

Definition unterminated_world : world := world_of [stream_answer unterminated_chunks] [].

(** An answer with a failure status, and worlds in which the service
    fails first, or answers prose twice. *)
Definition overloaded_answer : response :=
  {| res_ok := false; res_status := 503; res_text := Normal (lit "overloaded");
     res_json := Throw SyntaxError; res_body := None |}.

Definition overloaded_world : world :=
  world_of [overloaded_answer; chat_answer object_text] [].

Definition prose_twice_world : world :=
  world_of [chat_answer prose_text; chat_answer prose_text] [].

(** *** Further definitions for the outline and the plan handler *)

(** The test of the degenerate-title pass: the trimmed title is empty, a
    bare step number, or shorter than 6 code units. *)
Definition degenerate_title (title : jsstring) : bool :=
  let t := trim title in
  (match t with [] => true | _ => false end) || bare_step_title t || (strlen t <? 6).

(** The title the pass gives the entry at index [i]. *)
Definition generic_title (i : Z) : jsstring :=
  lit "Define step " ++ decimal (i + 1) ++ lit " deliverable".

(** The trimmed key and title of an entry of the generator's step list,
    as the loop of [normalizeOutline] reads them. *)
Definition entry_key (s : value) : jsstring :=
  trim (delta_text (Val.coalesce (Val.get s (lit "step_key")) (VStr []))).

Definition entry_title (s : value) : jsstring :=
  trim (delta_text (Val.coalesce (Val.get s (lit "title")) (VStr []))).

(** The entry that decides the title of the key [k]: the last one listed
    under that key with a title that is not blank. *)
Definition deciding_entry (stepsRaw : list value) (k : jsstring) : option value :=
  find (fun s => str_eqb (entry_key s) k
                 && match entry_title s with [] => false | _ => true end)
       (rev stepsRaw).

Definition listed_title (stepsRaw : list value) (i : Z) : jsstring :=
  match deciding_entry stepsRaw (lit "step_" ++ decimal i) with
  | Some s => entry_title s
  | None => lit "Step " ++ decimal i
  end.

(** An outline that lists step_2 twice, step_1 with a blank title, and a
    key outside the range, and reports no step_count. *)
Definition repeated_outline : value :=
  VObj [(lit "steps",
         VArr [titled (lit "step_2") (lit "First draft"); titled (lit " step_1 ") (lit "  ");
               titled (lit "step_2") (lit " Final title "); titled (lit "step_9") (lit "Stray");
               titled (lit "step_3") (lit "Third")])].

Definition repeated_normalized : OutlineResponse :=
  {| step_count := 5;
     steps := [ {| outline_key := lit "step_1"; outline_title := lit "Step 1" |};
                {| outline_key := lit "step_2"; outline_title := lit "Final title" |};
                {| outline_key := lit "step_3"; outline_title := lit "Third" |};
                {| outline_key := lit "step_4"; outline_title := lit "Step 4" |};
                {| outline_key := lit "step_5"; outline_title := lit "Step 5" |} ] |}.

(** What a generated row owes to the outline entry [s] it was generated
    for, at the 1-based position [i], in the plan [plan]: identity and
    position from the orchestrator, normalised content from the
    generator. *)
Definition generated_from (plan : jsstring) (i : Z) (s : OutlineStep) (r : StepRow) : Prop :=
  plan_id r = plan /\ step_key r = outline_key s /\ order_index r = i
  /\ title r = outline_title s /\ status r = lit "not_started"
  /\ 10 <= estimated_minutes r <= 90 /\ is_priority (priority r) = true
  /\ (0 < strlen (details r) <= 121 /\ ends_terminal (details r) = true)
  /\ (0 < strlen (success_criteria r) <= 111 /\ ends_terminal (success_criteria r) = true).

(** [rows] are generated, one for one and in order, for the outline
    entries [l] at the positions after [i]. *)
Fixpoint rows_from (plan : jsstring) (i : Z) (l : list OutlineStep) (rows : list StepRow)
  : Prop :=
  match l, rows with
  | [], [] => True
  | s :: l', r :: rows' => generated_from plan (i + 1) s r /\ rows_from plan (i + 1) l' rows'
  | _, _ => False
  end.

(** What every step of a successful response satisfies. *)
Definition step_row_ok (plan : jsstring) (r : StepRow) : Prop :=
  plan_id r = plan /\ status r = lit "not_started"
  /\ degenerate_title (title r) = false
  /\ 10 <= estimated_minutes r <= 90 /\ is_priority (priority r) = true
  /\ (0 < strlen (details r) <= 121 /\ ends_terminal (details r) = true)
  /\ (0 < strlen (success_criteria r) <= 111 /\ ends_terminal (success_criteria r) = true).

(** The request for the outline, and the row of [plans], that
    [handleGeneratePlan] builds from the body. *)
Definition outline_call (env : Env) (body : GeneratePlanBody) : json_params :=
  {| primary :=
       {| ollamaUrl := OLLAMA_URL env; chat_model := FAST_MODEL env;
          prompt := outlinePrompt (field (body_company_name body))
                      (field (body_company_title body))
                      (field (body_short_description body))
                      (body_long_description body) (MIN_STEPS env) (MAX_STEPS env);
          num_predict := 260; timeoutMs := 35000 |};
     repairModel := REPAIR_MODEL env; repairNumPredict := 260;
     repairTimeoutMs := 20000; requiredKeys := None |}.

Definition plan_row (env : Env) (body : GeneratePlanBody) : PlanRow :=
  {| user_id := match opt_trim (body_user_id body) with
                | [] => DEV_USER_ID env
                | u => u
                end;
     person_name := trimmed_or_null (body_person_name body);
     company_name := trim (field (body_company_name body));
     company_title := trim (field (body_company_title body));
     short_description := trim (field (body_short_description body));
     long_description := trimmed_or_null (body_long_description body);
     model := FAST_MODEL env |}.

(** The body is valid: the three required fields are present and not
    blank. *)
Definition valid_body (body : GeneratePlanBody) : bool :=
  present (body_company_name body) && present (body_company_title body)
  && present (body_short_description body).

Definition bad_request (env : Env) : http_response :=
  {| http_status := 400;
     http_body := ErrorBody
                    (lit "company_name, company_title, and short_description are required")
                    None;
     http_build_marker := BUILD_MARKER env |}.

Definition plan_insert_failed (env : Env) (detail : jsstring) : http_response :=
  {| http_status := 500;
     http_body := ErrorBody (lit "Failed to insert plan") (Some detail);
     http_build_marker := BUILD_MARKER env |}.


Definition refused_plan_world : world :=
  world_of [chat_answer outline3_text] [DbError (lit "plans is read-only")].

Definition smooth_world : world :=
  world_of [chat_answer outline3_text; chat_answer step_text; chat_answer step_text;
            chat_answer step_text]
    [DbData (lit "plan-1"); DbData []; DbData []; DbData []; DbData []].

Definition refused_placeholders_world : world :=
  world_of [chat_answer outline3_text; chat_answer step_text; chat_answer step_text;
            chat_answer step_text]
    [DbData (lit "plan-1"); DbError (lit "insert refused"); DbError (lit "delete refused");
     DbData []].

(** The outcome recorded with a datastore operation. *)
Definition event_ok (e : db_event) : bool :=
  match e with
  | InsertPlan _ ok | InsertSteps _ ok | UpdateStep _ _ ok | DeleteSteps _ ok => ok
  end.

(** The update of the row [r], accepted. *)
Definition accepted_update (r : StepRow) : db_event :=
  UpdateStep (plan_id r) (step_key r) true.

(** The placeholders of the three-step demonstration outline. *)
Definition demo_placeholders : list StepRow :=
  placeholder_rows (lit "plan-1") 0
    [ {| outline_key := lit "step_1"; outline_title := lit "Meet the team" |};
      {| outline_key := lit "step_2"; outline_title := lit "Read the handbook" |};
      {| outline_key := lit "step_3"; outline_title := lit "Shadow a colleague" |} ].

(* ================================================================== *)
(** ** JSON.stringify and the server-sent events of shared.ts *)
(* ================================================================== *)

(** The lower-case hexadecimal digit of [n] (0 .. 15). *)
Definition hex_char (n : Z) : char := if n <? 10 then 48 + n else 87 + n.

(** [UnicodeEscape(c)]: a backslash, [u], and the four hexadecimal
    digits of the code unit. *)
Definition unicode_escape (c : char) : jsstring :=
  [92; 117; hex_char ((c / 4096) mod 16); hex_char ((c / 256) mod 16);
   hex_char ((c / 16) mod 16); hex_char (c mod 16)].

Definition is_lead (c : char) : bool := (55296 <=? c) && (c <=? 56319).
Definition is_trail (c : char) : bool := (56320 <=? c) && (c <=? 57343).

(** What [QuoteJSONString] writes for one code unit that is not part of
    a surrogate pair. *)
Definition quote_unit (c : char) : jsstring :=
  if c =? 8 then [92; 98]
  else if c =? 9 then [92; 116]
  else if c =? 10 then [92; 110]
  else if c =? 12 then [92; 102]
  else if c =? 13 then [92; 114]
  else if c =? 34 then [92; 34]
  else if c =? 92 then [92; 92]
  else if (c <? 32) || is_lead c || is_trail c then unicode_escape c
  else [c].

(** The text between the quotes: code point by code point, a surrogate
    pair being one code point written as it is, a lone surrogate being
    escaped. *)
Fixpoint quote_body (s : jsstring) : jsstring :=
  match s with
  | [] => []
  | c :: r =>
      if is_lead c then
        match r with
        | d :: r' => if is_trail d then c :: d :: quote_body r'
                     else quote_unit c ++ quote_body r
        | [] => quote_unit c
        end
      else quote_unit c ++ quote_body r
  end.

(** [QuoteJSONString(s)] *)
Definition QuoteJSONString (s : jsstring) : jsstring := 34 :: quote_body s ++ [34].

(** The number a property key denotes when it is an array index: a
    canonical numeric string below 2^32 - 1. *)
Definition array_index (k : jsstring) : option Z :=
  match k with
  | [] => None
  | d :: ds =>
      if forallb is_digit k && ((negb (d =? 48)) || match ds with [] => true | _ => false end)
         && (List.length k <=? 10)%nat && (Num.dec_value k <? 4294967295)
      then Some (Num.dec_value k)
      else None
  end.

(** The order in which the own properties of an object are enumerated:
    array indices in ascending order, then the other keys in creation
    order. *)
Fixpoint insert_index {A} (i : Z) (x : A) (l : list (Z * A)) : list (Z * A) :=
  match l with
  | [] => [(i, x)]
  | (j, y) :: r => if i <? j then (i, x) :: l else (j, y) :: insert_index i x r
  end.

Definition own_property_order {A} (ps : list (jsstring * A)) : list (jsstring * A) :=
  let indexed :=
    fold_left (fun acc kv => match array_index (fst kv) with
                             | Some i => insert_index i kv acc
                             | None => acc
                             end) ps [] in
  map snd indexed
  ++ filter (fun kv => match array_index (fst kv) with Some _ => false | None => true end) ps.

(** [parts.join(sep)] *)
Fixpoint join_with (sep : char) (parts : list jsstring) : jsstring :=
  match parts with
  | [] => []
  | [p] => p
  | p :: r => p ++ sep :: join_with sep r
  end.

(** The members of an object: a property whose value has no JSON text
    ([undefined]) is left out. *)
Definition member_texts (ps : list (jsstring * option jsstring)) : list jsstring :=
  flat_map (fun kv => match snd kv with
                      | Some j => [QuoteJSONString (fst kv) ++ 58 :: j]
                      | None => []
                      end) ps.

(** [JSON.stringify(v)] without replacer or indentation; [None] is the
    result [undefined]. A number that is not finite is written null, and
    so is an [undefined] element of an array. *)
Fixpoint stringify (v : value) : option jsstring :=
  match v with
  | VUndefined => None
  | VNull => Some (lit "null")
  | VBool true => Some (lit "true")
  | VBool false => Some (lit "false")
  | VNum (Finite q) => Some (Num.toString (Finite q))
  | VNum _ => Some (lit "null")
  | VStr s => Some (QuoteJSONString s)
  | VArr xs =>
      Some (91 :: join_with 44
                   ((fix items (l : list value) : list jsstring :=
                       match l with
                       | [] => []
                       | x :: r => match stringify x with
                                   | Some j => j
                                   | None => lit "null"
                                   end :: items r
                       end) xs)
            ++ [93])
  | VObj ps =>
      Some (123 :: join_with 44
                    (member_texts
                       (own_property_order
                          ((fix props (l : list (jsstring * value))
                              : list (jsstring * option jsstring) :=
                              match l with
                              | [] => []
                              | (k, x) :: r => (k, stringify x) :: props r
                              end) ps)))
            ++ [125])
  end.

(** The text a template literal prints for [JSON.stringify(v)]. *)
Definition stringify_text (v : value) : jsstring :=
  match stringify v with
  | Some j => j
  | None => lit "undefined"
  end.

(** [sseHeaders()] *)
Definition sseHeaders : list (jsstring * jsstring) :=
  [(lit "Content-Type", lit "text/event-stream; charset=utf-8");
   (lit "Cache-Control", lit "no-cache, no-transform");
   (lit "Connection", lit "keep-alive")].

(** [sseEvent(event, data)] *)
Definition sseEvent (event : jsstring) (data : value) : jsstring :=
  lit "event: " ++ event ++ [10] ++ lit "data: " ++ stringify_text data ++ [10; 10].

(** Every code unit of [s] is one: within 0 .. 65535. *)
Definition code_units (s : jsstring) : bool :=
  forallb (fun c => (0 <=? c) && (c <? 65536)) s.

(** No code unit of [s] is a control character (below U+0020). *)
Definition no_control (s : jsstring) : bool := forallb (fun c => 32 <=? c) s.

(** A payload with line breaks, quotes and a lone surrogate in its
    strings, an index key out of order, and a number that is not finite. *)
Definition awkward_payload : value :=
  VObj [(lit "delta", VStr [72; 105; 10; 13; 34; 92; 9; 55357; 33]);
        (lit "7", VArr [VUndefined; VNum NaN; VBool true]);
        (lit "gone", VUndefined);
        (lit "2", VNum (Finite (5 # 2)))].

Definition awkward_text : jsstring :=
  litq "{~2~:2.5,~7~:[null,null,true],~delta~:~Hi\n\r\~\\\t\ud83d!~}".

(* ================================================================== *)
(** ** generate_plan.ts: the stream handler *)
(* ================================================================== *)

(** The stream of one response: the world, the events enqueued so far
    (each the two arguments of [send]), and whether the controller was
    closed. *)
Record session := {
  net : world;
  events : list (jsstring * value);
  closed : bool
}.

(** A computation of the stream handler; the session keeps what was done
    before an exception. *)
Definition SM (A : Type) : Type := session -> completion A * session.

Definition sret {A} (a : A) : SM A := fun s => (Normal a, s).
Definition sbind {A B} (m : SM A) (k : A -> SM B) : SM B :=
  fun s =>
    match m s with
    | (Normal a, s') => k a s'
    | (Throw e, s') => (Throw e, s')
    end.

Declare Scope sm_scope.
Delimit Scope sm_scope with sm.
Notation "'run' x <- c ; k" := (sbind c (fun x => k))
  (at level 10, x name, c at level 100, k at level 200) : sm_scope.
Notation "'run' ' p <- c ; k" := (sbind c (fun x => let 'p := x in k))
  (at level 10, p pattern, c at level 100, k at level 200) : sm_scope.
Local Open Scope sm_scope.

(** A computation on the world, run within the stream. *)
Definition lift_m {A} (m : M A) : SM A :=
  fun s =>
    let '(c, w') := m (net s) in
    (c, {| net := w'; events := events s; closed := closed s |}).

(** [send(event, data)]: the frame [sseEvent(event, data)] is enqueued.
    Enqueueing on a closed controller throws. *)
Definition send (event : jsstring) (data : value) : SM unit :=
  fun s =>
    if closed s then (Throw TypeError, s)
    else (Normal tt, {| net := net s; events := events s ++ [(event, data)];
                        closed := false |}).

(** [controller.close()] *)
Definition close : SM unit :=
  fun s =>
    if closed s then (Throw TypeError, s)
    else (Normal tt, {| net := net s; events := events s; closed := true |}).

(** The onToken callbacks of the handler,
    [(delta) => { if (!delta || delta.trim().length === 0) return;
    send(token, ...) }]: a delta is forwarded when it is a string that is
    not blank; a truthy delta that is no string has no [trim]. *)
Definition forwarded (delta : value) : bool :=
  match delta with
  | VStr s => match trim s with [] => false | _ => true end
  | _ => false
  end.

Definition token_guard (open : bool) (delta : value) : completion unit :=
  match delta with
  | VStr _ => if forwarded delta && negb open then Throw TypeError else Normal tt
  | _ => if Val.truthy delta then Throw TypeError else Normal tt
  end.

(** A streamed generation call within the stream: every delta the call
    hands to onToken and that is forwarded becomes a token event, in
    order, whether the call returns or throws. *)
Definition streamed {A} (token : value -> value)
  (call : (value -> completion unit) -> M A) : SM A :=
  fun s =>
    let '(c, w') := call (token_guard (negb (closed s))) (net s) in
    let fresh := skipn (List.length (delivered (net s))) (delivered w') in
    (c, {| net := w';
           events := if closed s then events s
                     else events s ++ map (fun d => (lit "token", token d))
                                        (filter forwarded fresh);
           closed := closed s |}).

(** The values the handler sends. *)
Definition vnum (z : Z) : value := VNum (Num.of_Z z).

Definition outline_step_value (s : OutlineStep) : value :=
  VObj [(lit "step_key", VStr (outline_key s)); (lit "title", VStr (outline_title s))].

Definition step_row_value (r : StepRow) : value :=
  VObj [(lit "plan_id", VStr (plan_id r)); (lit "step_key", VStr (step_key r));
        (lit "order_index", vnum (order_index r)); (lit "title", VStr (title r));
        (lit "details", VStr (details r));
        (lit "success_criteria", VStr (success_criteria r));
        (lit "priority", VStr (priority r));
        (lit "estimated_minutes", vnum (estimated_minutes r));
        (lit "status", VStr (status r))].

Definition phase (name : jsstring) (more : list (jsstring * value)) : value :=
  VObj ((lit "phase", VStr name) :: more).

Definition step_keys_required : list jsstring :=
  [lit "details"; lit "success_criteria"; lit "priority"; lit "estimated_minutes"].

Definition step_call_stream (env : Env) (body : GeneratePlanBody) (s : OutlineStep)
  (count : Z) : json_params :=
  {| primary :=
       {| ollamaUrl := OLLAMA_URL env; chat_model := FAST_MODEL env;
          prompt := stepPrompt (field (body_company_name body))
                      (field (body_company_title body))
                      (field (body_short_description body))
                      (body_long_description body) (outline_key s) (outline_title s) count;
          num_predict := 260; timeoutMs := 35000 |};
     repairModel := REPAIR_MODEL env; repairNumPredict := 260;
     repairTimeoutMs := 20000; requiredKeys := Some step_keys_required |}.

(** The step loop of the stream handler from index [i] on. *)
Fixpoint stream_steps (env : Env) (body : GeneratePlanBody) (plan : jsstring) (count : Z)
  (i : Z) (l : list OutlineStep) (insertedPlaceholders : bool) (generated : list StepRow)
  : SM (bool * list StepRow) :=
  match l with
  | [] => sret (insertedPlaceholders, generated)
  | s :: rest =>
      run _ <- send (lit "status")
                 (phase (lit "step_start")
                    [(lit "step_key", VStr (outline_key s)); (lit "title", VStr (outline_title s));
                     (lit "index", vnum (i + 1)); (lit "total", vnum count)]);
      run stepRes <- streamed
                       (fun delta => VObj [(lit "scope", VStr (lit "step"));
                                           (lit "step_key", VStr (outline_key s));
                                           (lit "delta", delta)])
                       (callJSONStream (step_call_stream env body s count));
      run stepGen <- lift_m (lift (normalizeStepGen (parsed stepRes)
                                     (outline_key s) (outline_title s)));
      let row :=
        {| plan_id := plan; step_key := gen_step_key stepGen;
           order_index := i + 1; title := gen_title stepGen;
           details := gen_details stepGen;
           success_criteria := gen_success_criteria stepGen;
           priority := gen_priority stepGen;
           estimated_minutes := gen_estimated_minutes stepGen;
           status := lit "not_started" |} in
      let generated := generated ++ [row] in
      run still <- (if insertedPlaceholders then
                      run upErr <- lift_m (update_step row);
                      sret (negb (db_failed upErr))
                    else sret false);
      run _ <- send (lit "status")
                 (phase (lit "step_done") [(lit "step_key", VStr (outline_key s))]);
      stream_steps env body plan count (i + 1) rest still generated
  end.

Definition done_event (env : Env) (plan : jsstring) (count : Z) (generated : list StepRow)
  : value :=
  VObj [(lit "mode", VStr (lit "generate_plan_stream")); (lit "plan_id", VStr plan);
        (lit "model_used", VStr (FAST_MODEL env)); (lit "step_count", vnum count);
        (lit "steps", VArr (map step_row_value generated));
        (lit "build_marker", VStr (BUILD_MARKER env))].

Definition error_event (error : jsstring) (detail : option value) : value :=
  VObj ((lit "error", VStr error)
          :: match detail with Some d => [(lit "detail", d)] | None => [] end).

(** The [try] block of the handler. *)
Definition stream_body (env : Env) (body : GeneratePlanBody) : SM unit :=
  run _ <- send (lit "status")
             (phase (lit "start") [(lit "build_marker", VStr (BUILD_MARKER env))]);
  if negb (present (body_company_name body))
     || negb (present (body_company_title body))
     || negb (present (body_short_description body))
  then
    run _ <- send (lit "error")
               (error_event
                  (lit "company_name, company_title, and short_description are required") None);
    close
  else
    run _ <- send (lit "status") (phase (lit "db_create_plan") []);
    run planRes <- lift_m (insert_plan (plan_row env body));
    match planRes with
    | DbError detail =>
        run _ <- send (lit "error")
                   (error_event (lit "Failed to insert plan") (Some (VStr detail)));
        close
    | DbData plan =>
        run _ <- send (lit "status") (phase (lit "plan_created") [(lit "plan_id", VStr plan)]);
        run _ <- send (lit "status") (phase (lit "outline_model_call") []);
        run outlineRes <- streamed
                            (fun delta => VObj [(lit "scope", VStr (lit "outline"));
                                                (lit "delta", delta)])
                            (callJSONStream (outline_call env body));
        run outline0 <- lift_m (lift (normalizeOutline (parsed outlineRes)
                                        (MIN_STEPS env) (MAX_STEPS env)));
        let count := step_count outline0 in
        let outline_steps := fix_titles 0 (steps outline0) in
        run _ <- send (lit "status")
                   (phase (lit "outline_done")
                      [(lit "step_count", vnum count);
                       (lit "steps", VArr (map outline_step_value outline_steps))]);
        run phErr <- lift_m (insert_steps (placeholder_rows plan 0 outline_steps));
        run ' (insertedPlaceholders, generated) <-
          stream_steps env body plan count 0 outline_steps (negb (db_failed phErr)) [];
        if negb insertedPlaceholders then
          run _ <- send (lit "status") (phase (lit "db_insert_steps_bulk") []);
          run _ <- lift_m (delete_steps plan);
          run insErr <- lift_m (insert_steps generated);
          match insErr with
          | DbError detail =>
              run _ <- send (lit "error")
                         (error_event (lit "Failed to insert generated steps")
                            (Some (VStr detail)));
              close
          | DbData _ =>
              run _ <- send (lit "done") (done_event env plan count generated);
              close
          end
        else
          run _ <- send (lit "done") (done_event env plan count generated);
          close
    end.

Section StreamHandler.

(** The message the engine gives an exception it throws itself. *)
Variable engine_message : exn -> jsstring.

(** [e instanceof Error ? e.message : String(e)] *)
Definition error_message (e : exn) : jsstring :=
  match e with
  | Error message => message
  | Rejected reason => reason
  | _ => engine_message e
  end.

(** [handleGeneratePlanStream(ctx, body)]: what the function started by
    the stream does; the response itself has status 200 and the headers
    [sseHeaders()] whatever happens. *)
Definition handleGeneratePlanStream (env : Env) (body : GeneratePlanBody) : SM unit :=
  fun s =>
    match stream_body env body s with
    | (Normal u, s') => (Normal u, s')
    | (Throw e, s') =>
        (run _ <- send (lit "error")
                    (error_event (lit "Internal server error")
                       (Some (VStr (error_message e))));
         close) s'
    end.

End StreamHandler.

(** The stream as it starts, and the frames it has carried. *)
Definition open_stream (w : world) : session := {| net := w; events := []; closed := false |}.

Definition frames (s : session) : list jsstring :=
  map (fun ev => sseEvent (fst ev) (snd ev)) (events s).

(** The events that end a stream, and the events that do not. *)
Definition is_terminal_event (ev : jsstring * value) : bool :=
  str_eqb (fst ev) (lit "done") || str_eqb (fst ev) (lit "error").

Definition is_progress_event (ev : jsstring * value) : bool :=
  str_eqb (fst ev) (lit "status") || str_eqb (fst ev) (lit "token").

(** The deltas of the token events among [evs], in order. *)
Definition token_deltas (evs : list (jsstring * value)) : list value :=
  flat_map (fun ev => if str_eqb (fst ev) (lit "token")
                      then [Val.get (snd ev) (lit "delta")] else []) evs.

(** The stream went on from [s] to [s']: still open, with more progress
    events, the token events among them carrying the deltas handed over
    meanwhile that are forwarded. The stream ended between [s] and [s']:
    closed, after more such events and one terminal event. *)
Definition advances (s s' : session) : Prop :=
  closed s' = false
  /\ exists more ds,
       events s' = events s ++ more
       /\ forallb is_progress_event more = true
       /\ delivered (net s') = delivered (net s) ++ ds
       /\ token_deltas more = filter forwarded ds.

Definition finishes (s s' : session) : Prop :=
  closed s' = true
  /\ exists more last ds,
       events s' = events s ++ more ++ [last]
       /\ forallb is_progress_event more = true
       /\ is_terminal_event last = true
       /\ delivered (net s') = delivered (net s) ++ ds
       /\ token_deltas more = filter forwarded ds.

(** A computation that leaves an open stream open and sends progress
    events only, whether it returns or throws; and one that, on an open
    stream, either returns with the stream ended or throws with the
    stream still open. *)
Definition keeps {A} (m : SM A) : Prop :=
  forall s, closed s = false -> advances s (snd (m s)).

Definition settles {A} (m : SM A) : Prop :=
  forall s, closed s = false ->
    match m s with
    | (Normal _, s') => finishes s s'
    | (Throw _, s') => advances s s'
    end.

(** Streamed answers for the outline and the steps; the first step
    answer holds a blank delta. *)
Definition outline3_stream : response :=
  stream_answer [litq "{~message~:{~content~:~{\~step_count\~:3,~}}" ++ [10];
                 litq "{~message~:{~content~:~\~steps\~:[]}~},~done~:true}" ++ [10]].

Definition step_stream : response :=
  stream_answer [litq "{~message~:{~content~:~ ~}}" ++ [10]
                 ++ litq "{~message~:{~content~:~{\~details\~:\~Do the work\~,~}}" ++ [10]
                 ++ litq "{~message~:{~content~:~\~success_criteria\~:\~Work is done\~}~},~done~:true}"
                 ++ [10]].

Definition streaming_world : world :=
  world_of [outline3_stream; step_stream; step_stream; step_stream]
    [DbData (lit "plan-1"); DbData []; DbData []; DbData []; DbData []].

Definition plain_message (e : exn) : jsstring := lit "engine error".

(** The rows the stream of [streaming_world] ends with. *)
Definition streamed_row (i : Z) : StepRow :=
  {| plan_id := lit "plan-1"; step_key := lit "step_" ++ decimal i; order_index := i;
     title := lit "Define step " ++ decimal i ++ lit " deliverable";
     details := lit "Do the work."; success_criteria := lit "Work is done.";
     priority := lit "medium"; estimated_minutes := 30; status := lit "not_started" |}.

Definition streamed_rows : list StepRow := [streamed_row 1; streamed_row 2; streamed_row 3].

(** The first events of a stream, and a token event of the outline. *)
Definition start_event (env : Env) : jsstring * value :=
  (lit "status", phase (lit "start") [(lit "build_marker", VStr (BUILD_MARKER env))]).

Definition outline_token (delta : value) : jsstring * value :=
  (lit "token", VObj [(lit "scope", VStr (lit "outline")); (lit "delta", delta)]).


(** A streamed answer that breaks off after its first record, and a
    world in which the outline is answered so. *)
Definition broken_stream : response :=
  {| res_ok := true; res_status := 200; res_text := Normal [];
     res_json := Throw SyntaxError;
     res_body := Some ([litq "{~message~:{~content~:~{\~step_count\~:3,~}}" ++ [10]],
                       Some (Rejected (lit "connection reset"))) |}.

Definition broken_outline_world : world :=
  world_of [broken_stream] [DbData (lit "plan-1")].

(* ================================================================== *)
(** * Properties *)
(* ================================================================== *)

(** ** Per-step normalisation *)

Lemma cbind_normal {A B} (c : completion A) (k : A -> completion B) (b : B) :
  cbind c k = Normal b -> exists a, c = Normal a /\ k a = Normal b.
Proof.
  destruct c as [a | e]; simpl; intros H; [eauto | discriminate].
Qed.

(** What a returning [normalizeStepGen] has computed. *)
Lemma normalizeStepGen_inv raw k t g :
  normalizeStepGen raw k t = Normal g ->
  exists d s n p,
    cleanText (Val.coalesce (Val.get raw (lit "details")) (VStr [])) 120 = Normal d
    /\ cleanText (Val.coalesce (Val.get raw (lit "success_criteria")) (VStr [])) 110 = Normal s
    /\ Val.ToNumber (Val.coalesce (Val.get raw (lit "estimated_minutes")) (VNum (Finite 30)))
       = Normal n
    /\ normalizePriority (Val.get raw (lit "priority")) = Normal p
    /\ d <> [] /\ s <> []
    /\ g = {| gen_step_key := k; gen_title := t; gen_priority := p; gen_details := d;
              gen_success_criteria := s; gen_estimated_minutes := clampInt n 10 90 |}.
Proof.
  unfold normalizeStepGen. intros H.
  apply cbind_normal in H as (d & Hd & H).
  apply cbind_normal in H as (s & Hs & H).
  apply cbind_normal in H as (n & Hn & H).
  apply cbind_normal in H as (p & Hp & H).
  exists d, s, n, p.
  destruct d as [|d0 d']; [discriminate|].
  destruct s as [|s0 s']; [discriminate|].
  inversion H; subst. repeat split; auto; discriminate.
Qed.

Lemma clampInt_bounds n lo hi : lo <= hi -> lo <= clampInt n lo hi <= hi.
Proof.
  intros Hle. unfold clampInt. destruct n; lia.
Qed.

Lemma normalizePriority_inv v p :
  normalizePriority v = Normal p ->
  exists s, Val.ToString (Val.coalesce v (VStr [])) = Normal s
    /\ p = (if is_priority (trim (toLowerCase s)) then trim (toLowerCase s)
            else lit "medium").
Proof.
  unfold normalizePriority. intros H.
  apply cbind_normal in H as (s & Hs & H). exists s. split; [exact Hs|].
  destruct (is_priority (trim (toLowerCase s))); inversion H; reflexivity.
Qed.

(** C4: whenever [normalizeStepGen] returns, the returned step_key and
    title are the expected key and title handed in by the orchestrator;
    two runs on different generator payloads agree on both fields. *)
Theorem normalizeStepGen_identity_is_authoritative :
  forall (raw1 raw2 : value) (k t : jsstring) (g1 g2 : StepGen),
    normalizeStepGen raw1 k t = Normal g1 ->
    normalizeStepGen raw2 k t = Normal g2 ->
    gen_step_key g1 = k /\ gen_title g1 = t
    /\ gen_step_key g2 = gen_step_key g1 /\ gen_title g2 = gen_title g1.
Proof.
  intros raw1 raw2 k t g1 g2 H1 H2.
  apply normalizeStepGen_inv in H1 as (d1 & s1 & n1 & p1 & _ & _ & _ & _ & _ & _ & ->).
  apply normalizeStepGen_inv in H2 as (d2 & s2 & n2 & p2 & _ & _ & _ & _ & _ & _ & ->).
  simpl. auto.
Qed.

Lemma normalizeStepGen_identity_witness :
  normalizeStepGen echo_payload (lit "step_2") (lit "Meet the team") = Normal echo_step
  /\ normalizeStepGen plain_payload (lit "step_2") (lit "Meet the team") = Normal plain_step
  /\ (gen_step_key echo_step = lit "step_2" /\ gen_title echo_step = lit "Meet the team"
      /\ gen_step_key plain_step = gen_step_key echo_step
      /\ gen_title plain_step = gen_title echo_step).
Proof.
  split; [vm_compute; reflexivity|].
  split; [vm_compute; reflexivity|].
  apply (normalizeStepGen_identity_is_authoritative echo_payload plain_payload
           (lit "step_2") (lit "Meet the team")); vm_compute; reflexivity.
Defined.

(** C8 (as the claim states it) fails: a supplied estimated_minutes that
    is not finite, the overflowing literal 1e999 or a word, gives the
    lower bound 10 and not the default 30. *)
Lemma estimated_minutes_not_finite_counterexample :
  Json.parse overflow_text = Normal overflow_payload
  /\ normalizeStepGen overflow_payload (lit "step_2") (lit "Meet the team") = Normal floor_step
  /\ normalizeStepGen wordy_payload (lit "step_2") (lit "Meet the team") = Normal floor_step
  /\ gen_estimated_minutes floor_step = 10.
Proof. repeat split; vm_compute; reflexivity. Qed.

(** C8 (amended): whenever [normalizeStepGen] returns, estimated_minutes
    is an integer in [10, 90], equal to 30 when the field is absent and
    to the lower bound 10 when the supplied value converts to a number
    that is not finite; priority is one of low, medium, high, and medium
    stands for every value that is none of them. *)
Theorem normalizeStepGen_content :
  forall (raw : value) (k t : jsstring) (g : StepGen),
    normalizeStepGen raw k t = Normal g -> step_content_ok raw g.
Proof.
  intros raw k t g H.
  apply normalizeStepGen_inv in H as (d & s & n & p & _ & _ & Hn & Hp & _ & _ & ->).
  unfold step_content_ok; simpl.
  apply normalizePriority_inv in Hp as (s0 & Hs0 & ->).
  split; [apply clampInt_bounds; lia|].
  split.
  { intros Hnull. unfold Val.coalesce in Hn. rewrite Hnull in Hn.
    inversion Hn; subst. reflexivity. }
  split.
  { intros n' Hnull Hn' Hfin. unfold Val.coalesce in Hn. rewrite Hnull in Hn.
    rewrite Hn' in Hn. inversion Hn; subst.
    destruct n; [reflexivity | reflexivity | discriminate]. }
  split.
  { intros q Hnull Hq. unfold Val.coalesce in Hn. rewrite Hnull in Hn.
    rewrite Hq in Hn. inversion Hn; subst. reflexivity. }
  split.
  { destruct (is_priority (trim (toLowerCase s0))) eqn:E; [exact E | reflexivity]. }
  intros s1 Hs1. rewrite Hs0 in Hs1. inversion Hs1; subst. reflexivity.
Qed.

Lemma normalizeStepGen_content_witness :
  normalizeStepGen overflow_payload (lit "step_2") (lit "Meet the team") = Normal floor_step
  /\ step_content_ok overflow_payload floor_step.
Proof.
  split; [vm_compute; reflexivity|].
  apply (normalizeStepGen_content overflow_payload (lit "step_2") (lit "Meet the team")).
  vm_compute; reflexivity.
Defined.

(** ** Extraction *)

Lemma attempt_cases cond text :
  (exists v, attempt cond text = (Some v, [text]) /\ Json.parse text = Normal v)
  \/ (exists l, attempt cond text = (None, l)).
Proof.
  unfold attempt. destruct cond; [|right; eauto].
  destruct (Json.parse text) as [v | e]; [left | right]; eauto.
Qed.

(** C2: extraction is total. On every input string [tryParseJSON]
    returns normally, and what it returns is none ([null]) or the value
    [JSON.parse] gives for some text; it never throws. *)
Theorem tryParseJSON_total :
  forall s : jsstring,
    exists v, fst (tryParseJSON (VStr s)) = Normal v
              /\ (v = VNull \/ exists text, Json.parse text = Normal v).
Proof.
  intros s. unfold tryParseJSON.
  destruct (negb (Val.truthy (VStr s))); [exists VNull; auto|].
  destruct (maybeTruncatedJSON (stripFences s)); [exists VNull; auto|].
  destruct (Json.parse (stripFences s)) as [v | e] eqn:Hp.
  { exists v. split; [reflexivity | right; eauto]. }
  match goal with |- context [attempt ?c ?x] => destruct (attempt_cases c x) as [(v & -> & Hv) | (l & ->)] end.
  { exists v. split; [reflexivity | right; eauto]. }
  match goal with |- context [attempt ?c ?x] => destruct (attempt_cases c x) as [(v & -> & Hv) | (l' & ->)] end.
  { exists v. split; [reflexivity | right; eauto]. }
  exists VNull. auto.
Qed.

(** C7 (as the claim states it) fails: a text that starts with an
    opening brace and ends with a closing bracket, not the matching
    brace, is not taken as truncated; it is parsed, and the array inside
    it is extracted and returned. *)
Lemma mismatched_closer_counterexample :
  startsWith (trim (stripFences mismatched_text)) (lit "{") = true
  /\ endsWith (trim (stripFences mismatched_text)) (lit "}") = false
  /\ tryParseJSON (VStr mismatched_text)
     = (Normal (VArr [VNum (Finite 1)]), [mismatched_text; lit "[1]"]).
Proof. repeat split; vm_compute; reflexivity. Qed.

(** C7 (amended): when the trimmed, fence-stripped text starts with an
    opening brace or bracket and ends with neither a closing brace nor a
    closing bracket, extraction returns none at once: nothing is handed
    to [JSON.parse]. *)
Theorem tryParseJSON_truncated :
  forall raw : jsstring,
    let t := trim (stripFences raw) in
    startsWith t (lit "{") || startsWith t (lit "[") = true ->
    endsWith t (lit "}") || endsWith t (lit "]") = false ->
    tryParseJSON (VStr raw) = (Normal VNull, []).
Proof.
  intros raw t Hs He. unfold tryParseJSON.
  destruct (negb (Val.truthy (VStr raw))); [reflexivity|].
  unfold maybeTruncatedJSON. fold t.
  change [123] with (lit "{"). change [91] with (lit "[").
  change [125] with (lit "}"). change [93] with (lit "]").
  rewrite Hs, He. destruct t; reflexivity.
Qed.

Lemma tryParseJSON_truncated_witness :
  tryParseJSON (VStr truncated_text) = (Normal VNull, []).
Proof.
  apply (tryParseJSON_truncated truncated_text); vm_compute; reflexivity.
Defined.

(** ** The repair-on-failure controller *)

Lemma same_service_refl w : same_service w w.
Proof. repeat split. Qed.

Lemma same_service_trans w1 w2 w3 :
  same_service w1 w2 -> same_service w2 w3 -> same_service w1 w3.
Proof.
  unfold same_service. intros (a & b & c & d & e) (a' & b' & c' & d' & e').
  repeat split; congruence.
Qed.

Lemma on_line_frame onToken line full w :
  same_service w (snd (on_line onToken line full w)).
Proof.
  unfold on_line. destruct (Json.parse line); [|apply same_service_refl].
  destruct (Val.truthy _); [|apply same_service_refl].
  destruct (Val.ToString _); [|apply same_service_refl].
  unfold bind, deliver, ret. destruct (onToken _); repeat split.
Qed.

Lemma drain_frame fuel onToken onRawLine : forall buf full w,
  same_service w (snd (drain fuel onToken onRawLine buf full w)).
Proof.
  induction fuel as [|f IH]; intros buf full w; simpl; [apply same_service_refl|].
  destruct (indexOf buf [10] =? -1); [apply same_service_refl|].
  destruct (trim (slice buf 0 (indexOf buf [10]))) as [|c l]; [apply IH|].
  unfold bind, lift.
  destruct (match onRawLine with Some f0 => f0 (c :: l) | None => Normal tt end);
    [|apply same_service_refl].
  pose proof (on_line_frame onToken (c :: l) full w) as Hl.
  destruct (on_line onToken (c :: l) full w) as [[[full' brk]|e] w1]; simpl in Hl;
    [|exact Hl].
  destruct brk; [exact Hl|].
  eapply same_service_trans; [exact Hl | apply IH].
Qed.

Lemma read_loop_frame ending onToken onRawLine : forall chunks buf full w,
  same_service w (snd (read_loop chunks ending onToken onRawLine buf full w)).
Proof.
  induction chunks as [|c rest IH]; intros buf full w; cbn [read_loop].
  - destruct ending; apply same_service_refl.
  - unfold bind.
    pose proof (drain_frame (S (List.length (buf ++ c))) onToken onRawLine (buf ++ c) full w) as Hd.
    destruct (drain _ _ _ _ _ w) as [[[buf2 full2]|e] w1]; simpl in Hd; [|exact Hd].
    eapply same_service_trans; [exact Hd | apply IH].
Qed.

Lemma ollamaChat_run p w :
  ollamaChat p w = (cbind (answer w) read_chat, record_call (chat_request p false) w).
Proof.
  unfold ollamaChat, fetchWithTimeout, fetch, bind, lift.
  destruct (answer w); reflexivity.
Qed.

Lemma ncalls_record_call req w : ncalls (record_call req w) = S (ncalls w).
Proof. unfold ncalls, record_call; simpl. rewrite length_app; simpl. lia. Qed.

Lemma ollamaChatStream_calls p onToken onRawLine w :
  calls (snd (ollamaChatStream p onToken onRawLine w)) = calls w ++ [chat_request p true]
  /\ upstream (snd (ollamaChatStream p onToken onRawLine w)) = tl (upstream w).
Proof.
  unfold ollamaChatStream, fetch, bind, lift, throw.
  destruct (answer w) as [res|e]; [|split; reflexivity].
  destruct (negb (res_ok res)).
  { destruct (res_text res); split; reflexivity. }
  destruct (res_body res) as [[chunks ending]|]; [|split; reflexivity].
  destruct (read_loop_frame ending onToken onRawLine chunks [] []
              (record_call (chat_request p true) w)) as (Hu & Hc & _).
  rewrite Hu, Hc. split; reflexivity.
Qed.

Lemma tryParseJSON_truthy_is_string r pr :
  fst (tryParseJSON r) = Normal pr -> Val.truthy pr = true -> exists rs, r = VStr rs.
Proof.
  unfold tryParseJSON. intros H Ht.
  destruct (negb (Val.truthy r)).
  { simpl in H. inversion H; subst. discriminate. }
  destruct r; try (simpl in H; discriminate). eauto.
Qed.

Lemma tryParseJSON_normal_is_string_or_null r pr :
  fst (tryParseJSON r) = Normal pr -> (exists rs, r = VStr rs) \/ Val.truthy r = false.
Proof.
  unfold tryParseJSON. intros H.
  destruct (Val.truthy r) eqn:E; [|auto]. simpl in H.
  destruct r; try (simpl in H; discriminate). eauto.
Qed.

Lemma repair_world p prompt raw1 w :
  snd (repair p prompt raw1 w)
  = record_call (chat_request (repair_call p prompt) false) w.
Proof.
  unfold repair, bind. rewrite ollamaChat_run.
  destruct (cbind (answer w) read_chat) as [r|e]; [|reflexivity].
  unfold lift. destruct (fst (tryParseJSON r)) as [pr|e]; [|reflexivity].
  destruct r; try reflexivity. destruct (Val.truthy pr); reflexivity.
Qed.

Lemma repair_normal p prompt raw1 w pr rs w' :
  repair p prompt raw1 w = (Normal (pr, rs), w') ->
  Val.truthy pr = true /\ fst (tryParseJSON (VStr rs)) = Normal pr.
Proof.
  unfold repair, bind. rewrite ollamaChat_run.
  destruct (cbind (answer w) read_chat) as [r|e]; [|discriminate].
  unfold lift. destruct (fst (tryParseJSON r)) as [pr'|e] eqn:Hp; [|discriminate].
  destruct r; try discriminate. unfold ret, throw.
  destruct (Val.truthy pr') eqn:Ht; [|discriminate].
  intros H; inversion H; subst. auto.
Qed.

Lemma repair_success p prompt raw1 w res2 r pr :
  answer w = Normal res2 -> read_chat res2 = Normal r ->
  fst (tryParseJSON r) = Normal pr -> Val.truthy pr = true ->
  exists rs, r = VStr rs /\ fst (repair p prompt raw1 w) = Normal (pr, rs).
Proof.
  intros Ha Hr Hp Ht.
  destruct (tryParseJSON_truthy_is_string r pr Hp Ht) as (rs & ->).
  exists rs. split; [reflexivity|].
  unfold repair, bind. rewrite ollamaChat_run, Ha. simpl. rewrite Hr.
  unfold lift. rewrite Hp. rewrite Ht. reflexivity.
Qed.

(** One run of [callJSON], case by case. *)
Lemma callJSON_run p w :
  let w1 := record_call (chat_request (primary p) false) w in
  callJSON p w =
  match cbind (answer w) read_chat with
  | Throw e => (Throw e, w1)
  | Normal a1 =>
      match fst (tryParseJSON a1) with
      | Throw e => (Throw e, w1)
      | Normal p1 =>
          if Val.truthy p1 then (Normal p1, w1)
          else match a1 with
               | VStr a1s =>
                   (match fst (repair p (repairPrompt (requiredKeys p) a1s) a1s w1) with
                    | Normal (pr, _) => Normal pr
                    | Throw e => Throw e
                    end,
                    record_call
                      (chat_request (repair_call p (repairPrompt (requiredKeys p) a1s)) false) w1)
               | _ => (Throw TypeError, w1)
               end
      end
  end.
Proof.
  intros w1. unfold callJSON, bind. rewrite ollamaChat_run. fold w1.
  destruct (cbind (answer w) read_chat) as [a1|e]; [|reflexivity].
  unfold lift. destruct (fst (tryParseJSON a1)) as [p1|e]; [|reflexivity].
  destruct (Val.truthy p1); [reflexivity|].
  destruct a1; try reflexivity.
  rewrite <- repair_world with (raw1 := s).
  destruct (repair p _ s w1) as [[[pr rs]|e] w2]; reflexivity.
Qed.

(** One run of [callJSONStream] after its streamed call. *)
Lemma callJSONStream_run p onToken w :
  callJSONStream p onToken w =
  match ollamaChatStream (primary p) onToken None w with
  | (Throw e, w1) => (Throw e, w1)
  | (Normal raw1, w1) =>
      match fst (tryParseJSON (VStr raw1)) with
      | Throw e => (Throw e, w1)
      | Normal p1 =>
          if Val.truthy p1 then (Normal {| parsed := p1; raw := raw1 |}, w1)
          else
            (match fst (repair p (repairPromptStream (requiredKeys p) raw1) raw1 w1) with
             | Normal (p2, raw2) => Normal {| parsed := p2; raw := raw2 |}
             | Throw e => Throw e
             end,
             record_call
               (chat_request (repair_call p (repairPromptStream (requiredKeys p) raw1)) false)
               w1)
      end
  end.
Proof.
  unfold callJSONStream, bind.
  destruct (ollamaChatStream (primary p) onToken None w) as [[raw1|e] w1]; [|reflexivity].
  unfold lift. destruct (fst (tryParseJSON (VStr raw1))) as [p1|e]; [|reflexivity].
  destruct (Val.truthy p1); [reflexivity|].
  rewrite <- repair_world with (raw1 := raw1).
  destruct (repair p _ raw1 w1) as [[[pr rs]|e] w2]; reflexivity.
Qed.

Lemma ollamaChat_ncalls p w c w1 :
  ollamaChat p w = (c, w1) -> ncalls w1 = S (ncalls w).
Proof.
  rewrite ollamaChat_run. intros H; inversion H; subst. apply ncalls_record_call.
Qed.

Lemma ollamaChatStream_ncalls p onToken onRawLine w c w1 :
  ollamaChatStream p onToken onRawLine w = (c, w1) -> ncalls w1 = S (ncalls w).
Proof.
  intros H. destruct (ollamaChatStream_calls p onToken onRawLine w) as (Hc & _).
  rewrite H in Hc. simpl in Hc. unfold ncalls. rewrite Hc, length_app. simpl. lia.
Qed.

(** C1: a structured-output request makes at most two upstream calls,
    blocking or streamed. When extraction succeeds on the primary
    response (it yields a payload the controller accepts, that is a
    truthy one, as every object and array is), that payload is returned
    after exactly one call. When the primary response fails extraction
    and the repair response succeeds, the repaired payload is returned
    after exactly two calls. *)
Theorem structured_call_counts :
  forall (p : json_params) (onToken : value -> completion unit) (w : world),
    (ncalls (snd (callJSON p w)) <= ncalls w + 2)%nat
    /\ (ncalls (snd (callJSONStream p onToken w)) <= ncalls w + 2)%nat
    /\ (forall a1 w1 p1,
          ollamaChat (primary p) w = (Normal a1, w1) ->
          fst (tryParseJSON a1) = Normal p1 -> Val.truthy p1 = true ->
          callJSON p w = (Normal p1, w1) /\ ncalls w1 = (ncalls w + 1)%nat)
    /\ (forall raw1 w1 p1,
          ollamaChatStream (primary p) onToken None w = (Normal raw1, w1) ->
          fst (tryParseJSON (VStr raw1)) = Normal p1 -> Val.truthy p1 = true ->
          callJSONStream p onToken w = (Normal {| parsed := p1; raw := raw1 |}, w1)
          /\ ncalls w1 = (ncalls w + 1)%nat)
    /\ (forall a1 w1 p1 res2 r pr,
          ollamaChat (primary p) w = (Normal a1, w1) ->
          fst (tryParseJSON a1) = Normal p1 -> Val.truthy p1 = false ->
          answer w1 = Normal res2 -> read_chat res2 = Normal r ->
          fst (tryParseJSON r) = Normal pr -> Val.truthy pr = true ->
          fst (callJSON p w) = Normal pr
          /\ ncalls (snd (callJSON p w)) = (ncalls w + 2)%nat)
    /\ (forall raw1 w1 p1 res2 rs pr,
          ollamaChatStream (primary p) onToken None w = (Normal raw1, w1) ->
          fst (tryParseJSON (VStr raw1)) = Normal p1 -> Val.truthy p1 = false ->
          answer w1 = Normal res2 -> read_chat res2 = Normal (VStr rs) ->
          fst (tryParseJSON (VStr rs)) = Normal pr -> Val.truthy pr = true ->
          fst (callJSONStream p onToken w) = Normal {| parsed := pr; raw := rs |}
          /\ ncalls (snd (callJSONStream p onToken w)) = (ncalls w + 2)%nat).
Proof.
  intros p onToken w.
  split.
  { rewrite callJSON_run.
    destruct (cbind (answer w) read_chat) as [a1|e]; cbn [fst snd];
      [|rewrite ncalls_record_call; lia].
    destruct (fst (tryParseJSON a1)) as [p1|e]; cbn [fst snd];
      [|rewrite ncalls_record_call; lia].
    destruct (Val.truthy p1); cbn [fst snd]; [rewrite ncalls_record_call; lia|].
    destruct a1; cbn [fst snd]; rewrite ?ncalls_record_call; lia. }
  split.
  { rewrite callJSONStream_run.
    destruct (ollamaChatStream (primary p) onToken None w) as [[raw1|e] w1] eqn:Hs;
      apply ollamaChatStream_ncalls in Hs; cbn [fst snd]; [|lia].
    destruct (fst (tryParseJSON (VStr raw1))) as [p1|e]; cbn [fst snd]; [|lia].
    destruct (Val.truthy p1); cbn [fst snd]; rewrite ?ncalls_record_call; lia. }
  split.
  { intros a1 w1 p1 Hc Hp Ht. split.
    - rewrite callJSON_run. rewrite ollamaChat_run in Hc. inversion Hc; subst.
      rewrite H0. rewrite Hp, Ht. reflexivity.
    - apply ollamaChat_ncalls in Hc. lia. }
  split.
  { intros raw1 w1 p1 Hc Hp Ht. split.
    - rewrite callJSONStream_run, Hc, Hp, Ht. reflexivity.
    - apply ollamaChatStream_ncalls in Hc. lia. }
  split.
  { intros a1 w1 p1 res2 r pr Hc Hp Ht Ha Hr Hpr Htr.
    pose proof (ollamaChat_ncalls _ _ _ _ Hc) as Hn.
    rewrite callJSON_run. rewrite ollamaChat_run in Hc. inversion Hc; subst.
    rewrite H0, Hp, Ht.
    destruct (tryParseJSON_normal_is_string_or_null a1 p1 Hp) as [(a1s & ->) | Hf].
    2:{ exfalso. unfold read_chat in H0.
        destruct (answer w) as [res|e]; [|discriminate]. simpl in H0.
        destruct (negb (res_ok res)).
        - destruct (res_text res); discriminate.
        - destruct (res_json res); [|discriminate]. simpl in H0.
          destruct (Val.truthy (Val.get (Val.get a (lit "message")) (lit "content"))) eqn:E;
            simpl in H0; [|discriminate].
          inversion H0; subst. rewrite E in Hf. discriminate. }
    destruct (repair_success p (repairPrompt (requiredKeys p) a1s) a1s _ res2 r pr Ha Hr Hpr Htr)
      as (rs & -> & Hrep).
    cbn [fst snd]. rewrite Hrep. split; [reflexivity|].
    rewrite !ncalls_record_call. lia. }
  intros raw1 w1 p1 res2 rs pr Hc Hp Ht Ha Hr Hpr Htr.
  pose proof (ollamaChatStream_ncalls _ _ _ _ _ _ Hc) as Hn.
  rewrite callJSONStream_run, Hc, Hp, Ht.
  destruct (repair_success p (repairPromptStream (requiredKeys p) raw1) raw1 _ res2 _ pr
              Ha Hr Hpr Htr) as (rs' & Heq & Hrep).
  inversion Heq; subst rs'.
  cbn [fst snd]. rewrite Hrep. split; [reflexivity|].
  rewrite ncalls_record_call. lia.
Qed.

Lemma structured_call_counts_witness :
  fst (callJSON demo_params repaired_world) = Normal object_value
  /\ ncalls (snd (callJSON demo_params repaired_world)) = 2%nat.
Proof.
  apply (proj1 (proj2 (proj2 (proj2 (proj2
           (structured_call_counts demo_params quiet repaired_world))))))
    with (a1 := VStr prose_text)
         (w1 := record_call (chat_request (primary demo_params) false) repaired_world)
         (p1 := VNull) (res2 := chat_answer object_text) (r := VStr object_text);
    vm_compute; reflexivity.
Defined.

Lemma falsy_documents_parse doc :
  In doc falsy_documents ->
  exists v, tryParseJSON (VStr doc) = (Normal v, [doc]) /\ Val.truthy v = false.
Proof.
  intros [<- | [<- | [<- | [<- | []]]]].
  - exists VNull. split; vm_compute; reflexivity.
  - exists (VNum (Finite 0)). split; vm_compute; reflexivity.
  - exists (VBool false). split; vm_compute; reflexivity.
  - exists (VStr []). split; vm_compute; reflexivity.
Qed.

(** C10: [callJSON] and [callJSONStream] never return a falsy payload.
    When the primary response is one of the JSON documents null, 0,
    false or the empty string, the value parsed from it is falsy and is
    treated as a failed extraction: the repair call is issued. Whatever
    either function returns is a truthy value that [tryParseJSON] gave;
    in every other case it throws. *)
Theorem falsy_payload_is_never_returned :
  forall (p : json_params) (onToken : value -> completion unit) (w : world),
    (forall doc, In doc falsy_documents ->
       exists v, tryParseJSON (VStr doc) = (Normal v, [doc]) /\ Val.truthy v = false)
    /\ (forall doc w1, In doc falsy_documents ->
          ollamaChat (primary p) w = (Normal (VStr doc), w1) ->
          calls (snd (callJSON p w))
          = calls w1 ++ [chat_request (repair_call p (repairPrompt (requiredKeys p) doc)) false])
    /\ (forall doc w1, In doc falsy_documents ->
          ollamaChatStream (primary p) onToken None w = (Normal doc, w1) ->
          calls (snd (callJSONStream p onToken w))
          = calls w1
              ++ [chat_request (repair_call p (repairPromptStream (requiredKeys p) doc)) false])
    /\ (forall v w', callJSON p w = (Normal v, w') ->
          Val.truthy v = true /\ exists text, fst (tryParseJSON text) = Normal v)
    /\ (forall r w', callJSONStream p onToken w = (Normal r, w') ->
          Val.truthy (parsed r) = true
          /\ fst (tryParseJSON (VStr (raw r))) = Normal (parsed r)).
Proof.
  intros p onToken w.
  split; [exact falsy_documents_parse|].
  split.
  { intros doc w1 Hin Hc.
    destruct (falsy_documents_parse doc Hin) as (v & Hv & Hf).
    rewrite callJSON_run. rewrite ollamaChat_run in Hc. inversion Hc; subst.
    rewrite H0, Hv. cbn [fst]. rewrite Hf. reflexivity. }
  split.
  { intros doc w1 Hin Hc.
    destruct (falsy_documents_parse doc Hin) as (v & Hv & Hf).
    rewrite callJSONStream_run, Hc, Hv. cbn [fst]. rewrite Hf. reflexivity. }
  split.
  { intros v w'. rewrite callJSON_run.
    destruct (cbind (answer w) read_chat) as [a1|e]; [|discriminate].
    destruct (fst (tryParseJSON a1)) as [p1|e] eqn:Hp; [|discriminate].
    destruct (Val.truthy p1) eqn:Ht.
    { intros H; inversion H; subst. split; [exact Ht | eauto]. }
    destruct a1; try discriminate.
    destruct (repair p _ s _) as [[[pr rs]|e] w2] eqn:Hr; cbn [fst]; [|discriminate].
    intros H; inversion H; subst.
    apply repair_normal in Hr as (Htr & Hpr). split; [exact Htr | eauto]. }
  intros r w'. rewrite callJSONStream_run.
  destruct (ollamaChatStream (primary p) onToken None w) as [[raw1|e] w1]; [|discriminate].
  destruct (fst (tryParseJSON (VStr raw1))) as [p1|e] eqn:Hp; [|discriminate].
  destruct (Val.truthy p1) eqn:Ht.
  { intros H; inversion H; subst. split; [exact Ht | exact Hp]. }
  destruct (repair p _ raw1 _) as [[[pr rs]|e] w2] eqn:Hr; cbn [fst]; [|discriminate].
  intros H; inversion H; subst.
  apply repair_normal in Hr as (Htr & Hpr). split; [exact Htr | exact Hpr].
Qed.

Lemma falsy_payload_witness :
  calls (snd (callJSON demo_params null_world))
  = calls (record_call (chat_request (primary demo_params) false) null_world)
      ++ [chat_request
            (repair_call demo_params (repairPrompt (requiredKeys demo_params) (lit "null")))
            false].
Proof.
  apply (proj1 (proj2 (falsy_payload_is_never_returned demo_params quiet null_world))).
  - vm_compute. auto.
  - vm_compute. reflexivity.
Defined.

(** ** The streaming client *)

(** C6 (the code does not do what the claim says): a delta that arrives
    after the record carrying done is still forwarded to onToken and
    accumulated, as soon as the reader yields one more chunk; the break
    leaves the inner loop only. When the stream ends with the chunk that
    holds the done record, what follows that record in the chunk is
    dropped. *)
Lemma ollamaChatStream_forwards_after_done :
  fst (ollamaChatStream (primary demo_params) quiet None late_world) = Normal (lit "aLATE")
  /\ delivered (snd (ollamaChatStream (primary demo_params) quiet None late_world))
     = [VStr (lit "a"); VStr (lit "LATE")]
  /\ fst (ollamaChatStream (primary demo_params) quiet None late_same_chunk_world)
     = Normal (lit "a").
Proof. repeat split; vm_compute; reflexivity. Qed.

(** ** Outline normalisation *)

Lemma lit_inj a b : lit a = lit b -> a = b.
Proof.
  unfold lit. intros H.
  rewrite <- (string_of_list_ascii_of_string a), <- (string_of_list_ascii_of_string b).
  f_equal. revert H.
  generalize (list_ascii_of_string a) (list_ascii_of_string b).
  induction l as [|x l IH]; intros [|y l']; simpl; intros H; try discriminate; auto.
  inversion H as [[Hx Hl]]. f_equal; [|apply IH; exact Hl].
  apply N2Z.inj in Hx.
  rewrite <- (ascii_N_embedding x), <- (ascii_N_embedding y). congruence.
Qed.

Lemma to_int_not_nil z : Z.to_int z <> Decimal.Pos Decimal.Nil /\ Z.to_int z <> Decimal.Neg Decimal.Nil.
Proof.
  destruct z; simpl; split; try discriminate; intros H; inversion H as [H1];
    exact (DecimalPos.Unsigned.to_uint_nonnil _ H1).
Qed.

Lemma decimal_inj a b : decimal a = decimal b -> a = b.
Proof.
  unfold decimal. intros H. apply lit_inj in H.
  destruct (to_int_not_nil a) as (Ha1 & Ha2), (to_int_not_nil b) as (Hb1 & Hb2).
  pose proof (NilZero.isi _ Ha1 Ha2) as Ia. pose proof (NilZero.isi _ Hb1 Hb2) as Ib.
  rewrite H in Ia. rewrite Ia in Ib. inversion Ib as [E].
  rewrite <- (DecimalZ.of_to a), <- (DecimalZ.of_to b). congruence.
Qed.

Lemma step_keys_NoDup n : NoDup (step_keys n).
Proof.
  unfold step_keys. apply Injective_map_NoDup; [|apply seq_NoDup].
  intros i j H. apply app_inv_head in H. apply decimal_inj in H. lia.
Qed.

Lemma normalizeOutline_inv raw lo hi o :
  normalizeOutline raw lo hi = Normal o ->
  exists n byKey,
    o = {| step_count := clampInt n lo hi;
           steps := map (fun i => outline_step byKey (Z.of_nat i))
                      (seq 1 (Z.to_nat (clampInt n lo hi))) |}.
Proof.
  unfold normalizeOutline. intros H.
  apply cbind_normal in H as (n & Hn & H).
  apply cbind_normal in H as (byKey & Hb & H).
  exists n, byKey. inversion H; reflexivity.
Qed.

Lemma fix_titles_keys l : forall i,
  map outline_key (fix_titles i l) = map outline_key l.
Proof.
  induction l as [|s r IH]; intros i; simpl; [reflexivity|].
  rewrite IH. f_equal. unfold fix_title.
  destruct (_ || _ || _); reflexivity.
Qed.

Lemma collect_three k1 t1 k2 t2 k3 t3 :
  collect_titles [titled k1 t1; titled k2 t2; titled k3 t3] []
  = Normal (add_title k3 t3 (add_title k2 t2 (add_title k1 t1 []))).
Proof. reflexivity. Qed.

Lemma map_get_add_title_other k0 t m k :
  str_eqb (trim k0) k = false -> map_get k (add_title k0 t m) = map_get k m.
Proof.
  unfold add_title. intros H.
  destruct (trim k0) as [|c l]; [reflexivity|].
  destruct (trim t); [reflexivity|].
  unfold map_set. cbn [map_get]. rewrite H. reflexivity.
Qed.

Lemma three_titles_miss t1 t2 t3 k :
  str_eqb (lit "step_1") k = false -> str_eqb (lit "step_2") k = false ->
  str_eqb (lit "step_3") k = false ->
  map_get k (add_title (lit "step_3") t3
               (add_title (lit "step_2") t2 (add_title (lit "step_1") t1 []))) = None.
Proof.
  intros H1 H2 H3.
  rewrite !map_get_add_title_other; [reflexivity | exact H1 | exact H2 | exact H3].
Qed.

Lemma outline_step_miss byKey i :
  map_get (lit "step_" ++ decimal i) byKey = None ->
  outline_step byKey i
  = {| outline_key := lit "step_" ++ decimal i; outline_title := lit "Step " ++ decimal i |}.
Proof. unfold outline_step. intros ->. reflexivity. Qed.

(** C3 (as the claim states it) fails in two ways. With MIN_STEPS = 1
    and MAX_STEPS = 4, a reported step_count of 5 with three titled
    entries gives four entries, not five. With MIN_STEPS = -2 and
    MAX_STEPS = -1 (so MIN_STEPS <= MAX_STEPS), the step_count is -1 and
    the list is empty. *)
Lemma outline_bounds_counterexample :
  (exists o, normalizeOutline demo_outline 1 4 = Normal o
             /\ step_count o = 4 /\ List.length (steps o) = 4%nat
             /\ map outline_key (steps o) = step_keys 4)
  /\ (exists o, normalizeOutline negative_outline (-2) (-1) = Normal o
                /\ step_count o = -1 /\ steps o = []).
Proof.
  split; eexists; (split; [vm_compute; reflexivity|]); repeat split.
Qed.

(** C3 (amended): for bounds 0 <= MIN_STEPS <= MAX_STEPS, every outline
    that [normalizeOutline] returns has step_count within the bounds and
    exactly step_count entries, whose keys are step_1 .. step_N by
    position, without gap or duplicate, whatever keys the generator
    reported; the degenerate-title pass keeps the keys. When moreover
    MIN_STEPS <= 5 <= MAX_STEPS, a payload that reports step_count 5 and
    lists titles for step_1, step_2, step_3 only gives five entries
    keyed step_1 .. step_5, and after the degenerate-title pass entries
    4 and 5 are titled Define step 4 deliverable and Define step 5
    deliverable. *)
Theorem normalizeOutline_shape :
  forall lo hi : Z, 0 <= lo -> lo <= hi ->
    (forall raw o, normalizeOutline raw lo hi = Normal o -> outline_ok lo hi o)
    /\ (lo <= 5 <= hi -> forall t1 t2 t3 : jsstring,
          exists o a b c,
            normalizeOutline (short_outline t1 t2 t3) lo hi = Normal o
            /\ step_count o = 5
            /\ map outline_key (fix_titles 0 (steps o)) = step_keys 5
            /\ map outline_title (fix_titles 0 (steps o))
               = [a; b; c; lit "Define step 4 deliverable"; lit "Define step 5 deliverable"]).
Proof.
  intros lo hi H0 Hle. split.
  - intros raw o H. apply normalizeOutline_inv in H as (n & byKey & ->).
    unfold outline_ok. cbn [step_count steps].
    pose proof (clampInt_bounds n lo hi Hle) as Hb.
    assert (Hk : map outline_key
                   (map (fun i => outline_step byKey (Z.of_nat i))
                      (seq 1 (Z.to_nat (clampInt n lo hi))))
                 = step_keys (Z.to_nat (clampInt n lo hi))).
    { rewrite map_map. reflexivity. }
    rewrite fix_titles_keys, Hk, length_map, length_seq.
    repeat split; try lia. apply step_keys_NoDup.
  - intros H5 t1 t2 t3.
    set (byKey := add_title (lit "step_3") t3
                    (add_title (lit "step_2") t2 (add_title (lit "step_1") t1 []))).
    assert (Hn : normalizeOutline (short_outline t1 t2 t3) lo hi
                 = Normal {| step_count := clampInt (Finite 5) lo hi;
                             steps := map (fun i => outline_step byKey (Z.of_nat i))
                                        (seq 1 (Z.to_nat (clampInt (Finite 5) lo hi))) |})
      by reflexivity.
    assert (Hc : clampInt (Finite 5) lo hi = 5).
    { unfold clampInt. change (Num.trunc 5) with 5. lia. }
    rewrite Hc in Hn. change (Z.to_nat 5) with 5%nat in Hn. cbn [seq map] in Hn.
    assert (H4 : outline_step byKey (Z.of_nat 4)
                 = {| outline_key := lit "step_4"; outline_title := lit "Step 4" |}).
    { rewrite outline_step_miss; [reflexivity|].
      apply three_titles_miss; reflexivity. }
    assert (H5' : outline_step byKey (Z.of_nat 5)
                  = {| outline_key := lit "step_5"; outline_title := lit "Step 5" |}).
    { rewrite outline_step_miss; [reflexivity|].
      apply three_titles_miss; reflexivity. }
    rewrite H4, H5' in Hn.
    eexists. exists (outline_title (fix_title 0 (outline_step byKey (Z.of_nat 1)))),
      (outline_title (fix_title 1 (outline_step byKey (Z.of_nat 2)))),
      (outline_title (fix_title 2 (outline_step byKey (Z.of_nat 3)))).
    split; [exact Hn|]. cbn [step_count steps].
    split; [reflexivity|].
    split; [rewrite fix_titles_keys; reflexivity|].
    reflexivity.
Qed.

Lemma normalizeOutline_shape_witness :
  exists o a b c,
    normalizeOutline demo_outline 3 10 = Normal o
    /\ step_count o = 5
    /\ map outline_key (fix_titles 0 (steps o)) = step_keys 5
    /\ map outline_title (fix_titles 0 (steps o))
       = [a; b; c; lit "Define step 4 deliverable"; lit "Define step 5 deliverable"].
Proof.
  apply (proj2 (normalizeOutline_shape 3 10 ltac:(lia) ltac:(lia)) ltac:(lia)).
Defined.

(** ** Persistence of the generated steps *)

(** C5 (as the claim states it) fails. In a run whose first update
    fails, a delete that fails too (its result is not looked at) leaves
    the placeholders beside the bulk-inserted rows: six rows, every
    step_key twice. And when a later step cannot be generated the run
    ends before the bulk insert: the placeholders are all that is
    stored. *)
Lemma bulk_fallback_counterexample :
  (exists resp, fst (handleGeneratePlan demo_env demo_body failed_delete_world) = Normal resp
                /\ http_status resp = 200)
  /\ map step_key
       (rows_of (lit "plan-1")
          (plan_steps (snd (handleGeneratePlan demo_env demo_body failed_delete_world))))
     = step_keys 3 ++ step_keys 3
  /\ (exists e, fst (handleGeneratePlan demo_env demo_body failed_generation_world) = Throw e)
  /\ map details
       (rows_of (lit "plan-1")
          (plan_steps (snd (handleGeneratePlan demo_env demo_body failed_generation_world))))
     = [[]; []; []].
Proof.
  split; [eexists; split; vm_compute; reflexivity|].
  split; [vm_compute; reflexivity|].
  split; [eexists; vm_compute; reflexivity|].
  vm_compute; reflexivity.
Qed.

Lemma str_eqb_refl s : str_eqb s s = true.
Proof. induction s as [|c s IH]; simpl; [reflexivity|]. rewrite Z.eqb_refl. exact IH. Qed.

(** The controller leaves the datastore alone. *)
Lemma callJSON_db p w :
  db_log (snd (callJSON p w)) = db_log w
  /\ db_replies (snd (callJSON p w)) = db_replies w
  /\ plan_steps (snd (callJSON p w)) = plan_steps w.
Proof.
  rewrite callJSON_run.
  destruct (cbind (answer w) read_chat) as [a1|e]; [|repeat split].
  destruct (fst (tryParseJSON a1)) as [p1|e]; [|repeat split].
  destruct (Val.truthy p1); [repeat split|].
  destruct a1; repeat split.
Qed.

(** One datastore operation: the answer it gets, and the world after. *)
Lemma db_step_run ev apply w :
  exists reply,
    fst (db_step ev apply w) = Normal reply
    /\ db_log (snd (db_step ev apply w)) = db_log w ++ [ev (negb (db_failed reply))]
    /\ plan_steps (snd (db_step ev apply w))
       = (if db_failed reply then plan_steps w else apply (plan_steps w)).
Proof.
  unfold db_step. cbn [fst snd db_log plan_steps].
  eexists. split; [reflexivity|].
  destruct (db_replies w) as [|[id|d] r]; split; reflexivity.
Qed.

Lemma generate_steps_spec call plan : forall l i ip0 gen0 w ip gen w',
  generate_steps call plan i l ip0 gen0 w = (Normal (ip, gen), w') ->
  exists rows evs,
    gen = gen0 ++ rows
    /\ map step_key rows = map outline_key l
    /\ Forall (fun r => plan_id r = plan) rows
    /\ db_log w' = db_log w ++ evs
    /\ update_trace plan ip0 ip evs.
Proof.
  induction l as [|s rest IH]; intros i ip0 gen0 w ip gen w' H.
  - cbn [generate_steps] in H. unfold ret in H. inversion H; subst.
    exists [], []. rewrite !app_nil_r. repeat split; [constructor|].
    unfold update_trace. destruct ip; [right; left | left]; repeat split. constructor.
  - cbn [generate_steps] in H. unfold bind at 1 in H.
    destruct (callJSON_db (call s) w) as (Hlog & _ & _).
    destruct (callJSON (call s) w) as [[raw|e] w1]; [|discriminate].
    cbn [snd] in Hlog.
    unfold bind at 1, lift at 1 in H.
    destruct (normalizeStepGen raw (outline_key s) (outline_title s)) as [g|e] eqn:Hg;
      [|discriminate].
    apply normalizeStepGen_inv in Hg as (d & sc & n & p & _ & _ & _ & _ & _ & _ & ->).
    cbn [gen_step_key gen_title gen_details gen_success_criteria gen_priority
         gen_estimated_minutes] in H.
    set (row := {| plan_id := plan; step_key := outline_key s; order_index := i + 1;
                   title := outline_title s; details := d; success_criteria := sc;
                   priority := p; estimated_minutes := clampInt n 10 90;
                   status := lit "not_started" |}) in *.
    destruct ip0.
    + unfold bind at 1 in H. unfold update_step in H.
      match type of H with context [db_step ?ev ?ap w1] =>
        destruct (db_step_run ev ap w1) as (reply & Hr & Hl & _);
        destruct (db_step ev ap w1) as [c w2] end.
      cbn [fst snd] in Hr, Hl. subst c.
      apply IH in H as (rows & evs & -> & Hk & Hp & Hlog' & Htr).
      exists (row :: rows), (UpdateStep plan (outline_key s) (negb (db_failed reply)) :: evs).
      rewrite <- app_assoc. split; [reflexivity|].
      split; [cbn [map]; rewrite Hk; reflexivity|].
      split; [constructor; [reflexivity | exact Hp]|].
      split.
      { rewrite Hlog', Hl, Hlog, <- app_assoc. reflexivity. }
      unfold update_trace in *. right.
      destruct (db_failed reply); cbn [negb] in *.
      * destruct Htr as [(_ & -> & ->) | [(Hc & _) | (Hc & _)]]; try discriminate.
        right. repeat split. exists [], (outline_key s). split; [reflexivity | constructor].
      * destruct Htr as [(Hc & _) | [(_ & -> & Hf) | (_ & -> & oks & k & -> & Hf)]];
          try discriminate.
        -- left. repeat split. constructor; [exists (outline_key s); reflexivity | exact Hf].
        -- right. repeat split. exists (UpdateStep plan (outline_key s) true :: oks), k.
           split; [reflexivity|]. constructor; [exists (outline_key s); reflexivity | exact Hf].
    + apply IH in H as (rows & evs & -> & Hk & Hp & Hlog' & Htr).
      exists (row :: rows), evs.
      rewrite <- app_assoc. split; [reflexivity|].
      split; [cbn [map]; rewrite Hk; reflexivity|].
      split; [constructor; [reflexivity | exact Hp]|].
      split; [rewrite Hlog', Hlog; reflexivity | exact Htr].
Qed.

Lemma rows_of_after_bulk plan table gen :
  Forall (fun r => plan_id r = plan) gen ->
  rows_of plan (filter (fun r => negb (str_eqb (plan_id r) plan)) table ++ gen) = gen.
Proof.
  intros Hg. unfold rows_of. rewrite filter_app.
  assert (H1 : filter (fun r => str_eqb (plan_id r) plan)
                 (filter (fun r => negb (str_eqb (plan_id r) plan)) table) = []).
  { induction table as [|r t IH]; [reflexivity|]. cbn [filter].
    destruct (str_eqb (plan_id r) plan) eqn:E; cbn [negb]; [exact IH|].
    cbn [filter]. rewrite E. exact IH. }
  rewrite H1. cbn [app].
  induction Hg as [|r l Hr _ IH]; [reflexivity|].
  cbn [filter]. rewrite Hr, str_eqb_refl, IH. reflexivity.
Qed.

Lemma normalizeOutline_keys raw lo hi o :
  normalizeOutline raw lo hi = Normal o ->
  map outline_key (steps o) = step_keys (List.length (steps o)).
Proof.
  intros H. apply normalizeOutline_inv in H as (n & byKey & ->). cbn [steps].
  rewrite map_map, length_map, length_seq. reflexivity.
Qed.

Lemma normalizeOutline_length raw lo hi o :
  normalizeOutline raw lo hi = Normal o ->
  List.length (steps o) = Z.to_nat (step_count o).
Proof.
  intros H. apply normalizeOutline_inv in H as (n & byKey & ->). cbn [steps step_count].
  rewrite length_map, length_seq. reflexivity.
Qed.

Lemma ok_update_not_failed plan oks p k :
  Forall (ok_update plan) oks -> ~ In (UpdateStep p k false) oks.
Proof.
  intros Hf Hin. rewrite Forall_forall in Hf.
  destruct (Hf _ Hin) as (k' & Hk). discriminate.
Qed.

(** C5 (amended): in a run of [handleGeneratePlan] that ends with
    status 200, in which some per-step update failed and the cleanup
    delete succeeded, the datastore saw the plan insert, the placeholder
    insert (successful), successful updates, the failed update, and then
    only the delete and one bulk insert of the generated rows: no update
    after the failed one. The rows persisted for the plan are exactly
    the generated rows of the response, one per outline entry, keyed
    step_1 .. step_N without duplicate. *)
Theorem bulk_fallback_persists_generated_rows :
  forall (env : Env) (body : GeneratePlanBody) (w w' : world) (resp : http_response)
         (events : list db_event) (plan key : jsstring),
    handleGeneratePlan env body w = (Normal resp, w') ->
    http_status resp = 200 ->
    db_log w' = db_log w ++ events ->
    In (UpdateStep plan key false) events ->
    In (DeleteSteps plan true) events ->
    exists count rows row placeholders oks,
      http_body resp = PlanBody (lit "generate_plan") plan (FAST_MODEL env) count rows
      /\ rows_of plan (plan_steps w') = rows
      /\ List.length rows = Z.to_nat count
      /\ map step_key rows = step_keys (List.length rows)
      /\ NoDup (map step_key rows)
      /\ Forall (ok_update plan) oks
      /\ events = [InsertPlan row true; InsertSteps placeholders true] ++ oks
                  ++ [UpdateStep plan key false; DeleteSteps plan true; InsertSteps rows true].
Proof.
  intros env body w w' resp events plan key H Hst Hev Hup Hdel.
  unfold handleGeneratePlan in H.
  destruct (negb (present (body_company_name body)) || _ || _).
  { unfold ret in H. inversion H; subst. discriminate. }
  unfold bind at 1 in H. unfold insert_plan in H.
  match type of H with context [db_step ?ev ?ap w] =>
    destruct (db_step_run ev ap w) as (reply & Hr & Hl & _);
    destruct (db_step ev ap w) as [c w1] end.
  cbn [fst snd] in Hr, Hl. subst c.
  destruct reply as [plan0|detail].
  2:{ unfold ret in H. inversion H; subst. discriminate. }
  cbn [db_failed negb] in Hl.
  unfold bind at 1 in H.
  match type of H with context [callJSON ?p w1] =>
    destruct (callJSON_db p w1) as (Hl2 & _ & _);
    destruct (callJSON p w1) as [[outlineRaw|e] w2] end; [|discriminate].
  cbn [snd] in Hl2.
  unfold bind at 1, lift at 1 in H.
  destruct (normalizeOutline outlineRaw (MIN_STEPS env) (MAX_STEPS env)) as [o0|e] eqn:Ho;
    [|discriminate].
  cbn [step_count steps] in H.
  unfold bind at 1 in H. unfold insert_steps at 1 in H.
  match type of H with context [db_step ?ev ?ap w2] =>
    destruct (db_step_run ev ap w2) as (phErr & Hr3 & Hl3 & _);
    destruct (db_step ev ap w2) as [c w3] end.
  cbn [fst snd] in Hr3, Hl3. subst c.
  unfold bind at 1 in H.
  match type of H with context [generate_steps ?c ?p ?i ?l ?b ?g w3] =>
    destruct (generate_steps c p i l b g w3) as [[[ip gen]|e] w4] eqn:Hgen end;
    [|discriminate].
  apply generate_steps_spec in Hgen as (rows & evs & Hgen & Hk & Hp & Hl4 & Htr).
  cbn [app] in Hgen. subst gen.
  rewrite fix_titles_keys, (normalizeOutline_keys _ _ _ _ Ho) in Hk.
  unfold finalize in H.
  destruct ip; cbn [negb] in H.
  - (* incremental persistence stayed on: no update failed *)
    exfalso. unfold ret in H. inversion H; subst w4.
    rewrite Hl4, Hl3, Hl2, Hl, <- !app_assoc in Hev. apply app_inv_head in Hev. subst events.
    destruct Htr as [(_ & Hc & _) | [(_ & _ & Hf) | (_ & Hc & _)]]; try discriminate.
    cbn [app In] in Hup. destruct Hup as [Hc | [Hc | Hin]]; try discriminate.
    exact (ok_update_not_failed _ _ _ _ Hf Hin).
  - unfold bind at 1 in H. unfold delete_steps in H.
    match type of H with context [db_step ?ev ?ap w4] =>
      destruct (db_step_run ev ap w4) as (d & Hr5 & Hl5 & Ht5);
      destruct (db_step ev ap w4) as [c w5] end.
    cbn [fst snd] in Hr5, Hl5, Ht5. subst c.
    unfold bind at 1 in H. unfold insert_steps in H.
    match type of H with context [db_step ?ev ?ap w5] =>
      destruct (db_step_run ev ap w5) as (r & Hr6 & Hl6 & Ht6);
      destruct (db_step ev ap w5) as [c w6] end.
    cbn [fst snd] in Hr6, Hl6, Ht6. subst c.
    destruct r as [id|detail]; unfold ret in H; inversion H; subst w6 resp; clear H;
      [|discriminate].
    cbn [db_failed negb] in Hl6, Ht6.
    rewrite Hl6, Hl5, Hl4, Hl3, Hl2, Hl, <- !app_assoc in Hev.
    apply app_inv_head in Hev. subst events.
    destruct Htr as [(_ & _ & ->) | [(_ & Hc & _) | (Hb & _ & oks & k & -> & Hf)]];
      try discriminate.
    + (* the placeholder insert had failed: no update at all *)
      exfalso. cbn [app In] in Hup.
      destruct Hup as [Hc | [Hc | [Hc | [Hc | []]]]]; discriminate.
    + assert (Hph : negb (db_failed phErr) = true) by exact Hb.
      rewrite Hph in Hup, Hdel |- *.
      (* the failed update of the hypothesis is the one that ended the updates *)
      assert (Hkey : plan = plan0 /\ key = k).
      { cbn [app In] in Hup. destruct Hup as [Hc | [Hc | Hin]]; try discriminate.
        rewrite <- app_assoc in Hin. apply in_app_or in Hin as [Hin | Hin].
        - exfalso. exact (ok_update_not_failed _ _ _ _ Hf Hin).
        - cbn [app In] in Hin. destruct Hin as [Hc | [Hc | [Hc | []]]]; try discriminate.
          inversion Hc; auto. }
      destruct Hkey as (-> & ->).
      assert (Hd : negb (db_failed d) = true).
      { cbn [app In] in Hdel. destruct Hdel as [Hc | [Hc | Hin]]; try discriminate.
        rewrite <- app_assoc in Hin. apply in_app_or in Hin as [Hin | Hin].
        - exfalso. rewrite Forall_forall in Hf. destruct (Hf _ Hin) as (k' & Hk'). discriminate.
        - cbn [app In] in Hin. destruct Hin as [Hc | [Hc | [Hc | []]]]; try discriminate.
          inversion Hc; auto. }
      rewrite Hd. apply negb_true_iff in Hd. rewrite Hd in Ht5.
      eexists _, rows, _, _, oks.
      split; [reflexivity|].
      split; [rewrite Ht6, Ht5; apply rows_of_after_bulk; exact Hp|].
      assert (Hlen : List.length rows = List.length (steps o0)).
      { rewrite <- (length_map step_key rows), Hk. unfold step_keys.
        rewrite length_map, length_seq. reflexivity. }
      split; [rewrite Hlen; apply (normalizeOutline_length _ _ _ _ Ho)|].
      split; [rewrite Hk, Hlen; reflexivity|].
      split; [rewrite Hk; apply step_keys_NoDup|].
      split; [exact Hf|].
      rewrite <- !app_assoc. reflexivity.
Qed.

Lemma bulk_fallback_witness :
  handleGeneratePlan demo_env demo_body fallback_world
  = (Normal fallback_response, snd (handleGeneratePlan demo_env demo_body fallback_world))
  /\ exists count rows row placeholders oks,
      http_body fallback_response
      = PlanBody (lit "generate_plan") (lit "plan-1") (FAST_MODEL demo_env) count rows
      /\ rows_of (lit "plan-1")
           (plan_steps (snd (handleGeneratePlan demo_env demo_body fallback_world))) = rows
      /\ List.length rows = Z.to_nat count
      /\ map step_key rows = step_keys (List.length rows)
      /\ NoDup (map step_key rows)
      /\ Forall (ok_update (lit "plan-1")) oks
      /\ db_log (snd (handleGeneratePlan demo_env demo_body fallback_world))
         = [InsertPlan row true; InsertSteps placeholders true] ++ oks
           ++ [UpdateStep (lit "plan-1") (lit "step_2") false;
               DeleteSteps (lit "plan-1") true; InsertSteps rows true].
Proof.
  split; [vm_compute; reflexivity|].
  apply (bulk_fallback_persists_generated_rows demo_env demo_body fallback_world
           (snd (handleGeneratePlan demo_env demo_body fallback_world)) fallback_response
           (db_log (snd (handleGeneratePlan demo_env demo_body fallback_world)))
           (lit "plan-1") (lit "step_2")).
  - vm_compute; reflexivity.
  - reflexivity.
  - reflexivity.
  - vm_compute. repeat (first [left; reflexivity | right]).
  - vm_compute. repeat (first [left; reflexivity | right]).
Defined.

(** ** The output sanitizer *)

(** *** Code units *)

Lemma terminal_cases p : is_terminal p = true -> p = 46 \/ p = 33 \/ p = 63.
Proof.
  unfold is_terminal. intros H.
  apply orb_true_iff in H as [H | H]; [apply orb_true_iff in H as [H | H]|];
    apply Z.eqb_eq in H; auto.
Qed.

Lemma terminal_not_ws p : is_terminal p = true -> is_ws p = false.
Proof. intros H. destruct (terminal_cases p H) as [-> | [-> | ->]]; reflexivity. Qed.

Lemma terminal_not_curly p : is_terminal p = true -> is_curly p = false.
Proof. intros H. destruct (terminal_cases p H) as [-> | [-> | ->]]; reflexivity. Qed.

Lemma ws_not_curly c : is_ws c = true -> is_curly c = false.
Proof.
  unfold is_curly. intros H.
  destruct (c =? 8220) eqn:E1; [apply Z.eqb_eq in E1; subst; discriminate|].
  destruct (c =? 8221) eqn:E2; [apply Z.eqb_eq in E2; subst; discriminate|].
  destruct (c =? 8216) eqn:E3; [apply Z.eqb_eq in E3; subst; discriminate|].
  destruct (c =? 8217) eqn:E4; [apply Z.eqb_eq in E4; subst; discriminate|].
  reflexivity.
Qed.

Lemma straighten_not_curly c :
  is_curly (straighten_single (straighten_double c)) = false.
Proof.
  unfold straighten_double, straighten_single, is_curly.
  destruct (c =? 8220) eqn:E1; [reflexivity|].
  destruct (c =? 8221) eqn:E2; [reflexivity|]. cbn [orb].
  destruct (c =? 8216) eqn:E3; [reflexivity|].
  destruct (c =? 8217) eqn:E4; [reflexivity|]. cbn [orb].
  rewrite E1, E2, E3, E4. reflexivity.
Qed.

Lemma straighten_fix c :
  is_curly c = false -> straighten_single (straighten_double c) = c.
Proof.
  unfold straighten_double, straighten_single, is_curly. intros H.
  destruct (c =? 8220); [discriminate|].
  destruct (c =? 8221); [discriminate|]. cbn [orb] in *.
  destruct (c =? 8216); [discriminate|].
  destruct (c =? 8217); [discriminate|]. reflexivity.
Qed.

Lemma straighten_ws c :
  is_ws (straighten_single (straighten_double c)) = is_ws c.
Proof.
  destruct (is_curly c) eqn:E; [|rewrite straighten_fix; auto].
  unfold is_curly in E. unfold straighten_double, straighten_single.
  destruct (c =? 8220) eqn:E1; [apply Z.eqb_eq in E1; subst; reflexivity|].
  destruct (c =? 8221) eqn:E2; [apply Z.eqb_eq in E2; subst; reflexivity|].
  cbn [orb] in *.
  destruct (c =? 8216) eqn:E3; [apply Z.eqb_eq in E3; subst; reflexivity|].
  destruct (c =? 8217) eqn:E4; [apply Z.eqb_eq in E4; subst; reflexivity|].
  discriminate.
Qed.

(** *** trim *)

Lemma trimStart_length s : (List.length (trimStart s) <= List.length s)%nat.
Proof.
  induction s as [|c r IH]; simpl; [lia|]. destruct (is_ws c); simpl; lia.
Qed.

Lemma trimEnd_length s : (List.length (trimEnd s) <= List.length s)%nat.
Proof.
  induction s as [|c r IH]; simpl; [lia|].
  destruct (trimEnd r); [destruct (is_ws c)|]; simpl in *; lia.
Qed.

Lemma trim_length s : (List.length (trim s) <= List.length s)%nat.
Proof.
  unfold trim. pose proof (trimEnd_length (trimStart s)). pose proof (trimStart_length s). lia.
Qed.

Lemma trimStart_snoc x p :
  is_ws p = false -> trimStart (x ++ [p]) = trimStart x ++ [p].
Proof.
  intros Hp. induction x as [|c r IH]; simpl; [rewrite Hp; reflexivity|].
  destruct (is_ws c); [exact IH | reflexivity].
Qed.

Lemma trimEnd_snoc x p : is_ws p = false -> trimEnd (x ++ [p]) = x ++ [p].
Proof.
  intros Hp. induction x as [|c r IH]; simpl; [rewrite Hp; reflexivity|].
  rewrite IH. destruct r; reflexivity.
Qed.

Lemma trimStart_fix_iff s :
  trimStart s = s <-> match s with c :: _ => is_ws c = false | [] => True end.
Proof.
  destruct s as [|c r]; simpl; [tauto|].
  destruct (is_ws c) eqn:E; split; intros H; try reflexivity; try discriminate.
  pose proof (trimStart_length r) as Hl. rewrite H in Hl. simpl in Hl. lia.
Qed.

Lemma trimStart_idem s : trimStart (trimStart s) = trimStart s.
Proof.
  induction s as [|c r IH]; simpl; [reflexivity|].
  destruct (is_ws c) eqn:E; [exact IH|]. simpl. rewrite E. reflexivity.
Qed.

Lemma trimEnd_cons c r :
  trimEnd (c :: r)
  = match trimEnd r with
    | [] => if is_ws c then [] else [c]
    | d :: r' => c :: d :: r'
    end.
Proof. reflexivity. Qed.

Lemma trimEnd_idem s : trimEnd (trimEnd s) = trimEnd s.
Proof.
  induction s as [|c r IH]; [reflexivity|].
  rewrite trimEnd_cons.
  destruct (trimEnd r) as [|d r'] eqn:E.
  - destruct (is_ws c) eqn:Ec; simpl; [reflexivity | rewrite Ec; reflexivity].
  - rewrite trimEnd_cons, IH. reflexivity.
Qed.

Lemma trimStart_trimEnd y : trimStart y = y -> trimStart (trimEnd y) = trimEnd y.
Proof.
  intros H. apply trimStart_fix_iff in H. apply trimStart_fix_iff.
  destruct y as [|c r]; simpl; [exact I|].
  destruct (trimEnd r); [rewrite H|]; exact H.
Qed.

Lemma trim_tidy s : trimStart (trim s) = trim s /\ trimEnd (trim s) = trim s.
Proof.
  unfold trim. split; [apply trimStart_trimEnd, trimStart_idem | apply trimEnd_idem].
Qed.

Lemma trim_fix s : trimStart s = s -> trimEnd s = s -> trim s = s.
Proof. unfold trim. intros -> ->. reflexivity. Qed.

Lemma trimStart_length_eq x :
  List.length (trimStart x) = List.length x -> trimStart x = x.
Proof.
  destruct x as [|c r]; simpl; [reflexivity|].
  destruct (is_ws c); [|reflexivity].
  intros H. pose proof (trimStart_length r). lia.
Qed.

Lemma trimEnd_length_eq x :
  List.length (trimEnd x) = List.length x -> trimEnd x = x.
Proof.
  induction x as [|c r IH]; simpl; [reflexivity|].
  pose proof (trimEnd_length r) as Hl.
  destruct (trimEnd r) as [|d r'] eqn:E.
  - destruct (is_ws c); simpl; intros H; [lia|].
    destruct r; [reflexivity | simpl in H; lia].
  - simpl. intros H. f_equal. apply IH. simpl. lia.
Qed.

Lemma trim_length_eq x : List.length (trim x) = List.length x -> trim x = x.
Proof.
  unfold trim. intros H.
  pose proof (trimEnd_length (trimStart x)). pose proof (trimStart_length x).
  assert (Hs : trimStart x = x) by (apply trimStart_length_eq; lia).
  rewrite Hs in *. apply trimEnd_length_eq. exact H.
Qed.

(** *** Single spaces *)

Lemma spaced_weaken b s : spaced b s = true -> spaced false s = true.
Proof.
  destruct s as [|c r]; simpl; [reflexivity|].
  destruct (is_ws c); [|auto]. destruct b; [|auto].
  rewrite andb_false_r. discriminate.
Qed.

Lemma collapse_spaced s : forall b, spaced b (collapse_ws_go b s) = true.
Proof.
  induction s as [|c r IH]; intros b; simpl; [reflexivity|].
  destruct (is_ws c) eqn:E.
  - destruct b; [apply IH|]. simpl. rewrite IH. reflexivity.
  - simpl. rewrite E. apply IH.
Qed.

Lemma collapse_fix s : forall b, spaced b s = true -> collapse_ws_go b s = s.
Proof.
  induction s as [|c r IH]; intros b; simpl; [reflexivity|].
  destruct (is_ws c) eqn:E.
  - intros H. apply andb_true_iff in H as (H & Hr).
    apply andb_true_iff in H as (Hc & Hb). apply Z.eqb_eq in Hc. subst c.
    destruct b; [discriminate|]. rewrite (IH true Hr). reflexivity.
  - intros H. rewrite (IH false H). reflexivity.
Qed.

Lemma spaced_straighten s : forall b,
  spaced b (map straighten_single (map straighten_double s)) = spaced b s.
Proof.
  induction s as [|c r IH]; intros b; simpl; [reflexivity|].
  rewrite straighten_ws. destruct (is_ws c) eqn:E; [|apply IH].
  rewrite IH, straighten_fix; [reflexivity | apply ws_not_curly; exact E].
Qed.

Lemma spaced_trimStart s : forall b b',
  spaced b s = true -> spaced b' (trimStart s) = true.
Proof.
  induction s as [|c r IH]; intros b b'; simpl; [reflexivity|].
  destruct (is_ws c) eqn:E.
  - intros H. apply andb_true_iff in H as (_ & Hr). apply (IH true b' Hr).
  - intros H. simpl. rewrite E. exact H.
Qed.

Lemma spaced_trimEnd s : forall b, spaced b s = true -> spaced b (trimEnd s) = true.
Proof.
  induction s as [|c r IH]; intros b; [reflexivity|].
  rewrite trimEnd_cons. simpl.
  destruct (is_ws c) eqn:E.
  - intros H. apply andb_true_iff in H as (Hc & Hr).
    specialize (IH true Hr). destruct (trimEnd r) as [|d r']; [reflexivity|].
    simpl. rewrite E, Hc. exact IH.
  - intros H. specialize (IH false H). destruct (trimEnd r) as [|d r'].
    + simpl. rewrite E. reflexivity.
    + simpl. rewrite E. exact IH.
Qed.

Lemma spaced_trim b s : spaced b s = true -> spaced false (trim s) = true.
Proof.
  intros H. unfold trim. apply spaced_trimEnd. apply (spaced_trimStart s b false H).
Qed.

Lemma spaced_firstn n : forall s b, spaced b s = true -> spaced b (firstn n s) = true.
Proof.
  induction n as [|n IH]; intros s b; [reflexivity|].
  destruct s as [|c r]; simpl; [reflexivity|].
  destruct (is_ws c).
  - intros H. apply andb_true_iff in H as (Hc & Hr). rewrite Hc. apply IH; exact Hr.
  - apply IH.
Qed.

Lemma spaced_snoc s c : forall b,
  spaced b s = true -> is_ws c = false -> spaced b (s ++ [c]) = true.
Proof.
  induction s as [|d r IH]; intros b; simpl.
  - intros _ ->. reflexivity.
  - destruct (is_ws d).
    + intros H Hc. apply andb_true_iff in H as (Hd & Hr). rewrite Hd. apply IH; assumption.
    + apply IH.
Qed.

(** *** Straight quotes *)

Lemma no_curly_straighten s :
  no_curly (map straighten_single (map straighten_double s)) = true.
Proof.
  induction s as [|c r IH]; simpl; [reflexivity|].
  rewrite straighten_not_curly. exact IH.
Qed.

Lemma straighten_all_fix s :
  no_curly s = true -> map straighten_single (map straighten_double s) = s.
Proof.
  induction s as [|c r IH]; simpl; [reflexivity|].
  intros H. apply andb_true_iff in H as (Hc & Hr).
  apply negb_true_iff in Hc. rewrite (straighten_fix c Hc), (IH Hr). reflexivity.
Qed.

Lemma no_curly_trimStart s : no_curly s = true -> no_curly (trimStart s) = true.
Proof.
  induction s as [|c r IH]; simpl; [reflexivity|].
  intros H. destruct (is_ws c); [|exact H].
  apply andb_true_iff in H as (_ & Hr). apply IH; exact Hr.
Qed.

Lemma no_curly_trimEnd s : no_curly s = true -> no_curly (trimEnd s) = true.
Proof.
  induction s as [|c r IH]; [reflexivity|].
  rewrite trimEnd_cons. simpl. intros H. apply andb_true_iff in H as (Hc & Hr).
  specialize (IH Hr). destruct (trimEnd r) as [|d r'].
  - destruct (is_ws c); simpl; [reflexivity | rewrite Hc; reflexivity].
  - change (no_curly (c :: d :: r')) with (negb (is_curly c) && no_curly (d :: r')).
    rewrite Hc, IH. reflexivity.
Qed.

Lemma no_curly_trim s : no_curly s = true -> no_curly (trim s) = true.
Proof. intros H. unfold trim. apply no_curly_trimEnd, no_curly_trimStart, H. Qed.

Lemma no_curly_collapse s : forall b,
  no_curly s = true -> no_curly (collapse_ws_go b s) = true.
Proof.
  induction s as [|c r IH]; intros b; simpl; [reflexivity|].
  intros H. apply andb_true_iff in H as (Hc & Hr).
  destruct (is_ws c); [destruct b|]; simpl; rewrite ?Hc; apply IH; exact Hr.
Qed.

Lemma no_curly_remove m s : forall k,
  no_curly s = true -> no_curly (remove_go m k s) = true.
Proof.
  induction s as [|c r IH]; intros k; simpl; [reflexivity|].
  intros H. apply andb_true_iff in H as (Hc & Hr).
  destruct k; [|apply IH; exact Hr].
  destruct (m (c :: r)) as [[|n]|]; simpl; rewrite ?Hc; apply IH; exact Hr.
Qed.

Lemma no_curly_firstn n : forall s, no_curly s = true -> no_curly (firstn n s) = true.
Proof.
  induction n as [|n IH]; intros s; [reflexivity|].
  destruct s as [|c r]; simpl; [reflexivity|].
  intros H. apply andb_true_iff in H as (Hc & Hr). rewrite Hc. apply IH; exact Hr.
Qed.

Lemma no_curly_snoc s c :
  no_curly s = true -> is_curly c = false -> no_curly (s ++ [c]) = true.
Proof.
  intros Hs Hc. unfold no_curly in *. rewrite forallb_app, Hs. simpl. rewrite Hc. reflexivity.
Qed.

(** *** Lengths *)

Lemma collapse_length s : forall b,
  (List.length (collapse_ws_go b s) <= List.length s)%nat.
Proof.
  induction s as [|c r IH]; intros b; simpl; [lia|].
  destruct (is_ws c); [destruct b|]; simpl.
  - specialize (IH true). lia.
  - specialize (IH true). lia.
  - specialize (IH false). lia.
Qed.

Lemma remove_length m s : forall k,
  (List.length (remove_go m k s) <= List.length s)%nat.
Proof.
  induction s as [|c r IH]; intros k; simpl; [lia|].
  destruct k; [|specialize (IH k); lia].
  destruct (m (c :: r)) as [[|n]|]; simpl.
  - specialize (IH O). lia.
  - specialize (IH n). lia.
  - specialize (IH O). lia.
Qed.

(** *** The last code unit *)

Lemma collapse_snoc x p : forall b,
  is_ws p = false -> collapse_ws_go b (x ++ [p]) = collapse_ws_go b x ++ [p].
Proof.
  intros b Hp. revert b. induction x as [|c r IH]; intros b; simpl.
  - rewrite Hp. reflexivity.
  - destruct (is_ws c); [destruct b|]; rewrite IH; reflexivity.
Qed.

Lemma iprefix_snoc w p : forall y,
  forallb (fun wc => negb (lower p =? wc)) w = true ->
  iprefix w (y ++ [p])
  = match iprefix w y with Some rest => Some (rest ++ [p]) | None => None end.
Proof.
  induction w as [|wc wr IH]; intros y H; simpl; [reflexivity|].
  simpl in H. apply andb_true_iff in H as (Hc & Hr). apply negb_true_iff in Hc.
  destruct y as [|c y']; simpl.
  - rewrite Hc. reflexivity.
  - destruct (lower c =? wc); [apply IH; exact Hr | reflexivity].
Qed.

Lemma boundary_snoc rest p :
  is_word_char p = false -> boundary (rest ++ [p]) = boundary rest.
Proof. intros Hp. destruct rest; simpl; [rewrite Hp|]; reflexivity. Qed.

Lemma garbage_word_snoc n w y p :
  forallb (fun wc => negb (lower p =? wc)) w = true -> is_word_char p = false ->
  garbage_word (S n) w (y ++ [p]) = garbage_word n w y.
Proof.
  intros Hw Hp. unfold garbage_word. rewrite (iprefix_snoc w p y Hw).
  destruct (iprefix w y) as [rest|]; [|reflexivity].
  rewrite boundary_snoc by exact Hp. destruct (boundary rest); [|reflexivity].
  rewrite length_app. cbn [List.length]. f_equal. lia.
Qed.

Lemma garbage_word_le n w y k : garbage_word n w y = Some k -> (k <= n)%nat.
Proof.
  unfold garbage_word. destruct (iprefix w y) as [rest|]; [|discriminate].
  destruct (boundary rest); [|discriminate]. intros H; inversion H. lia.
Qed.

Lemma m_garbage_le s k : m_garbage s = Some k -> (k <= List.length s)%nat.
Proof.
  destruct s as [|c r]; [discriminate|]. cbn [m_garbage].
  destruct (c =? 39); [|discriminate]. unfold or_else.
  destruct (garbage_word _ (lit "end-user") _) eqn:E1;
    [intros H; inversion H; subst; eapply garbage_word_le; exact E1|].
  destruct (garbage_word _ (lit "thelived") _) eqn:E2;
    [intros H; inversion H; subst; eapply garbage_word_le; exact E2|].
  intros H. eapply garbage_word_le; exact H.
Qed.

Lemma ends_terminal_snoc x c : ends_terminal (x ++ [c]) = is_terminal c.
Proof. unfold ends_terminal. rewrite rev_unit. reflexivity. Qed.

Lemma ends_terminal_inv t :
  ends_terminal t = true -> exists x p, t = x ++ [p] /\ is_terminal p = true.
Proof.
  unfold ends_terminal. destruct (rev t) as [|c l] eqn:E; [discriminate|].
  intros H. exists (rev l), c. split; [|exact H].
  rewrite <- (rev_involutive t), E. reflexivity.
Qed.

(** A text that ends in terminal punctuation: the final character is neither
    white space nor part of a removed fragment, so every normalisation pass
    leaves it at the end. *)
Section TerminalPunctuation.

Variable p : char.
Hypothesis Hp : is_terminal p = true.

Let Hws : is_ws p = false := terminal_not_ws p Hp.

Lemma m_garbage_snoc c r : m_garbage ((c :: r) ++ [p]) = m_garbage (c :: r).
Proof.
  cbn [app m_garbage]. destruct (c =? 39); [|reflexivity].
  rewrite (trimStart_snoc r p Hws).
  change (List.length (c :: r ++ [p])) with (S (List.length (r ++ [p]))).
  rewrite length_app. cbn [List.length]. rewrite Nat.add_1_r.
  change (S (List.length r)) with (List.length (c :: r)).
  destruct (terminal_cases p Hp) as [E | [E | E]]; rewrite E;
    rewrite !garbage_word_snoc by reflexivity; reflexivity.
Qed.

Lemma m_garbage_terminal : m_garbage [p] = None.
Proof. destruct (terminal_cases p Hp) as [E | [E | E]]; rewrite E; reflexivity. Qed.

Lemma remove_garbage_snoc x : forall k,
  (k <= List.length x)%nat ->
  remove_go m_garbage k (x ++ [p]) = remove_go m_garbage k x ++ [p].
Proof.
  induction x as [|c r IH]; intros k Hk.
  - simpl in Hk. assert (k = O) by lia. subst k. cbn [app remove_go].
    rewrite m_garbage_terminal. reflexivity.
  - change ((c :: r) ++ [p]) with (c :: (r ++ [p])). cbn [remove_go].
    destruct k as [|k]; [|apply IH; simpl in Hk; lia].
    change (c :: (r ++ [p])) with ((c :: r) ++ [p]) at 1.
    rewrite (m_garbage_snoc c r).
    destruct (m_garbage (c :: r)) as [[|n]|] eqn:E.
    + rewrite IH by lia. reflexivity.
    + apply m_garbage_le in E. simpl in E. apply IH. lia.
    + rewrite IH by lia. reflexivity.
Qed.

Lemma tidy_snoc x : exists y, tidy (x ++ [p]) = y ++ [p].
Proof.
  unfold tidy, collapse_ws. rewrite (collapse_snoc x p false Hws), !map_app.
  cbn [map]. rewrite (straighten_fix p (terminal_not_curly p Hp)).
  unfold trim. rewrite (trimStart_snoc _ p Hws), (trimEnd_snoc _ p Hws). eauto.
Qed.

Lemma retidy_snoc x : exists y, retidy (x ++ [p]) = y ++ [p].
Proof.
  unfold retidy, collapse_ws. rewrite (collapse_snoc x p false Hws).
  unfold trim. rewrite (trimStart_snoc _ p Hws), (trimEnd_snoc _ p Hws). eauto.
Qed.

(** The terminal punctuation that ends a text still ends it after the
    normalisations. *)
Lemma normalised_snoc x : exists y, normalised (x ++ [p]) = y ++ [p].
Proof.
  unfold normalised.
  destruct (tidy_snoc x) as (y1 & ->).
  unfold strip_garbage, remove_all.
  rewrite (remove_garbage_snoc y1 O) by lia.
  apply retidy_snoc.
Qed.

End TerminalPunctuation.

Lemma normalised_length s : strlen (normalised s) <= strlen s.
Proof.
  unfold normalised, retidy, strip_garbage, remove_all, tidy, collapse_ws, strlen.
  apply Nat2Z.inj_le.
  eapply Nat.le_trans; [apply trim_length|].
  eapply Nat.le_trans; [apply collapse_length|].
  eapply Nat.le_trans; [apply remove_length|].
  eapply Nat.le_trans; [apply trim_length|].
  rewrite !length_map. apply collapse_length.
Qed.

Lemma normalised_tidy_form s : tidy_form (normalised s).
Proof.
  unfold normalised, retidy. unfold tidy_form.
  split; [eapply spaced_trim; apply collapse_spaced|].
  split.
  { apply no_curly_trim, no_curly_collapse. unfold strip_garbage, remove_all.
    apply no_curly_remove. unfold tidy. apply no_curly_trim, no_curly_straighten. }
  apply trim_tidy.
Qed.

(** *** Truncation *)

Lemma lastIndexOf_from_snoc x c : forall i b acc,
  (c =? 32) = false ->
  lastIndexOf_from i (x ++ [c]) [32] b acc = lastIndexOf_from i x [32] b acc.
Proof.
  intros i b acc Hc. revert i acc.
  induction x as [|d r IH]; intros i acc.
  - cbn [app lastIndexOf_from startsWith]. rewrite Hc. cbn [andb].
    rewrite !andb_false_r. reflexivity.
  - change ((d :: r) ++ [c]) with (d :: (r ++ [c])).
    cbn [lastIndexOf_from startsWith]. apply IH.
Qed.

Lemma lastIndexOf_from_range s : forall i b acc,
  lastIndexOf_from i s [32] b acc = acc
  \/ i <= lastIndexOf_from i s [32] b acc < i + Z.of_nat (List.length s).
Proof.
  induction s as [|d r IH]; intros i b acc.
  - cbn [lastIndexOf_from startsWith]. rewrite andb_false_r. left; reflexivity.
  - cbn [lastIndexOf_from].
    set (acc' := if (i <=? b) && startsWith (d :: r) [32] then i else acc).
    destruct (IH (i + 1) b acc') as [H | H].
    + rewrite H. unfold acc'. destruct ((i <=? b) && startsWith (d :: r) [32]); [|left; reflexivity].
      right. cbn [List.length]. lia.
    + right. cbn [List.length]. lia.
Qed.

Lemma slice_zero t z :
  slice t 0 z = firstn (Z.to_nat (rel_index (strlen t) z)) t.
Proof.
  unfold slice. unfold rel_index at 2 3. cbn [Z.ltb Z.compare].
  assert (H : Z.min 0 (strlen t) = 0) by (unfold strlen; lia).
  rewrite H. cbn [Z.to_nat skipn]. rewrite Z.sub_0_r. reflexivity.
Qed.

Lemma slice_init x p : slice (x ++ [p]) 0 (strlen x) = x.
Proof.
  rewrite slice_zero. unfold rel_index, strlen.
  destruct (Z.of_nat (List.length x) <? 0) eqn:E; [apply Z.ltb_lt in E; lia|].
  rewrite length_app. cbn [List.length].
  rewrite Z.min_l by lia. rewrite Nat2Z.id.
  rewrite firstn_app, Nat.sub_diag, firstn_all. cbn [firstn]. apply app_nil_r.
Qed.

Lemma slice_zero_length t z :
  0 <= z -> strlen (slice t 0 z) <= z.
Proof.
  intros Hz. rewrite slice_zero. unfold rel_index, strlen.
  destruct (z <? 0) eqn:E; [apply Z.ltb_lt in E; lia|].
  rewrite length_firstn. lia.
Qed.

Lemma tidy_form_truncate t m : tidy_form t -> tidy_form (truncate t m).
Proof.
  intros (Hs & Hc & Ht). unfold truncate.
  destruct (m <? strlen t); [|repeat split; tauto].
  assert (H : forall z, tidy_form (trim (slice t 0 z))).
  { intros z. rewrite slice_zero. unfold tidy_form.
    split; [eapply spaced_trim; apply spaced_firstn; exact Hs|].
    split; [apply no_curly_trim, no_curly_firstn; exact Hc|].
    apply trim_tidy. }
  destruct (20 <? lastIndexOf t [32] m); apply H.
Qed.

Lemma punctuate_cases u :
  (punctuate u = u /\ (u = [] \/ ends_terminal u = true))
  \/ (punctuate u = u ++ [46] /\ u <> [] /\ ends_terminal u = false).
Proof.
  unfold punctuate. destruct u as [|c r]; [left; auto|].
  destruct (ends_terminal (c :: r)); [left; auto|].
  right. repeat split. discriminate.
Qed.

Lemma punctuate_idem u : punctuate (punctuate u) = punctuate u.
Proof.
  destruct (punctuate_cases u) as [(H & _) | (H & Hn & _)]; rewrite !H; [reflexivity|].
  unfold punctuate. destruct (u ++ [46]) eqn:E; [reflexivity|].
  rewrite <- E, ends_terminal_snoc. reflexivity.
Qed.

Lemma tidy_form_punctuate u : tidy_form u -> tidy_form (punctuate u).
Proof.
  intros (Hs & Hc & Hts & Hte).
  destruct (punctuate_cases u) as [(-> & _) | (-> & Hn & _)]; [repeat split; assumption|].
  unfold tidy_form.
  split; [apply spaced_snoc; [exact Hs | reflexivity]|].
  split; [apply no_curly_snoc; [exact Hc | reflexivity]|].
  split; [|apply trimEnd_snoc; reflexivity].
  apply trimStart_fix_iff. apply trimStart_fix_iff in Hts.
  destruct u; [contradiction | exact Hts].
Qed.

Lemma tidy_form_fix r : tidy_form r -> tidy r = r /\ retidy r = r.
Proof.
  intros (Hs & Hc & Hts & Hte). unfold tidy, retidy, collapse_ws.
  rewrite (collapse_fix r false Hs), (straighten_all_fix r Hc), (trim_fix r Hts Hte).
  split; reflexivity.
Qed.

Lemma clean_nil m : clean [] m = [].
Proof.
  unfold clean. change (retidy (strip_garbage (tidy []))) with (@nil char).
  unfold truncate. destruct (m <? strlen []); [|reflexivity].
  unfold lastIndexOf. cbn [lastIndexOf_from startsWith]. rewrite andb_false_r.
  cbn [Z.ltb Z.compare]. rewrite slice_zero. rewrite firstn_nil. reflexivity.
Qed.

(** What the first pass of [clean] leaves, for a text within the
    invariants: a tidy text that is empty, or no longer than [maxLen], or
    [maxLen] code units hard-cut and closed by a period. *)
Lemma clean_shape s m :
  clean_invariant s m ->
  tidy_form (clean s m)
  /\ (clean s m = []
      \/ strlen (clean s m) <= m
      \/ exists x, clean s m = x ++ [46] /\ strlen x = m /\ x <> []
                   /\ ends_terminal x = false /\ trim x = x
                   /\ lastIndexOf (x ++ [46]) [32] m <= 20).
Proof.
  intros (Hlen & Hend). split.
  { unfold clean. apply tidy_form_punctuate, tidy_form_truncate.
    apply (normalised_tidy_form s). }
  destruct Hend as [-> | Hend]; [left; apply clean_nil|].
  right.
  apply ends_terminal_inv in Hend as (x0 & p & -> & Hp).
  pose proof (normalised_length (x0 ++ [p])) as Hnl.
  destruct (normalised_snoc p Hp x0) as (y & Hy).
  unfold clean. fold (normalised (x0 ++ [p])). rewrite Hy in *.
  assert (Hp32 : (p =? 32) = false).
  { destruct (terminal_cases p Hp) as [-> | [-> | ->]]; reflexivity. }
  assert (Hty : strlen (y ++ [p]) = strlen y + 1).
  { unfold strlen. rewrite length_app. cbn [List.length]. lia. }
  unfold truncate. destruct (m <? strlen (y ++ [p])) eqn:Hm.
  2:{ apply Z.ltb_ge in Hm. left.
      destruct (punctuate_cases (y ++ [p])) as [(-> & _) | (_ & _ & Hc)]; [exact Hm|].
      rewrite ends_terminal_snoc, Hp in Hc. discriminate. }
  apply Z.ltb_lt in Hm.
  assert (Hym : strlen y = m) by lia.
  assert (Hsame : lastIndexOf (y ++ [p]) [32] m = lastIndexOf y [32] m).
  { unfold lastIndexOf. apply lastIndexOf_from_snoc. exact Hp32. }
  cbv zeta. rewrite Hsame.
  assert (Hcut : lastIndexOf y [32] m = -1 \/ 0 <= lastIndexOf y [32] m < m).
  { unfold lastIndexOf.
    destruct (lastIndexOf_from_range y 0 (Z.max 0 m) (-1)) as [H | H]; [left; exact H|].
    right. unfold strlen in Hym. lia. }
  destruct (20 <? lastIndexOf y [32] m) eqn:Hc.
  - apply Z.ltb_lt in Hc. left.
    set (u := trim (slice (y ++ [p]) 0 (lastIndexOf y [32] m))).
    assert (Hu : strlen u <= m - 1).
    { pose proof (slice_zero_length (y ++ [p]) (lastIndexOf y [32] m) ltac:(lia)) as Hsl.
      pose proof (trim_length (slice (y ++ [p]) 0 (lastIndexOf y [32] m))) as Htl.
      unfold u, strlen in *. lia. }
    destruct (punctuate_cases u) as [(-> & _) | (-> & _ & _)]; [lia|].
    unfold strlen in *. rewrite length_app. cbn [List.length]. lia.
  - apply Z.ltb_ge in Hc.
    assert (Hsl : slice (y ++ [p]) 0 m = y) by (rewrite <- Hym; apply slice_init).
    rewrite Hsl.
    pose proof (trim_length y) as Htl.
    destruct (punctuate_cases (trim y)) as [(-> & _) | (-> & Hn & He)].
    { left. unfold strlen in *. lia. }
    destruct (Z.eq_dec (strlen (trim y)) m) as [Heq | Hne].
    + right. assert (Hty' : trim y = y).
      { apply trim_length_eq. unfold strlen in *. lia. }
      rewrite Hty' in *. exists y.
      split; [reflexivity|]. split; [exact Heq|]. split; [exact Hn|].
      split; [exact He|]. split; [exact Hty'|].
      unfold lastIndexOf. rewrite (lastIndexOf_from_snoc y 46 0 _ _ eq_refl).
      exact Hc.
    + left. unfold strlen in *. rewrite length_app. cbn [List.length]. lia.
Qed.

Lemma strlen_snoc x c : strlen (x ++ [c]) = strlen x + 1.
Proof. unfold strlen. rewrite length_app. cbn [List.length]. lia. Qed.

(** C9 (as the claim states it) fails: the text [''ty ty.] meets the
    invariants for maxLen = 120, and cleaning it twice does not give
    what cleaning it once gives. The one removal pass strips ['ty] and
    leaves [' ty.], in which the next pass finds the fragment [' ty]. *)
Lemma cleanText_twice_counterexample :
  strlen cascade_text <= 120 + 1
  /\ ends_terminal cascade_text = true
  /\ cleanText (VStr cascade_text) 120 = Normal (lit "' ty.")
  /\ cleanText (VStr (lit "' ty.")) 120 = Normal (lit ".").
Proof. repeat split; vm_compute; try reflexivity; discriminate. Qed.

(** C9 (amended): for a text [s] within the invariants of [clean] for
    [maxLen] (at most [maxLen] + 1 code units, terminal punctuation at
    the end unless empty), if the removal of garbage fragments finds
    nothing left in the cleaned text, cleaning the cleaned text again
    gives it back. *)
Theorem cleanText_idempotent_on_clean_text :
  forall (s : jsstring) (maxLen : Z) (r : jsstring),
    clean_invariant s maxLen ->
    cleanText (VStr s) maxLen = Normal r ->
    strip_garbage r = r ->
    cleanText (VStr r) maxLen = Normal r.
Proof.
  intros s m r Hinv Hr Hg.
  assert (Hr' : clean s m = r).
  { change (Normal (clean s m) = Normal r) in Hr. congruence. }
  clear Hr. change (Normal (clean r m) = Normal r). f_equal.
  destruct (clean_shape s m Hinv) as (Hform & Hshape). rewrite Hr' in *.
  destruct (tidy_form_fix r Hform) as (Ht & Hrt).
  assert (Hnorm : normalised r = r).
  { unfold normalised. rewrite Ht, Hg, Hrt. reflexivity. }
  unfold clean. fold (normalised r). rewrite Hnorm.
  destruct Hshape as [-> | [Hle | (x & Hx & Hxm & Hxn & Hxe & Hxt & Hcut)]].
  - apply clean_nil.
  - unfold truncate. apply Z.ltb_ge in Hle. rewrite Hle.
    rewrite <- Hr'. unfold clean. apply punctuate_idem.
  - rewrite Hx. unfold truncate.
    assert (Hlt : (m <? strlen (x ++ [46])) = true).
    { apply Z.ltb_lt. rewrite strlen_snoc, Hxm. lia. }
    rewrite Hlt. cbv zeta. apply Z.ltb_ge in Hcut. rewrite Hcut.
    assert (Hsl : slice (x ++ [46]) 0 m = x) by (rewrite <- Hxm; apply slice_init).
    rewrite Hsl, Hxt.
    destruct (punctuate_cases x) as [(_ & [Hc | Hc]) | (-> & _ & _)];
      [contradiction | congruence | reflexivity].
Qed.

Lemma cleanText_idempotent_witness :
  cleanText (VStr hard_cut_text) 11 = Normal hard_cut_text.
Proof.
  apply (cleanText_idempotent_on_clean_text hard_cut_text 11 hard_cut_text).
  - split; [vm_compute; discriminate | right; vm_compute; reflexivity].
  - vm_compute; reflexivity.
  - vm_compute; reflexivity.
Defined.

(** ** The inner loop of the streaming client always has fuel left *)

Lemma indexOf_from_range s : forall i,
  indexOf_from i s [10] = -1
  \/ i <= indexOf_from i s [10] < i + Z.of_nat (List.length s).
Proof.
  induction s as [|c r IH]; intros i.
  - left. reflexivity.
  - cbn [indexOf_from]. destruct (startsWith (c :: r) [10]).
    + right. cbn [List.length]. lia.
    + destruct (IH (i + 1)) as [H | H]; [left; exact H | right; cbn [List.length]; lia].
Qed.

Lemma slice_from_shorter buf k :
  0 < k <= strlen buf -> (List.length (slice_from buf k) < List.length buf)%nat.
Proof.
  intros Hk. unfold slice_from, slice, rel_index, strlen in *.
  destruct (k <? 0) eqn:E; [apply Z.ltb_lt in E; lia|].
  destruct (Z.of_nat (List.length buf) <? 0) eqn:E'; [apply Z.ltb_lt in E'; lia|].
  rewrite length_firstn, length_skipn. lia.
Qed.

(** Any two amounts of fuel above the length of the buffer give the same
    run: the fuel [drain] is started with is never used up. *)
Lemma drain_fuel_irrelevant onToken onRawLine : forall f1 f2 buf full w,
  (List.length buf < f1)%nat -> (List.length buf < f2)%nat ->
  drain f1 onToken onRawLine buf full w = drain f2 onToken onRawLine buf full w.
Proof.
  induction f1 as [|f1 IH]; intros f2 buf full w H1 H2; [lia|].
  destruct f2 as [|f2]; [lia|]. cbn [drain].
  destruct (indexOf buf [10] =? -1) eqn:E; [reflexivity|].
  apply Z.eqb_neq in E.
  assert (Hs : (List.length (slice_from buf (indexOf buf [10%Z] + 1)%Z)
                < List.length buf)%nat).
  { apply slice_from_shorter. unfold indexOf, strlen in *.
    destruct (indexOf_from_range buf 0) as [H | H]; [contradiction | lia]. }
  destruct (trim (slice buf 0 (indexOf buf [10]))) as [|c l]; [apply IH; lia|].
  unfold bind, lift.
  destruct (match onRawLine with Some f => f (c :: l) | None => Normal tt end);
    [|reflexivity].
  destruct (on_line onToken (c :: l) full w) as [[[full' brk]|e] w1]; [|reflexivity].
  destruct brk; [reflexivity | apply IH; lia].
Qed.

(* ================================================================== *)
(** * Further properties of the code *)
(* ================================================================== *)

(** ** Values *)

(** Induction on a value, with the hypothesis for every element of an
    array and every property value of an object. *)
Lemma value_ind_nested (P : value -> Prop) :
  P VUndefined -> P VNull -> (forall b, P (VBool b)) -> (forall n, P (VNum n)) ->
  (forall s, P (VStr s)) ->
  (forall xs, Forall P xs -> P (VArr xs)) ->
  (forall ps, Forall (fun kv => P (snd kv)) ps -> P (VObj ps)) ->
  forall v, P v.
Proof.
  intros Hu Hn Hb Hnum Hs Ha Ho.
  fix IH 1.
  intros [| |b|n|s|xs|ps];
    [exact Hu | exact Hn | apply Hb | apply Hnum | apply Hs | |].
  - apply Ha.
    exact ((fix go (l : list value) : Forall P l :=
              match l with
              | [] => Forall_nil P
              | x :: r => Forall_cons x (IH x) (go r)
              end) xs).
  - apply Ho.
    exact ((fix go (l : list (jsstring * value)) : Forall (fun kv => P (snd kv)) l :=
              match l with
              | [] => Forall_nil _
              | kv :: r => Forall_cons kv (IH (snd kv)) (go r)
              end) ps).
Qed.

(** The only exception a conversion to string throws. *)
Lemma ToString_throws v : forall e, Val.ToString v = Throw e -> e = TypeError.
Proof.
  induction v as [| |b|n|s|xs IH|ps _] using value_ind_nested; intros e;
    try discriminate.
  - destruct b; discriminate.
  - cbn [Val.ToString].
    induction IH as [|x r Hx _ IHr]; [discriminate|].
    destruct (if Val.nullish x then Normal [] else Val.ToString x) as [sx|e'] eqn:Ex;
      cbn [cbind].
    + destruct r as [|y r']; [discriminate|].
      match goal with |- cbind ?j _ = _ -> _ => destruct j as [sr|e'] eqn:Ej end;
        cbn [cbind]; [discriminate|].
      intros H; inversion H; subst. apply IHr. reflexivity.
    + intros H; inversion H; subst.
      destruct (Val.nullish x); [discriminate | apply Hx; exact Ex].
  - cbn [Val.ToString]. destruct (Val.has_own ps (lit "toString")); [|discriminate].
    intros H; inversion H; reflexivity.
Qed.

Lemma ToNumber_throws v e : Val.ToNumber v = Throw e -> e = TypeError.
Proof.
  unfold Val.ToNumber.
  destruct v as [| |[|]|n|s|xs|ps]; try discriminate.
  - destruct (Val.ToString (VArr xs)) eqn:E; cbn [cbind]; [discriminate|].
    intros H; inversion H; subst. eapply ToString_throws; exact E.
  - destruct (Val.ToString (VObj ps)) eqn:E; cbn [cbind]; [discriminate|].
    intros H; inversion H; subst. eapply ToString_throws; exact E.
Qed.

Lemma cleanText_throws v m e : cleanText v m = Throw e -> e = TypeError.
Proof.
  unfold cleanText.
  destruct (Val.ToString (Val.coalesce v (VStr []))) eqn:E; cbn [cbind]; [discriminate|].
  intros H; inversion H; subst. eapply ToString_throws; exact E.
Qed.

Lemma normalizePriority_throws v e : normalizePriority v = Throw e -> e = TypeError.
Proof.
  unfold normalizePriority.
  destruct (Val.ToString (Val.coalesce v (VStr []))) eqn:E; cbn [cbind].
  - destruct (is_priority _); discriminate.
  - intros H; inversion H; subst. eapply ToString_throws; exact E.
Qed.

(** ** The sanitizer: what every output satisfies *)

Lemma lastIndexOf_from_le s : forall i b acc,
  lastIndexOf_from i s [32] b acc = acc \/ lastIndexOf_from i s [32] b acc <= b.
Proof.
  induction s as [|d r IH]; intros i b acc.
  - cbn [lastIndexOf_from startsWith]. rewrite andb_false_r. left; reflexivity.
  - cbn [lastIndexOf_from].
    set (acc' := if (i <=? b) && startsWith (d :: r) [32] then i else acc).
    destruct (IH (i + 1) b acc') as [H | H]; [|right; exact H].
    rewrite H. unfold acc'.
    destruct (i <=? b) eqn:E; cbn [andb]; [|left; reflexivity].
    destruct (startsWith (d :: r) [32]); [|left; reflexivity].
    right. apply Z.leb_le in E. exact E.
Qed.

Lemma truncate_length t m : 0 <= m -> strlen (truncate t m) <= m.
Proof.
  intros Hm. unfold truncate.
  destruct (m <? strlen t) eqn:E; [|apply Z.ltb_ge in E; exact E].
  cbv zeta.
  destruct (20 <? lastIndexOf t [32] m) eqn:Hc.
  - apply Z.ltb_lt in Hc.
    pose proof (slice_zero_length t (lastIndexOf t [32] m) ltac:(lia)) as Hs.
    pose proof (trim_length (slice t 0 (lastIndexOf t [32] m))) as Ht.
    assert (Hb : lastIndexOf t [32] m <= m).
    { unfold lastIndexOf in *.
      destruct (lastIndexOf_from_le t 0 (Z.max 0 m) (-1)) as [H | H]; lia. }
    unfold strlen in *. lia.
  - pose proof (slice_zero_length t m Hm) as Hs.
    pose proof (trim_length (slice t 0 m)) as Ht.
    unfold strlen in *. lia.
Qed.

Lemma clean_invariants s m : 0 <= m -> clean_invariant (clean s m) m.
Proof.
  intros Hm. unfold clean_invariant, clean.
  pose proof (truncate_length (normalised s) m Hm) as Hl.
  fold (normalised s).
  destruct (punctuate_cases (truncate (normalised s) m)) as [(-> & He) | (-> & _ & _)].
  - split; [lia | exact He].
  - split; [rewrite strlen_snoc; lia|].
    right. rewrite ends_terminal_snoc. reflexivity.
Qed.

Lemma clean_tidy_form s m : tidy_form (clean s m).
Proof.
  unfold clean. apply tidy_form_punctuate, tidy_form_truncate.
  apply (normalised_tidy_form s).
Qed.

Lemma cleanText_inv v m r :
  cleanText v m = Normal r ->
  exists t, Val.ToString (Val.coalesce v (VStr [])) = Normal t /\ r = clean t m.
Proof.
  unfold cleanText. intros H. apply cbind_normal in H as (t & Ht & H).
  exists t. split; [exact Ht | inversion H; reflexivity].
Qed.

(** X1: for a bound that is not negative, the text [cleanText] returns
    has at most [maxLen] code units and one trailing punctuation mark, and
    unless it is empty it ends in one of the marks . ! ? *)
Theorem cleanText_output_invariants :
  forall (v : value) (maxLen : Z) (r : jsstring),
    0 <= maxLen -> cleanText v maxLen = Normal r -> clean_invariant r maxLen.
Proof.
  intros v m r Hm H. apply cleanText_inv in H as (t & _ & ->).
  apply clean_invariants. exact Hm.
Qed.

Lemma cleanText_output_invariants_witness :
  cleanText (VStr wide_text) 30 = Normal (lit "Ask the team lead for a.")
  /\ clean_invariant (lit "Ask the team lead for a.") 30.
Proof.
  split; [vm_compute; reflexivity|].
  apply (cleanText_output_invariants (VStr wide_text) 30); [lia | vm_compute; reflexivity].
Defined.

(** X2: whatever the bound, the text [cleanText] returns has no white
    space at either end, no white space other than single spaces, and no
    curly quote. *)
Theorem cleanText_output_form :
  forall (v : value) (maxLen : Z) (r : jsstring),
    cleanText v maxLen = Normal r -> tidy_form r.
Proof.
  intros v m r H. apply cleanText_inv in H as (t & _ & ->). apply clean_tidy_form.
Qed.

Lemma cleanText_output_form_witness :
  cleanText (VStr curly_text) 120 = Normal (litq "She said ~go~ and it's done.")
  /\ tidy_form (litq "She said ~go~ and it's done.").
Proof.
  split; [vm_compute; reflexivity|].
  apply (cleanText_output_form (VStr curly_text) 120). vm_compute; reflexivity.
Defined.

(** ** Blank fields *)

Lemma collapse_run_all_ws s :
  forallb is_ws s = true -> collapse_ws_go true s = [].
Proof.
  induction s as [|c r IH]; intros H; [reflexivity|].
  simpl in H. apply andb_true_iff in H as (Hc & Hr).
  cbn [collapse_ws_go]. rewrite Hc. apply IH; exact Hr.
Qed.

Lemma tidy_all_ws s : forallb is_ws s = true -> tidy s = [].
Proof.
  intros H. unfold tidy, collapse_ws.
  destruct s as [|c r]; [reflexivity|].
  simpl in H. apply andb_true_iff in H as (Hc & Hr).
  cbn [collapse_ws_go]. rewrite Hc, (collapse_run_all_ws r Hr). reflexivity.
Qed.

Lemma clean_blank s m : 0 <= m -> forallb is_ws s = true -> clean s m = [].
Proof.
  intros Hm H. unfold clean. rewrite (tidy_all_ws s H).
  change (retidy (strip_garbage [])) with (@nil char).
  unfold truncate. change (strlen []) with 0.
  destruct (m <? 0) eqn:E; [apply Z.ltb_lt in E; lia | reflexivity].
Qed.

Lemma cleanText_blank v m :
  0 <= m -> blank v = true ->
  cleanText (Val.coalesce v (VStr [])) m = Normal [].
Proof.
  intros Hm Hb. unfold cleanText.
  destruct v; try discriminate; cbn [Val.coalesce Val.nullish Val.ToString cbind].
  - rewrite clean_blank by (auto; lia). reflexivity.
  - rewrite clean_blank by (auto; lia). reflexivity.
  - rewrite clean_blank by (auto; lia). reflexivity.
Qed.

(** X3: whenever [normalizeStepGen] returns, the details and the
    success criteria of the step are not empty, end in terminal
    punctuation, have at most 121 and 111 code units, and are in the tidy
    form the sanitizer gives. *)
Theorem normalizeStepGen_text_fields :
  forall (raw : value) (k t : jsstring) (g : StepGen),
    normalizeStepGen raw k t = Normal g ->
    (0 < strlen (gen_details g) <= 121
     /\ ends_terminal (gen_details g) = true /\ tidy_form (gen_details g))
    /\ (0 < strlen (gen_success_criteria g) <= 111
        /\ ends_terminal (gen_success_criteria g) = true
        /\ tidy_form (gen_success_criteria g)).
Proof.
  intros raw k t g H.
  apply normalizeStepGen_inv in H as (d & s & n & p & Hd & Hs & _ & _ & Hdn & Hsn & ->).
  cbn [gen_details gen_success_criteria].
  apply cleanText_inv in Hd as (td & _ & Hd). apply cleanText_inv in Hs as (ts & _ & Hs).
  pose proof (clean_invariants td 120 ltac:(lia)) as (Hdl & Hde).
  pose proof (clean_invariants ts 110 ltac:(lia)) as (Hsl & Hse).
  pose proof (clean_tidy_form td 120) as Hdf.
  pose proof (clean_tidy_form ts 110) as Hsf.
  rewrite <- Hd in Hdl, Hde, Hdf. rewrite <- Hs in Hsl, Hse, Hsf.
  assert (Hpos : forall x : jsstring, x <> [] -> 0 < strlen x).
  { intros [|c x] Hx; [contradiction|]. unfold strlen. cbn [List.length]. lia. }
  split.
  - split; [split; [apply Hpos; exact Hdn | lia]|].
    split; [destruct Hde as [Hc | Hc]; [contradiction | exact Hc] | exact Hdf].
  - split; [split; [apply Hpos; exact Hsn | lia]|].
    split; [destruct Hse as [Hc | Hc]; [contradiction | exact Hc] | exact Hsf].
Qed.

Lemma normalizeStepGen_text_fields_witness :
  normalizeStepGen echo_payload (lit "step_2") (lit "Meet the team") = Normal echo_step
  /\ (0 < strlen (gen_details echo_step) <= 121
      /\ ends_terminal (gen_details echo_step) = true /\ tidy_form (gen_details echo_step))
  /\ (0 < strlen (gen_success_criteria echo_step) <= 111
      /\ ends_terminal (gen_success_criteria echo_step) = true
      /\ tidy_form (gen_success_criteria echo_step)).
Proof.
  split; [vm_compute; reflexivity|].
  apply (normalizeStepGen_text_fields echo_payload (lit "step_2") (lit "Meet the team")).
  vm_compute; reflexivity.
Defined.

(** X4: a payload whose details or success criteria are absent, null or
    white space only never gives a step: [normalizeStepGen] throws, the
    Missing-details or Missing-success_criteria error that names the
    expected key, or the TypeError of a field that cannot be converted. *)
Theorem normalizeStepGen_blank_field_throws :
  forall (raw : value) (k t : jsstring),
    blank (Val.get raw (lit "details")) || blank (Val.get raw (lit "success_criteria")) = true ->
    exists e, normalizeStepGen raw k t = Throw e
              /\ (e = Error (lit "Missing details for " ++ k)
                  \/ e = Error (lit "Missing success_criteria for " ++ k)
                  \/ e = TypeError).
Proof.
  intros raw k t Hb. unfold normalizeStepGen.
  destruct (cleanText (Val.coalesce (Val.get raw (lit "details")) (VStr [])) 120)
    as [d|e] eqn:Hd; cbn [cbind].
  2:{ exists e. split; [reflexivity|]. right; right. eapply cleanText_throws; exact Hd. }
  destruct (cleanText (Val.coalesce (Val.get raw (lit "success_criteria")) (VStr [])) 110)
    as [s|e] eqn:Hs; cbn [cbind].
  2:{ exists e. split; [reflexivity|]. right; right. eapply cleanText_throws; exact Hs. }
  destruct (Val.ToNumber (Val.coalesce (Val.get raw (lit "estimated_minutes")) (VNum (Finite 30))))
    as [n|e] eqn:Hn; cbn [cbind].
  2:{ exists e. split; [reflexivity|]. right; right. eapply ToNumber_throws; exact Hn. }
  destruct (normalizePriority (Val.get raw (lit "priority"))) as [p|e] eqn:Hp; cbn [cbind].
  2:{ exists e. split; [reflexivity|]. right; right. eapply normalizePriority_throws; exact Hp. }
  apply orb_true_iff in Hb as [Hb | Hb].
  - assert (Hd' : d = []).
    { rewrite (cleanText_blank _ 120 ltac:(lia) Hb) in Hd. inversion Hd; reflexivity. }
    subst d. exists (Error (lit "Missing details for " ++ k)). split; [reflexivity | auto].
  - assert (Hs' : s = []).
    { rewrite (cleanText_blank _ 110 ltac:(lia) Hb) in Hs. inversion Hs; reflexivity. }
    subst s. destruct d.
    + exists (Error (lit "Missing details for " ++ k)). split; [reflexivity | auto].
    + exists (Error (lit "Missing success_criteria for " ++ k)). split; [reflexivity | auto].
Qed.

Lemma normalizeStepGen_blank_field_witness :
  exists e, normalizeStepGen blank_details_payload (lit "step_2") (lit "Meet the team") = Throw e
            /\ (e = Error (lit "Missing details for " ++ lit "step_2")
                \/ e = Error (lit "Missing success_criteria for " ++ lit "step_2")
                \/ e = TypeError).
Proof.
  apply (normalizeStepGen_blank_field_throws blank_details_payload
           (lit "step_2") (lit "Meet the team")).
  vm_compute; reflexivity.
Defined.

(** ** Priority and clamping *)

Lemma str_eqb_eq a : forall b, str_eqb a b = true -> a = b.
Proof.
  induction a as [|x a IH]; intros [|y b]; simpl; try discriminate; [reflexivity|].
  intros H. apply andb_true_iff in H as (Hx & Hr). apply Z.eqb_eq in Hx.
  subst y. f_equal. apply IH; exact Hr.
Qed.

Lemma is_priority_cases s :
  is_priority s = true -> s = lit "low" \/ s = lit "medium" \/ s = lit "high".
Proof.
  unfold is_priority. intros H.
  apply orb_true_iff in H as [H | H]; [apply orb_true_iff in H as [H | H]|];
    apply str_eqb_eq in H; auto.
Qed.

(** X5: [normalizePriority] is idempotent: the word it returns is
    returned unchanged when it is normalised again. *)
Theorem normalizePriority_idempotent :
  forall (v : value) (p : jsstring),
    normalizePriority v = Normal p -> normalizePriority (VStr p) = Normal p.
Proof.
  intros v p H. apply normalizePriority_inv in H as (s & _ & ->).
  destruct (is_priority (trim (toLowerCase s))) eqn:E; [|reflexivity].
  destruct (is_priority_cases _ E) as [-> | [-> | ->]]; reflexivity.
Qed.

Lemma normalizePriority_idempotent_witness :
  normalizePriority (VStr (lit "  HiGh ")) = Normal (lit "high")
  /\ normalizePriority (VStr (lit "high")) = Normal (lit "high").
Proof.
  split; [vm_compute; reflexivity|].
  apply (normalizePriority_idempotent (VStr (lit "  HiGh "))). vm_compute; reflexivity.
Defined.

Lemma trunc_monotone q1 q2 : Qle q1 q2 -> Num.trunc q1 <= Num.trunc q2.
Proof.
  unfold Qle, Num.trunc. destruct q1 as [n1 d1], q2 as [n2 d2]. cbn [Qnum Qden].
  intros H.
  rewrite <- (Z.quot_mul_cancel_r n1 (Zpos d1) (Zpos d2)) by lia.
  rewrite <- (Z.quot_mul_cancel_r n2 (Zpos d2) (Zpos d1)) by lia.
  rewrite (Z.mul_comm (Zpos d2) (Zpos d1)).
  apply Z.quot_le_mono; lia.
Qed.

(** X6: [clampInt] is monotone in its (finite) argument, and it leaves
    every integer within the bounds as it is. *)
Theorem clampInt_monotone_retraction :
  forall (q1 q2 : Q) (z lo hi : Z),
    Qle q1 q2 -> lo <= z <= hi ->
    clampInt (Finite q1) lo hi <= clampInt (Finite q2) lo hi
    /\ clampInt (Finite (inject_Z z)) lo hi = z.
Proof.
  intros q1 q2 z lo hi Hq Hz. unfold clampInt. split.
  - pose proof (trunc_monotone q1 q2 Hq). lia.
  - unfold Num.trunc, inject_Z. cbn [Qnum Qden]. rewrite Z.quot_1_r. lia.
Qed.

Lemma clampInt_monotone_retraction_witness :
  clampInt (Finite (-7 # 2)) 10 90 <= clampInt (Finite (181 # 2)) 10 90
  /\ clampInt (Finite (inject_Z 45)) 10 90 = 45.
Proof.
  apply (clampInt_monotone_retraction (-7 # 2) (181 # 2) 45 10 90).
  - unfold Qle; simpl; lia.
  - lia.
Defined.

(** ** Small integers are binary64 values *)

Lemma round_half_even_int n : Num.round_half_even (n # 1) = n.
Proof.
  unfold Num.round_half_even. cbn [Qnum Qden].
  rewrite Z.div_1_r, Z.mod_1_r. reflexivity.
Qed.

Lemma Qred_int z : Qred (z # 1) = z # 1.
Proof.
  unfold Qred.
  pose proof (Z.ggcd_correct_divisors z 1) as H.
  pose proof (Z.ggcd_gcd z 1) as Hg.
  destruct (Z.ggcd z 1) as [g [aa bb]]. cbn [fst snd] in *.
  rewrite Z.gcd_1_r in Hg. subst g. destruct H as (Ha & Hb).
  rewrite Z.mul_1_l in Ha, Hb. subst aa bb. reflexivity.
Qed.

(** A length, as every integer below 2^53 that is not negative, is the
    binary64 value of itself. *)
Lemma of_Z_exact z : 0 <= z < 2 ^ 53 -> Num.of_Z z = Finite (inject_Z z).
Proof.
  intros Hz. unfold Num.of_Z, Num.round64. cbn [inject_Z Qnum].
  destruct (z =? 0) eqn:E0; [apply Z.eqb_eq in E0; subst; reflexivity|].
  apply Z.eqb_neq in E0.
  assert (Hpos : 0 < z) by lia.
  destruct (z <? 0) eqn:En; [apply Z.ltb_lt in En; lia|]. clear En.
  cbv zeta.
  pose proof (Z.log2_spec z Hpos) as (Hlo & Hhi).
  pose proof (Z.log2_nonneg z) as Hl0.
  assert (Hl52 : Z.log2 z <= 52).
  { destruct (Z_lt_le_dec 52 (Z.log2 z)) as [H | H]; [|exact H].
    assert (2 ^ 53 <= 2 ^ Z.log2 z) by (apply Z.pow_le_mono_r; lia). lia. }
  assert (Hil : Num.ilog2 (inject_Z z) = Z.log2 z).
  { unfold Num.ilog2, inject_Z. cbn [Qnum Qden]. change (Z.log2 1) with 0.
    rewrite Z.sub_0_r.
    unfold Num.pow2. destruct (0 <=? Z.log2 z) eqn:E; [|apply Z.leb_gt in E; lia].
    unfold Qle_bool, inject_Z. cbn [Qnum Qden]. rewrite !Z.mul_1_r.
    destruct (2 ^ Z.log2 z <=? z) eqn:E2; [reflexivity | apply Z.leb_gt in E2; lia]. }
  rewrite Hil. rewrite (Z.max_l _ (-1022)) by lia.
  set (k := 52 - Z.log2 z).
  assert (Hk : 0 <= k <= 52) by (unfold k; lia).
  assert (H2k : 0 < 2 ^ k) by (apply Z.pow_pos_nonneg; lia).
  destruct (2 ^ k) as [|P|P] eqn:EP; try lia.
  assert (Hq : Num.pow2 (Z.log2 z - 52) = 1 # P).
  { unfold Num.pow2. destruct (0 <=? Z.log2 z - 52) eqn:E.
    - apply Z.leb_le in E. assert (H52 : Z.log2 z = 52) by lia.
      assert (Hk0 : k = 0) by (unfold k; lia). rewrite Hk0 in EP.
      change (2 ^ 0) with 1 in EP. inversion EP; subst P.
      rewrite H52. reflexivity.
    - replace (- (Z.log2 z - 52)) with k by (unfold k; lia).
      rewrite EP. reflexivity. }
  rewrite Hq.
  assert (Hd : (inject_Z z / (1 # P))%Q = (z * Zpos P # 1)) by reflexivity.
  rewrite Hd, round_half_even_int.
  assert (Hm : (inject_Z (z * Z.pos P) * (1 # P))%Q = (z * Z.pos P * 1 # P)) by reflexivity.
  rewrite Hm.
  assert (Hle : Qle_bool (Num.pow2 1024) (z * Z.pos P * 1 # P) = false).
  { unfold Qle_bool, Num.pow2. change (0 <=? 1024) with true. cbv iota.
    unfold inject_Z. cbn [Qnum Qden]. apply Z.leb_gt.
    assert (2 ^ 53 <= 2 ^ 1024) by (apply Z.pow_le_mono_r; lia).
    rewrite !Z.mul_1_r. apply Z.mul_lt_mono_pos_r; lia. }
  rewrite Hle. f_equal.
  unfold inject_Z. rewrite <- (Qred_int z). apply Qred_complete.
  unfold Qeq. cbn [Qnum Qden]. lia.
Qed.

(** ** Code fences *)

Lemma indexOf_from_occurs p s : forall i,
  0 <= i -> (indexOf_from i s p = -1 <-> occurs p s = false).
Proof.
  induction s as [|c r IH]; intros i Hi.
  - cbn [indexOf_from occurs]. destruct (startsWith [] p); cbn [orb]; split; intros H;
      try reflexivity; try discriminate; lia.
  - cbn [indexOf_from occurs]. destruct (startsWith (c :: r) p); cbn [orb].
    + split; intros H; [lia | discriminate].
    + apply IH. lia.
Qed.

Lemma remove_go_skip m s : forall k,
  remove_go m k s = remove_go m O (skipn k s).
Proof.
  induction s as [|c r IH]; intros [|k]; try reflexivity.
  cbn [remove_go skipn]. apply IH.
Qed.

Lemma remove_fence_step s :
  remove_all m_fence s
  = match s with
    | [] => []
    | c :: r => if startsWith s [96; 96; 96] then remove_all m_fence (skipn 3 s)
                else c :: remove_all m_fence r
    end.
Proof.
  unfold remove_all. destruct s as [|c r]; [reflexivity|].
  cbn [remove_go]. unfold m_fence. change (lit "```") with [96; 96; 96].
  destruct (startsWith (c :: r) [96; 96; 96]) eqn:E; [|reflexivity].
  rewrite remove_go_skip. reflexivity.
Qed.

(** What is left of a text after its fences are removed starts with a
    backtick, or with two, only if the text does. *)
Lemma remove_fence_head n : forall s, (List.length s <= n)%nat ->
  (startsWith (remove_all m_fence s) [96] = true -> startsWith s [96] = true)
  /\ (startsWith (remove_all m_fence s) [96; 96] = true -> startsWith s [96; 96] = true).
Proof.
  induction n as [|n IH]; intros s Hn.
  - destruct s; [|simpl in Hn; lia]. split; discriminate.
  - rewrite remove_fence_step. destruct s as [|c r]; [split; discriminate|].
    destruct (startsWith (c :: r) [96; 96; 96]) eqn:E.
    + cbn [startsWith] in E.
      destruct (c =? 96) eqn:Ec; [|discriminate]. cbn [andb] in E.
      destruct r as [|d r']; [discriminate|].
      destruct (d =? 96) eqn:Ed; [|discriminate].
      split; intros _; cbn [startsWith]; rewrite ?Ec, ?Ed; reflexivity.
    + simpl in Hn. destruct (IH r ltac:(lia)) as (H1 & _).
      split; cbn [startsWith].
      * destruct (c =? 96); [reflexivity | discriminate].
      * destruct (c =? 96); [|discriminate]. cbn [andb].
        intros H.
        assert (H' : startsWith (remove_all m_fence r) [96] = true).
        { destruct (remove_all m_fence r) as [|x y]; [discriminate|].
          cbn [startsWith] in *. destruct (x =? 96); [reflexivity | discriminate]. }
        specialize (H1 H'). destruct r as [|d r']; [discriminate|].
        cbn [startsWith] in H1 |- *. destruct (d =? 96); [reflexivity | discriminate].
Qed.

Lemma remove_fence_free n : forall s, (List.length s <= n)%nat ->
  occurs [96; 96; 96] (remove_all m_fence s) = false.
Proof.
  induction n as [|n IH]; intros s Hn.
  - destruct s; [reflexivity | simpl in Hn; lia].
  - rewrite remove_fence_step. destruct s as [|c r]; [reflexivity|].
    destruct (startsWith (c :: r) [96; 96; 96]) eqn:E.
    + apply IH. rewrite length_skipn. simpl in Hn |- *. lia.
    + simpl in Hn. cbn [occurs]. rewrite (IH r ltac:(lia)), orb_false_r.
      destruct (startsWith (c :: remove_all m_fence r) [96; 96; 96]) eqn:E'; [|reflexivity].
      exfalso. cbn [startsWith] in E, E'.
      destruct (c =? 96); [|discriminate]. cbn [andb] in E, E'.
      destruct (remove_fence_head (List.length r) r (Nat.le_refl _)) as (_ & H2).
      assert (H' : startsWith (remove_all m_fence r) [96; 96] = true).
      { destruct (remove_all m_fence r) as [|x [|y z]]; try discriminate.
        - destruct (x =? 96); discriminate.
        - cbn [startsWith] in *. destruct (x =? 96); [|discriminate].
          destruct (y =? 96); [reflexivity | discriminate]. }
      specialize (H2 H'). destruct r as [|d [|d' r']]; try discriminate.
      * cbn [startsWith] in H2. destruct (d =? 96); discriminate.
      * cbn [startsWith] in H2, E. destruct (d =? 96); [|discriminate].
        destruct (d' =? 96); discriminate.
Qed.

Lemma startsWith_app s x : forall p, startsWith s p = true -> startsWith (s ++ x) p = true.
Proof.
  induction s as [|c r IH]; intros [|pc pr]; try reflexivity; try discriminate.
  cbn [app startsWith]. intros H. apply andb_true_iff in H as (Hc & Hr).
  rewrite Hc. apply IH; exact Hr.
Qed.

Lemma occurs_app_l p s x : occurs p (s ++ x) = false -> occurs p s = false.
Proof.
  induction s as [|c r IH].
  - cbn [occurs app]. destruct p as [|pc pr]; [|reflexivity].
    destruct x; discriminate.
  - cbn [occurs app]. intros H. apply orb_false_iff in H as (H1 & H2).
    rewrite (IH H2), orb_false_r.
    destruct (startsWith (c :: r) p) eqn:E; [|reflexivity].
    pose proof (startsWith_app (c :: r) x p E) as E'. cbn [app] in E'.
    rewrite E' in H1. discriminate.
Qed.

Lemma occurs_trimStart p s : occurs p s = false -> occurs p (trimStart s) = false.
Proof.
  induction s as [|c r IH]; [auto|].
  cbn [trimStart]. destruct (is_ws c); [|auto].
  cbn [occurs]. intros H. apply orb_false_iff in H as (_ & H). apply IH; exact H.
Qed.

Lemma trimEnd_prefix s : exists w, s = trimEnd s ++ w.
Proof.
  induction s as [|c r (w & IH)]; [exists []; reflexivity|].
  rewrite trimEnd_cons. destruct (trimEnd r) as [|d r'].
  - destruct (is_ws c); [exists (c :: r) | exists r]; reflexivity.
  - exists w. change (c :: r = c :: ((d :: r') ++ w)). f_equal. exact IH.
Qed.

Lemma occurs_trim p s : occurs p s = false -> occurs p (trim s) = false.
Proof.
  intros H. unfold trim. apply occurs_trimStart in H.
  destruct (trimEnd_prefix (trimStart s)) as (w & Hw).
  rewrite Hw in H. apply occurs_app_l in H. exact H.
Qed.

(** X7: no code fence is left in what [stripFences] returns: three
    backticks in a row occur nowhere in it. *)
Theorem stripFences_leaves_no_fence :
  forall s : jsstring, indexOf (stripFences s) (lit "```") = -1.
Proof.
  intros s. unfold indexOf. apply indexOf_from_occurs; [lia|].
  unfold stripFences. apply occurs_trim.
  change (lit "```") with [96; 96; 96].
  eapply remove_fence_free. apply Nat.le_refl.
Qed.

Lemma remove_unmatched m s :
  (forall u, occurs [96; 96; 96] u = false -> m u = None) ->
  occurs [96; 96; 96] s = false -> remove_go m O s = s.
Proof.
  intros Hm. induction s as [|c r IH]; intros H; [reflexivity|].
  cbn [remove_go]. rewrite (Hm _ H).
  cbn [occurs] in H. apply orb_false_iff in H as (_ & H). rewrite (IH H). reflexivity.
Qed.

Lemma lower_backtick c : (lower c =? 96) = true -> (c =? 96) = true.
Proof.
  unfold lower. destruct ((65 <=? c) && (c <=? 90)) eqn:E; [|auto].
  apply andb_true_iff in E as (E1 & E2). apply Z.leb_le in E1, E2.
  intros H. apply Z.eqb_eq in H. lia.
Qed.

Lemma fence_free_no_match u :
  occurs [96; 96; 96] u = false -> m_fence u = None /\ m_fence_json u = None.
Proof.
  intros H. assert (Hs : startsWith u [96; 96; 96] = false).
  { destruct u; cbn [occurs] in H; apply orb_false_iff in H as (H & _); exact H. }
  split.
  - unfold m_fence. change (lit "```") with [96; 96; 96]. rewrite Hs. reflexivity.
  - unfold m_fence_json.
    change (lit "```json") with [96; 96; 96; 106; 115; 111; 110].
    destruct u as [|a [|b [|c u']]]; try reflexivity; cbn [iprefix].
    + destruct (lower a =? 96); reflexivity.
    + destruct (lower a =? 96); [|reflexivity]. destruct (lower b =? 96); reflexivity.
    + cbn [startsWith] in Hs.
      destruct (lower a =? 96) eqn:Ea; [|reflexivity].
      destruct (lower b =? 96) eqn:Eb; [|reflexivity].
      destruct (lower c =? 96) eqn:Ec; [|reflexivity].
      rewrite (lower_backtick a Ea), (lower_backtick b Eb), (lower_backtick c Ec) in Hs.
      discriminate.
Qed.

(** X8: [stripFences] is idempotent. *)
Theorem stripFences_idempotent :
  forall s : jsstring, stripFences (stripFences s) = stripFences s.
Proof.
  intros s.
  assert (Hf : occurs [96; 96; 96] (stripFences s) = false).
  { unfold stripFences. apply occurs_trim. eapply remove_fence_free. apply Nat.le_refl. }
  unfold stripFences at 1. unfold remove_all.
  rewrite (remove_unmatched m_fence_json (stripFences s)
             (fun u Hu => proj2 (fence_free_no_match u Hu)) Hf).
  rewrite (remove_unmatched m_fence (stripFences s)
             (fun u Hu => proj1 (fence_free_no_match u Hu)) Hf).
  unfold stripFences. apply trim_fix; apply trim_tidy.
Qed.

Lemma trimStart_ws_app w y : forallb is_ws w = true -> trimStart (w ++ y) = trimStart y.
Proof.
  induction w as [|c r IH]; intros H; [reflexivity|].
  simpl in H. apply andb_true_iff in H as (Hc & Hr).
  cbn [app trimStart]. rewrite Hc. apply IH; exact Hr.
Qed.

Lemma skipn_trimStart r :
  skipn (List.length r - List.length (trimStart r)) r = trimStart r.
Proof.
  induction r as [|c r IH]; [reflexivity|].
  cbn [trimStart]. destruct (is_ws c).
  - pose proof (trimStart_length r) as Hl.
    replace (List.length (c :: r) - List.length (trimStart r))%nat
      with (S (List.length r - List.length (trimStart r))) by (cbn [List.length]; lia).
    cbn [skipn]. exact IH.
  - rewrite Nat.sub_diag. reflexivity.
Qed.

Lemma trimEnd_all_ws w : forallb is_ws w = true -> trimEnd w = [].
Proof.
  induction w as [|c r IH]; intros H; [reflexivity|].
  simpl in H. apply andb_true_iff in H as (Hc & Hr).
  rewrite trimEnd_cons, (IH Hr), Hc. reflexivity.
Qed.

Lemma trimEnd_app_ws x w : forallb is_ws w = true -> trimEnd (x ++ w) = trimEnd x.
Proof.
  intros Hw. induction x as [|c r IH].
  - cbn [app]. rewrite (trimEnd_all_ws w Hw). reflexivity.
  - cbn [app]. rewrite !trimEnd_cons, IH. reflexivity.
Qed.

Lemma trimStart_all_ws w : forallb is_ws w = true -> trimStart w = [].
Proof.
  intros H. rewrite <- (app_nil_r w). rewrite trimStart_ws_app by exact H. reflexivity.
Qed.

Lemma trimStart_app_keep x y :
  trimStart x <> [] -> trimStart (x ++ y) = trimStart x ++ y.
Proof.
  induction x as [|c r IH]; [intros H; contradiction|].
  cbn [trimStart app]. destruct (is_ws c); [exact IH | reflexivity].
Qed.

Lemma no_backtick_occurs t : no_backtick t = true -> occurs [96; 96; 96] t = false.
Proof.
  induction t as [|c r IH]; [reflexivity|].
  intros H. simpl in H. apply andb_true_iff in H as (Hc & Hr).
  cbn [occurs startsWith]. apply negb_true_iff in Hc. rewrite Hc, (IH Hr). reflexivity.
Qed.

Lemma no_backtick_trimStart t : no_backtick t = true -> no_backtick (trimStart t) = true.
Proof.
  induction t as [|c r IH]; [auto|]. intros H. cbn [trimStart].
  destruct (is_ws c); [|exact H].
  simpl in H. apply andb_true_iff in H as (_ & Hr). apply IH; exact Hr.
Qed.

(** The two removal passes of [stripFences] on a text without backtick
    followed by a closing fence. *)
Lemma remove_closing_fence t :
  no_backtick t = true ->
  remove_all m_fence_json (t ++ [96; 96; 96]) = t ++ [96; 96; 96]
  /\ remove_all m_fence (t ++ [96; 96; 96]) = t.
Proof.
  unfold remove_all. induction t as [|c r IH]; intros H; [split; reflexivity|].
  simpl in H. apply andb_true_iff in H as (Hc & Hr). apply negb_true_iff in Hc.
  destruct (IH Hr) as (IH1 & IH2).
  assert (Hl : (lower c =? 96) = false).
  { destruct (lower c =? 96) eqn:E; [|reflexivity].
    rewrite (lower_backtick c E) in Hc. discriminate. }
  split; cbn [app remove_go].
  - assert (Hm : m_fence_json (c :: r ++ [96; 96; 96]) = None).
    { unfold m_fence_json. change (lit "```json") with [96; 96; 96; 106; 115; 111; 110].
      cbn [iprefix]. rewrite Hl. reflexivity. }
    rewrite Hm, IH1. reflexivity.
  - assert (Hm : m_fence (c :: r ++ [96; 96; 96]) = None).
    { unfold m_fence. change (lit "```") with [96; 96; 96].
      cbn [startsWith]. rewrite Hc. reflexivity. }
    rewrite Hm, IH2. reflexivity.
Qed.

Lemma stripFences_fenced w1 t w2 :
  forallb is_ws w1 = true -> forallb is_ws w2 = true -> no_backtick t = true ->
  stripFences (fenced w1 t w2) = stripFences t.
Proof.
  intros H1 H2 Ht.
  assert (Hbare : stripFences t = trim t).
  { unfold stripFences, remove_all.
    pose proof (no_backtick_occurs t Ht) as Ho.
    rewrite (remove_unmatched m_fence_json t (fun u Hu => proj2 (fence_free_no_match u Hu)) Ho).
    rewrite (remove_unmatched m_fence t (fun u Hu => proj1 (fence_free_no_match u Hu)) Ho).
    reflexivity. }
  rewrite Hbare. unfold stripFences, fenced.
  set (rest := w1 ++ t ++ w2 ++ lit "```").
  (* the opening fence and the white space after it are one match *)
  assert (Hopen : remove_all m_fence_json (lit "```json" ++ rest)
                  = remove_all m_fence_json (trimStart rest)).
  { assert (Hm : m_fence_json (lit "```json" ++ rest)
                 = Some (S (6 + (List.length rest - List.length (trimStart rest))))%nat).
    { unfold m_fence_json.
      change (iprefix (lit "```json") (lit "```json" ++ rest)) with (Some rest).
      pose proof (trimStart_length rest) as Hl. f_equal.
      change (lit "```json" ++ rest) with (96 :: 96 :: 96 :: 106 :: 115 :: 111 :: 110 :: rest).
      cbn [List.length]. unfold jsstring, char in *. f_equal. lia. }
    unfold remove_all.
    change (remove_go m_fence_json 0 (lit "```json" ++ rest))
      with (match m_fence_json (lit "```json" ++ rest) with
            | Some (S k) => remove_go m_fence_json k (96 :: 96 :: 106 :: 115 :: 111 :: 110 :: rest)
            | _ => 96 :: remove_go m_fence_json 0 (96 :: 96 :: 106 :: 115 :: 111 :: 110 :: rest)
            end).
    rewrite Hm, remove_go_skip.
    change (skipn (6 + (List.length rest - List.length (trimStart rest)))
              (96 :: 96 :: 106 :: 115 :: 111 :: 110 :: rest))
      with (skipn (List.length rest - List.length (trimStart rest)) rest).
    rewrite skipn_trimStart. reflexivity. }
  rewrite Hopen. unfold rest. rewrite (trimStart_ws_app w1 _ H1).
  change (lit "```") with [96; 96; 96].
  assert (Hcase : trimStart t = [] \/ trimStart t <> []).
  { destruct (trimStart t); [left; reflexivity | right; discriminate]. }
  destruct Hcase as [Et | Hne].
  - (* the text is white space only *)
    assert (Hall : forallb is_ws t = true).
    { clear -Et. induction t as [|c r IH]; [reflexivity|].
      cbn [trimStart] in Et. simpl. destruct (is_ws c); [apply IH; exact Et | discriminate]. }
    rewrite (trimStart_ws_app t _ Hall), (trimStart_ws_app w2 _ H2).
    unfold trim. rewrite Et. reflexivity.
  - rewrite (trimStart_app_keep t _ Hne), app_assoc.
    assert (Hnb : no_backtick (trimStart t ++ w2) = true).
    { unfold no_backtick. rewrite forallb_app. apply andb_true_iff. split.
      - apply (no_backtick_trimStart t Ht).
      - clear -H2. induction w2 as [|c r IH]; [reflexivity|].
        simpl in H2. apply andb_true_iff in H2 as (Hc & Hr). simpl.
        rewrite (IH Hr), andb_true_r.
        destruct (c =? 96) eqn:E; [|reflexivity].
        apply Z.eqb_eq in E. subst c. discriminate. }
    destruct (remove_closing_fence _ Hnb) as (R1 & R2). rewrite R1, R2.
    unfold trim. rewrite (trimStart_app_keep _ w2) by (rewrite trimStart_idem; exact Hne).
    rewrite trimStart_idem, trimEnd_app_ws by exact H2. reflexivity.
Qed.

(** X9: a fenced block is transparent to extraction. For a text without
    backtick, [tryParseJSON] gives the same result (and parses the same
    texts) whether the text comes bare or between an opening json fence
    and a closing fence, with any white space around it. *)
Theorem tryParseJSON_ignores_fences :
  forall w1 t w2 : jsstring,
    forallb is_ws w1 = true -> forallb is_ws w2 = true -> no_backtick t = true ->
    tryParseJSON (VStr (fenced w1 t w2)) = tryParseJSON (VStr t).
Proof.
  intros w1 t w2 H1 H2 Ht.
  pose proof (stripFences_fenced w1 t w2 H1 H2 Ht) as Hs.
  unfold tryParseJSON. rewrite Hs.
  assert (Htr : Val.truthy (VStr (fenced w1 t w2)) = true) by reflexivity.
  rewrite Htr. cbn [negb].
  destruct (Val.truthy (VStr t)) eqn:E; cbn [negb]; [reflexivity|].
  destruct t; [|discriminate]. reflexivity.
Qed.

Lemma tryParseJSON_ignores_fences_witness :
  tryParseJSON (VStr (fenced [10] object_text [10])) = tryParseJSON (VStr object_text)
  /\ tryParseJSON (VStr object_text) = (Normal object_value, [object_text]).
Proof.
  split; [|vm_compute; reflexivity].
  apply (tryParseJSON_ignores_fences [10] object_text [10]); vm_compute; reflexivity.
Defined.

(** ** The streaming client: what is forwarded and what is returned *)

Lemma on_line_delivers onToken line full w :
  exists full' brk ds w',
    on_line onToken line full w = (Normal (full', brk), w')
    /\ delivered w' = delivered w ++ ds
    /\ full' = full ++ concat (map delta_text ds).
Proof.
  unfold on_line.
  destruct (Json.parse line) as [obj|e].
  2:{ exists full, false, [], w. rewrite !app_nil_r. repeat split. }
  destruct (Val.truthy _) eqn:Et.
  2:{ eexists full, _, [], w. rewrite !app_nil_r. repeat split. }
  destruct (Val.ToString _) as [d|e] eqn:Ed.
  2:{ exists full, false, [], w. rewrite !app_nil_r. repeat split. }
  unfold bind, deliver, ret.
  match goal with |- context [onToken ?delta] => set (dl := delta) in * end.
  assert (Hd : delta_text dl = d) by (unfold delta_text; rewrite Ed; reflexivity).
  destruct (onToken dl); eexists (full ++ d), _, [dl], _;
    (split; [reflexivity|]); cbn [delivered map concat]; rewrite Hd, app_nil_r; split; reflexivity.
Qed.

Lemma drain_delivers onToken onRawLine : forall fuel buf full w buf' full' w',
  drain fuel onToken onRawLine buf full w = (Normal (buf', full'), w') ->
  exists ds, delivered w' = delivered w ++ ds
             /\ full' = full ++ concat (map delta_text ds).
Proof.
  induction fuel as [|f IH]; intros buf full w buf' full' w' H.
  - cbn [drain] in H. unfold ret in H. inversion H; subst.
    exists []. rewrite !app_nil_r. split; reflexivity.
  - cbn [drain] in H.
    destruct (indexOf buf [10] =? -1).
    { unfold ret in H. inversion H; subst. exists []. rewrite !app_nil_r. split; reflexivity. }
    destruct (trim (slice buf 0 (indexOf buf [10]))) as [|c l]; [eapply IH; exact H|].
    unfold bind at 1, lift in H.
    destruct (match onRawLine with Some f0 => f0 (c :: l) | None => Normal tt end);
      [|discriminate].
    unfold bind at 1 in H.
    destruct (on_line_delivers onToken (c :: l) full w) as (full1 & brk & ds1 & w1 & Hl & Hd1 & Hf1).
    rewrite Hl in H. destruct brk.
    + unfold ret in H. inversion H; subst. exists ds1. split; [exact Hd1 | reflexivity].
    + apply IH in H as (ds2 & Hd2 & Hf2). exists (ds1 ++ ds2).
      rewrite Hd2, Hd1, Hf2, Hf1, map_app, concat_app, <- !app_assoc. split; reflexivity.
Qed.

Lemma read_loop_delivers ending onToken onRawLine : forall chunks buf full w full' w',
  read_loop chunks ending onToken onRawLine buf full w = (Normal full', w') ->
  exists ds, delivered w' = delivered w ++ ds
             /\ full' = full ++ concat (map delta_text ds).
Proof.
  induction chunks as [|c rest IH]; intros buf full w full' w' H; cbn [read_loop] in H.
  - destruct ending; [discriminate|]. unfold ret in H. inversion H; subst.
    exists []. rewrite !app_nil_r. split; reflexivity.
  - unfold bind in H.
    destruct (drain _ onToken onRawLine (buf ++ c) full w) as [[[buf2 full2]|e] w1] eqn:Hd;
      [|discriminate].
    apply drain_delivers in Hd as (ds1 & Hd1 & Hf1).
    apply IH in H as (ds2 & Hd2 & Hf2). exists (ds1 ++ ds2).
    rewrite Hd2, Hd1, Hf2, Hf1, map_app, concat_app, <- !app_assoc. split; reflexivity.
Qed.

(** X10: the text [ollamaChatStream] returns is the concatenation, in
    order, of the deltas it handed to onToken during the call: nothing is
    accumulated without being forwarded, and nothing is forwarded without
    being accumulated. *)
Theorem ollamaChatStream_returns_what_it_forwards :
  forall (p : chat_params) (onToken : value -> completion unit)
         (onRawLine : option (jsstring -> completion unit)) (w w' : world) (full : jsstring),
    ollamaChatStream p onToken onRawLine w = (Normal full, w') ->
    exists ds, delivered w' = delivered w ++ ds /\ full = concat (map delta_text ds).
Proof.
  intros p onToken onRawLine w w' full H.
  unfold ollamaChatStream, fetch, bind in H.
  destruct (answer w) as [res|e]; [|discriminate].
  destruct (negb (res_ok res)).
  { unfold lift, throw in H. destruct (res_text res); discriminate. }
  destruct (res_body res) as [[chunks ending]|]; [|discriminate].
  apply read_loop_delivers in H as (ds & Hd & Hf). exists ds. split; [exact Hd | exact Hf].
Qed.

Lemma ollamaChatStream_returns_what_it_forwards_witness :
  ollamaChatStream (primary demo_params) quiet None hello_world
  = (Normal (lit "Hello"), snd (ollamaChatStream (primary demo_params) quiet None hello_world))
  /\ exists ds,
       delivered (snd (ollamaChatStream (primary demo_params) quiet None hello_world))
       = delivered hello_world ++ ds
       /\ lit "Hello" = concat (map delta_text ds).
Proof.
  split; [vm_compute; reflexivity|].
  apply (ollamaChatStream_returns_what_it_forwards (primary demo_params) quiet None hello_world).
  vm_compute; reflexivity.
Defined.

Lemma occurs_newline_app a b :
  occurs [10] a = false -> occurs [10] b = false -> occurs [10] (a ++ b) = false.
Proof.
  induction a as [|c r IH]; intros Ha Hb; [exact Hb|].
  cbn [occurs app startsWith] in *. apply orb_false_iff in Ha as (Hc & Hr).
  rewrite Hc. cbn [orb]. apply IH; assumption.
Qed.

Lemma no_newline_app a b :
  indexOf a [10] = -1 -> indexOf b [10] = -1 -> indexOf (a ++ b) [10] = -1.
Proof.
  unfold indexOf. intros Ha Hb.
  apply indexOf_from_occurs in Ha; [|lia]. apply indexOf_from_occurs in Hb; [|lia].
  apply indexOf_from_occurs; [lia|]. apply occurs_newline_app; assumption.
Qed.

Lemma read_loop_no_newline onToken onRawLine : forall chunks buf full w,
  indexOf buf [10] = -1 ->
  forallb (fun c => indexOf c [10] =? -1) chunks = true ->
  read_loop chunks None onToken onRawLine buf full w = (Normal full, w).
Proof.
  induction chunks as [|c rest IH]; intros buf full w Hb Hc; [reflexivity|].
  cbn [forallb] in Hc. apply andb_true_iff in Hc as (Hc & Hr). apply Z.eqb_eq in Hc.
  pose proof (no_newline_app buf c Hb Hc) as Hbc.
  cbn [read_loop drain]. rewrite Hbc. cbn [Z.eqb]. unfold bind, ret.
  apply IH; assumption.
Qed.

(** X11: only lines that a newline ends are parsed. When no chunk of a
    successful streamed response contains a newline, whatever records the
    chunks hold, [ollamaChatStream] returns the empty text and hands
    nothing to onToken. *)
Theorem ollamaChatStream_needs_newlines :
  forall (p : chat_params) (onToken : value -> completion unit)
         (onRawLine : option (jsstring -> completion unit)) (w : world)
         (res : response) (chunks : list jsstring),
    answer w = Normal res -> res_ok res = true -> res_body res = Some (chunks, None) ->
    forallb (fun c => indexOf c [10] =? -1) chunks = true ->
    ollamaChatStream p onToken onRawLine w = (Normal [], record_call (chat_request p true) w).
Proof.
  intros p onToken onRawLine w res chunks Ha Hok Hbody Hc.
  unfold ollamaChatStream, fetch, bind. rewrite Ha, Hok, Hbody. cbn [negb].
  apply read_loop_no_newline; [reflexivity | exact Hc].
Qed.

Lemma ollamaChatStream_needs_newlines_witness :
  Json.parse (concat unterminated_chunks)
  = Normal (VObj [(lit "message", VObj [(lit "content", VStr (lit "Hello"))]);
                  (lit "done", VBool true)])
  /\ ollamaChatStream (primary demo_params) quiet None unterminated_world
     = (Normal [], record_call (chat_request (primary demo_params) true) unterminated_world).
Proof.
  split; [vm_compute; reflexivity|].
  apply (ollamaChatStream_needs_newlines (primary demo_params) quiet None unterminated_world
           (stream_answer unterminated_chunks) unterminated_chunks); vm_compute; reflexivity.
Defined.

(** ** The controller: failures and streaming *)

(** X12: a failure of the primary call is not repaired. When the
    primary [ollamaChat] or [ollamaChatStream] call throws (the fetch is
    rejected, the status is a failure, the answer has no content), the
    controller throws the same exception and has made that one call
    only. *)
Theorem primary_failure_is_not_repaired :
  forall (p : json_params) (onToken : value -> completion unit) (w w1 : world) (e : exn),
    (ollamaChat (primary p) w = (Throw e, w1) ->
     callJSON p w = (Throw e, w1) /\ ncalls w1 = S (ncalls w))
    /\ (ollamaChatStream (primary p) onToken None w = (Throw e, w1) ->
        callJSONStream p onToken w = (Throw e, w1) /\ ncalls w1 = S (ncalls w)).
Proof.
  intros p onToken w w1 e. split; intros H.
  - split; [|eapply ollamaChat_ncalls; exact H].
    unfold callJSON, bind. rewrite H. reflexivity.
  - split; [|eapply ollamaChatStream_ncalls; exact H].
    unfold callJSONStream, bind. rewrite H. reflexivity.
Qed.

Lemma primary_failure_is_not_repaired_witness :
  callJSON demo_params overloaded_world
  = (Throw (Error (lit "Ollama error (503): overloaded")),
     record_call (chat_request (primary demo_params) false) overloaded_world)
  /\ ncalls (record_call (chat_request (primary demo_params) false) overloaded_world)
     = S (ncalls overloaded_world).
Proof.
  apply (proj1 (primary_failure_is_not_repaired demo_params quiet overloaded_world
                  (record_call (chat_request (primary demo_params) false) overloaded_world)
                  (Error (lit "Ollama error (503): overloaded")))).
  vm_compute; reflexivity.
Defined.

Lemma record_call_delivered req w : delivered (record_call req w) = delivered w.
Proof. reflexivity. Qed.

(** X13: the repair pass is never streamed. The deltas handed to
    onToken during [callJSONStream] are those of the primary streamed
    call, whether or not a repair follows; [callJSON] hands over none. *)
Theorem repair_is_not_streamed :
  forall (p : json_params) (onToken : value -> completion unit) (w : world),
    delivered (snd (callJSONStream p onToken w))
    = delivered (snd (ollamaChatStream (primary p) onToken None w))
    /\ delivered (snd (callJSON p w)) = delivered w.
Proof.
  intros p onToken w. split.
  - rewrite callJSONStream_run.
    destruct (ollamaChatStream (primary p) onToken None w) as [[raw1|e] w1]; [|reflexivity].
    destruct (fst (tryParseJSON (VStr raw1))) as [p1|e]; [|reflexivity].
    destruct (Val.truthy p1); reflexivity.
  - rewrite callJSON_run.
    destruct (cbind (answer w) read_chat) as [a1|e]; [|reflexivity].
    destruct (fst (tryParseJSON a1)) as [p1|e]; [|reflexivity].
    destruct (Val.truthy p1); [reflexivity|].
    destruct a1; reflexivity.
Qed.

Lemma slice_prefix_length s n : 0 <= n -> strlen (slice s 0 n) <= n.
Proof. apply slice_zero_length. Qed.

(** X14: when the primary text and the repair text both fail extraction,
    the controller throws, after exactly two calls, an Error whose
    message opens with the fixed sentence and quotes at most 500 code
    units of each text: the message has at most 1054 code units. *)
Theorem double_failure_is_reported :
  forall (p : json_params) (w w1 : world) (a1 r : jsstring) (p1 pr : value) (res2 : response),
    ollamaChat (primary p) w = (Normal (VStr a1), w1) ->
    fst (tryParseJSON (VStr a1)) = Normal p1 -> Val.truthy p1 = false ->
    answer w1 = Normal res2 -> read_chat res2 = Normal (VStr r) ->
    fst (tryParseJSON (VStr r)) = Normal pr -> Val.truthy pr = false ->
    exists msg,
      fst (callJSON p w) = Throw (Error msg)
      /\ msg = lit "Model returned non-JSON after attempt+repair. A1=" ++ slice a1 0 500
               ++ lit " | R=" ++ slice r 0 500
      /\ strlen msg <= 1054
      /\ ncalls (snd (callJSON p w)) = (ncalls w + 2)%nat.
Proof.
  intros p w w1 a1 r p1 pr res2 Hc Hp Ht Ha Hr Hpr Htr.
  pose proof (ollamaChat_ncalls _ _ _ _ Hc) as Hn.
  rewrite callJSON_run. rewrite ollamaChat_run in Hc. inversion Hc as [[H0 H1]].
  rewrite H0, Hp, Ht. cbn [fst snd].
  eexists. split.
  - unfold repair, bind. rewrite ollamaChat_run, H1, Ha. cbn [cbind]. rewrite Hr.
    unfold lift. rewrite Hpr, Htr. reflexivity.
  - split; [reflexivity|]. split.
    + pose proof (slice_prefix_length a1 500 ltac:(lia)) as L1.
      pose proof (slice_prefix_length r 500 ltac:(lia)) as L2.
      unfold strlen in *. rewrite !length_app.
      change (List.length (lit "Model returned non-JSON after attempt+repair. A1=")) with 49%nat.
      change (List.length (lit " | R=")) with 5%nat.
      unfold jsstring, char in *. lia.
    + rewrite !ncalls_record_call. rewrite <- H1 in Hn. rewrite ncalls_record_call in Hn. lia.
Qed.

Lemma double_failure_is_reported_witness :
  exists msg,
    fst (callJSON demo_params prose_twice_world) = Throw (Error msg)
    /\ msg = lit "Model returned non-JSON after attempt+repair. A1=" ++ slice prose_text 0 500
             ++ lit " | R=" ++ slice prose_text 0 500
    /\ strlen msg <= 1054
    /\ ncalls (snd (callJSON demo_params prose_twice_world)) = (ncalls prose_twice_world + 2)%nat.
Proof.
  apply (double_failure_is_reported demo_params prose_twice_world
           (record_call (chat_request (primary demo_params) false) prose_twice_world)
           prose_text prose_text VNull VNull (chat_answer prose_text));
    vm_compute; reflexivity.
Defined.

(** ** Outline titles *)

Lemma fix_title_eq i s :
  fix_title i s
  = if degenerate_title (outline_title s)
    then {| outline_key := outline_key s; outline_title := generic_title i |}
    else s.
Proof. reflexivity. Qed.

Lemma generic_title_trim i : trim (generic_title i) = generic_title i.
Proof.
  unfold generic_title, trim.
  change (lit "Define step ") with (68 :: lit "efine step ").
  cbn [app trimStart is_ws Z.eqb Z.leb Z.compare Pos.compare Pos.compare_cont orb andb Pos.eqb].
  change (lit " deliverable") with (lit " deliverabl" ++ [101]).
  change (68 :: (lit "efine step " ++ decimal (i + 1) ++ lit " deliverabl" ++ [101]))
    with ((68 :: lit "efine step ") ++ decimal (i + 1) ++ lit " deliverabl" ++ [101]).
  rewrite !app_assoc. apply trimEnd_snoc. reflexivity.
Qed.

Lemma generic_title_ok i : degenerate_title (generic_title i) = false.
Proof.
  unfold degenerate_title. rewrite generic_title_trim. cbv zeta.
  assert (Hl : 24 <= strlen (generic_title i)).
  { unfold generic_title, strlen. rewrite !length_app.
    change (List.length (lit "Define step ")) with 12%nat.
    change (List.length (lit " deliverable")) with 12%nat. lia. }
  assert (H6 : (strlen (generic_title i) <? 6) = false) by (apply Z.ltb_ge; lia).
  rewrite H6. unfold generic_title.
  change (lit "Define step ") with (68 :: lit "efine step "). reflexivity.
Qed.

Lemma fix_titles_non_degenerate l : forall i,
  forallb (fun s => negb (degenerate_title (outline_title s))) (fix_titles i l) = true.
Proof.
  induction l as [|s r IH]; intros i; [reflexivity|].
  cbn [fix_titles forallb]. rewrite IH, andb_true_r, fix_title_eq.
  destruct (degenerate_title (outline_title s)) eqn:E.
  - cbn [outline_title]. rewrite generic_title_ok. reflexivity.
  - rewrite E. reflexivity.
Qed.

Lemma fix_titles_idem l : forall i, fix_titles i (fix_titles i l) = fix_titles i l.
Proof.
  induction l as [|s r IH]; intros i; [reflexivity|].
  cbn [fix_titles]. rewrite IH, !fix_title_eq.
  destruct (degenerate_title (outline_title s)) eqn:E.
  - cbn [outline_title outline_key]. rewrite generic_title_ok. reflexivity.
  - rewrite E. reflexivity.
Qed.

(** X15: after the degenerate-title pass no title is degenerate: trimmed,
    every title has at least 6 code units and is not a bare step number.
    Running the pass again changes nothing. *)
Theorem fix_titles_leaves_no_degenerate_title :
  forall (i : Z) (l : list OutlineStep),
    forallb (fun s => negb (degenerate_title (outline_title s))) (fix_titles i l) = true
    /\ fix_titles i (fix_titles i l) = fix_titles i l.
Proof.
  intros i l. split; [apply fix_titles_non_degenerate | apply fix_titles_idem].
Qed.

Lemma trunc_inject_Z z : Num.trunc (inject_Z z) = z.
Proof. unfold Num.trunc, inject_Z. cbn [Qnum Qden]. apply Z.quot_1_r. Qed.

(** X16: when the payload reports no step_count, the number of entries
    it lists stands for it: the outline has that many steps, clamped into
    the bounds. (An array has fewer than 2^32 elements.) *)
Theorem normalizeOutline_default_count :
  forall (raw : value) (lo hi : Z) (o : OutlineResponse),
    normalizeOutline raw lo hi = Normal o ->
    Val.nullish (Val.get raw (lit "step_count")) = true ->
    Z.of_nat (List.length (Val.array_items (Val.get raw (lit "steps")))) < 2 ^ 32 ->
    step_count o
    = Z.min hi (Z.max lo (Z.of_nat (List.length (Val.array_items (Val.get raw (lit "steps")))))).
Proof.
  intros raw lo hi o H Hnull Hlen. unfold normalizeOutline in H.
  unfold Val.coalesce in H. rewrite Hnull in H. cbn [Val.ToNumber cbind] in H.
  apply cbind_normal in H as (byKey & _ & H). inversion H; subst o. cbn [step_count].
  rewrite of_Z_exact by (split; [lia|]; eapply Z.lt_trans; [exact Hlen | reflexivity]).
  unfold clampInt. rewrite trunc_inject_Z. reflexivity.
Qed.

Lemma normalizeOutline_default_count_witness :
  normalizeOutline repeated_outline 3 10 = Normal repeated_normalized
  /\ step_count repeated_normalized
     = Z.min 10 (Z.max 3 (Z.of_nat (List.length
                                      (Val.array_items (Val.get repeated_outline (lit "steps")))))).
Proof.
  split; [vm_compute; reflexivity|].
  apply (normalizeOutline_default_count repeated_outline 3 10 repeated_normalized);
    vm_compute; reflexivity.
Defined.

Lemma find_snoc {A} (P : A -> bool) l x :
  find P (l ++ [x])
  = match find P l with
    | Some y => Some y
    | None => if P x then Some x else None
    end.
Proof.
  induction l as [|a l IH]; [reflexivity|].
  cbn [app find]. destruct (P a); [reflexivity | exact IH].
Qed.

Lemma collect_titles_spec k : k <> [] -> forall l m0 m,
  collect_titles l m0 = Normal m ->
  map_get k m
  = match deciding_entry l k with
    | Some s => Some (entry_title s)
    | None => map_get k m0
    end.
Proof.
  intros Hk. induction l as [|s rest IH]; intros m0 m H.
  - cbn [collect_titles] in H. inversion H; subst. reflexivity.
  - cbn [collect_titles] in H.
    apply cbind_normal in H as (k0 & Hk0 & H). apply cbind_normal in H as (t0 & Ht0 & H).
    apply IH in H. rewrite H. unfold deciding_entry. cbn [rev]. rewrite find_snoc.
    destruct (find _ (rev rest)) as [s'|]; [reflexivity|].
    assert (Ek : entry_key s = trim k0) by (unfold entry_key, delta_text; rewrite Hk0; reflexivity).
    assert (Et : entry_title s = trim t0)
      by (unfold entry_title, delta_text; rewrite Ht0; reflexivity).
    rewrite Ek, Et.
    destruct (trim k0) as [|kc kr] eqn:Etk.
    + destruct k as [|c r]; [contradiction | reflexivity].
    + destruct (trim t0) as [|tc tr] eqn:Ett.
      * rewrite andb_false_r. reflexivity.
      * rewrite andb_true_r. unfold map_set. cbn [map_get].
        destruct (str_eqb (kc :: kr) k); cbn [andb]; rewrite ?Et; reflexivity.
Qed.

Lemma trim_idem s : trim (trim s) = trim s.
Proof. apply trim_fix; apply trim_tidy. Qed.

(** X17: the titles of a normalised outline. Entry [i] is keyed step_i
    and takes the trimmed title of the last entry the generator listed
    under that key (trimmed) with a title that is not blank; entries
    listed under other keys are ignored, and without such an entry the
    title is Step i. *)
Theorem normalizeOutline_titles :
  forall (raw : value) (lo hi : Z) (o : OutlineResponse),
    normalizeOutline raw lo hi = Normal o ->
    steps o
    = map (fun i => {| outline_key := lit "step_" ++ decimal (Z.of_nat i);
                       outline_title :=
                         listed_title (Val.array_items (Val.get raw (lit "steps")))
                           (Z.of_nat i) |})
        (seq 1 (Z.to_nat (step_count o))).
Proof.
  intros raw lo hi o H. unfold normalizeOutline in H.
  apply cbind_normal in H as (n & _ & H). apply cbind_normal in H as (byKey & Hb & H).
  inversion H; subst o. cbn [steps step_count]. apply map_ext. intros i.
  unfold outline_step, listed_title. f_equal.
  assert (Hk : lit "step_" ++ decimal (Z.of_nat i) <> []) by discriminate.
  rewrite (collect_titles_spec _ Hk _ _ _ Hb). cbn [map_get].
  unfold deciding_entry.
  destruct (find _ (rev (Val.array_items (Val.get raw (lit "steps"))))) as [s|] eqn:Ef;
    [|reflexivity].
  apply find_some in Ef as (_ & Ef). apply andb_true_iff in Ef as (_ & Ef).
  unfold entry_title in *. rewrite trim_idem.
  destruct (trim _); [discriminate | reflexivity].
Qed.

Lemma normalizeOutline_titles_witness :
  normalizeOutline repeated_outline 3 10 = Normal repeated_normalized
  /\ steps repeated_normalized
     = map (fun i => {| outline_key := lit "step_" ++ decimal (Z.of_nat i);
                        outline_title :=
                          listed_title (Val.array_items (Val.get repeated_outline (lit "steps")))
                            (Z.of_nat i) |})
         (seq 1 (Z.to_nat (step_count repeated_normalized))).
Proof.
  split; [vm_compute; reflexivity|].
  apply (normalizeOutline_titles repeated_outline 3 10 repeated_normalized).
  vm_compute; reflexivity.
Defined.

(** ** The plan handler, stage by stage *)

(** A run of [handleGeneratePlan] that returns a response, stage by
    stage. *)
Lemma handleGeneratePlan_inv env body w resp w' :
  handleGeneratePlan env body w = (Normal resp, w') ->
  (valid_body body = false /\ resp = bad_request env /\ w' = w)
  \/ (valid_body body = true
      /\ exists detail, insert_plan (plan_row env body) w = (Normal (DbError detail), w')
                        /\ resp = plan_insert_failed env detail)
  \/ (valid_body body = true
      /\ exists plan w1 outlineRaw w2 o0 phErr w3 ip gen w4,
           insert_plan (plan_row env body) w = (Normal (DbData plan), w1)
           /\ callJSON (outline_call env body) w1 = (Normal outlineRaw, w2)
           /\ normalizeOutline outlineRaw (MIN_STEPS env) (MAX_STEPS env) = Normal o0
           /\ insert_steps (placeholder_rows plan 0 (fix_titles 0 (steps o0))) w2
              = (Normal phErr, w3)
           /\ generate_steps
                (fun s => step_call env (field (body_company_name body))
                            (field (body_company_title body))
                            (field (body_short_description body))
                            (body_long_description body) s (step_count o0))
                plan 0 (fix_titles 0 (steps o0)) (negb (db_failed phErr)) [] w3
              = (Normal (ip, gen), w4)
           /\ finalize env plan (step_count o0) ip gen w4 = (Normal resp, w')).
Proof.
  unfold handleGeneratePlan. intros H.
  fold (plan_row env body) in H. fold (outline_call env body) in H.
  destruct (negb (present (body_company_name body)) || _ || _) eqn:Ev.
  { left. unfold ret in H. inversion H; subst. split; [|split; reflexivity].
    unfold valid_body.
    destruct (present (body_company_name body)); [|reflexivity].
    destruct (present (body_company_title body)); [|reflexivity].
    destruct (present (body_short_description body)); [discriminate | reflexivity]. }
  assert (Hv : valid_body body = true).
  { unfold valid_body.
    destruct (present (body_company_name body)); [|discriminate].
    destruct (present (body_company_title body)); [|discriminate].
    destruct (present (body_short_description body)); [reflexivity | discriminate]. }
  right. unfold bind at 1 in H.
  destruct (insert_plan (plan_row env body) w) as [[[plan|detail]|e] w1] eqn:Hp;
    [| |discriminate].
  2:{ left. split; [exact Hv|]. exists detail. unfold ret in H. inversion H; subst.
      split; reflexivity. }
  right. split; [exact Hv|].
  unfold bind at 1 in H.
  destruct (callJSON (outline_call env body) w1) as [[outlineRaw|e] w2] eqn:Hc; [|discriminate].
  unfold bind at 1, lift at 1 in H.
  destruct (normalizeOutline outlineRaw (MIN_STEPS env) (MAX_STEPS env)) as [o0|e] eqn:Ho;
    [|discriminate].
  cbn [step_count steps] in H.
  unfold bind at 1 in H.
  destruct (insert_steps _ w2) as [[phErr|e] w3] eqn:Hph; [|discriminate].
  unfold bind at 1 in H.
  destruct (generate_steps _ plan 0 _ _ [] w3) as [[[ip gen]|e] w4] eqn:Hg; [|discriminate].
  exists plan, w1, outlineRaw, w2, o0, phErr, w3, ip, gen, w4.
  repeat split; try reflexivity; assumption.
Qed.

Lemma db_step_calls ev apply w :
  calls (snd (db_step ev apply w)) = calls w
  /\ upstream (snd (db_step ev apply w)) = upstream w
  /\ delivered (snd (db_step ev apply w)) = delivered w.
Proof. repeat split. Qed.

Lemma db_step_ncalls ev apply w c w' :
  db_step ev apply w = (c, w') -> ncalls w' = ncalls w.
Proof.
  intros H. pose proof (db_step_calls ev apply w) as (Hc & _). rewrite H in Hc.
  unfold ncalls. cbn [snd] in Hc. rewrite Hc. reflexivity.
Qed.

Lemma callJSON_ncalls p w :
  ncalls (snd (callJSON p w)) = S (ncalls w) \/ ncalls (snd (callJSON p w)) = S (S (ncalls w)).
Proof.
  rewrite callJSON_run.
  destruct (cbind (answer w) read_chat) as [a1|e]; cbn [snd];
    [|left; apply ncalls_record_call].
  destruct (fst (tryParseJSON a1)) as [p1|e]; cbn [snd]; [|left; apply ncalls_record_call].
  destruct (Val.truthy p1); cbn [snd]; [left; apply ncalls_record_call|].
  destruct a1; cbn [snd]; rewrite ?ncalls_record_call; auto.
Qed.

Lemma normalizeStepGen_row raw s g plan i :
  normalizeStepGen raw (outline_key s) (outline_title s) = Normal g ->
  generated_from plan i s
    {| plan_id := plan; step_key := gen_step_key g; order_index := i;
       title := gen_title g; details := gen_details g;
       success_criteria := gen_success_criteria g; priority := gen_priority g;
       estimated_minutes := gen_estimated_minutes g; status := lit "not_started" |}.
Proof.
  intros H.
  apply normalizeStepGen_inv in H as (d & sc & n & p & Hd & Hs & _ & Hp & Hdn & Hsn & ->).
  unfold generated_from.
  cbn [plan_id step_key order_index title details success_criteria priority
       estimated_minutes status gen_step_key gen_title gen_details gen_success_criteria
       gen_priority gen_estimated_minutes].
  apply cleanText_inv in Hd as (td & _ & Hd). apply cleanText_inv in Hs as (ts & _ & Hs).
  pose proof (clean_invariants td 120 ltac:(lia)) as (Hdl & Hde).
  pose proof (clean_invariants ts 110 ltac:(lia)) as (Hsl & Hse).
  rewrite <- Hd in Hdl, Hde. rewrite <- Hs in Hsl, Hse.
  apply normalizePriority_inv in Hp as (s0 & _ & ->).
  assert (Hpos : forall x : jsstring, x <> [] -> 0 < strlen x).
  { intros [|c x] Hx; [contradiction|]. unfold strlen. cbn [List.length]. lia. }
  repeat split; try reflexivity.
  - pose proof (clampInt_bounds n 10 90 ltac:(lia)). lia.
  - pose proof (clampInt_bounds n 10 90 ltac:(lia)). lia.
  - destruct (is_priority (trim (toLowerCase s0))) eqn:E; [exact E | reflexivity].
  - apply Hpos; exact Hdn.
  - lia.
  - destruct Hde as [Hc | Hc]; [contradiction | exact Hc].
  - apply Hpos; exact Hsn.
  - lia.
  - destruct Hse as [Hc | Hc]; [contradiction | exact Hc].
Qed.

Lemma rows_from_snoc plan : forall l i rows,
  rows_from plan i l rows -> List.length rows = List.length l.
Proof.
  induction l as [|s l IH]; intros i [|r rows] H; cbn [rows_from] in H; try contradiction;
    [reflexivity|].
  destruct H as (_ & H). cbn [List.length]. f_equal. eapply IH; exact H.
Qed.

(** The step loop: the rows it generates, and the calls it costs. *)
Lemma generate_steps_rows call plan : forall l i ip0 gen0 w ip gen w',
  generate_steps call plan i l ip0 gen0 w = (Normal (ip, gen), w') ->
  exists rows,
    gen = gen0 ++ rows
    /\ rows_from plan i l rows
    /\ (ncalls w + List.length l <= ncalls w' <= ncalls w + 2 * List.length l)%nat
    /\ (ip0 = false -> ip = false).
Proof.
  induction l as [|s rest IH]; intros i ip0 gen0 w ip gen w' H.
  - cbn [generate_steps] in H. unfold ret in H. inversion H; subst.
    exists []. rewrite app_nil_r. cbn [List.length rows_from]. repeat split; auto; lia.
  - cbn [generate_steps] in H. unfold bind at 1 in H.
    pose proof (callJSON_ncalls (call s) w) as Hn.
    destruct (callJSON (call s) w) as [[raw|e] w1]; [|discriminate]. cbn [snd] in Hn.
    unfold bind at 1, lift at 1 in H.
    destruct (normalizeStepGen raw (outline_key s) (outline_title s)) as [g|e] eqn:Hg;
      [|discriminate].
    pose proof (normalizeStepGen_row raw s g plan (i + 1) Hg) as Hrow.
    destruct ip0.
    + unfold bind at 1 in H.
      destruct (update_step _ w1) as [[upErr|e] w2] eqn:Hu; [|discriminate].
      unfold update_step in Hu. apply db_step_ncalls in Hu.
      apply IH in H as (rows & -> & Hrows & Hc & _).
      eexists (_ :: rows). rewrite <- app_assoc. split; [reflexivity|].
      split; [split; [exact Hrow | exact Hrows]|].
      split; [cbn [List.length]; lia | discriminate].
    + apply IH in H as (rows & -> & Hrows & Hc & Hip).
      eexists (_ :: rows). rewrite <- app_assoc. split; [reflexivity|].
      split; [split; [exact Hrow | exact Hrows]|].
      split; [cbn [List.length]; lia | intros _; apply Hip; reflexivity].
Qed.

Lemma rows_from_keys plan : forall l i rows,
  rows_from plan i l rows -> map step_key rows = map outline_key l.
Proof.
  induction l as [|s l IH]; intros i [|r rows] H; cbn [rows_from] in H; try contradiction;
    [reflexivity|].
  destruct H as ((_ & Hk & _) & H). cbn [map]. rewrite Hk. f_equal. eapply IH; exact H.
Qed.

Lemma rows_from_order plan : forall l i rows,
  rows_from plan i l rows ->
  map order_index rows = map (fun j => i + Z.of_nat j) (seq 1 (List.length rows)).
Proof.
  induction l as [|s l IH]; intros i [|r rows] H; cbn [rows_from] in H; try contradiction;
    [reflexivity|].
  destruct H as ((_ & _ & Ho & _) & H). cbn [map List.length seq].
  rewrite Ho. f_equal.
  rewrite (IH _ _ H). rewrite <- (seq_shift (List.length rows) 1), map_map.
  apply map_ext. intros j. lia.
Qed.

Lemma rows_from_ok plan : forall l i rows,
  rows_from plan i l rows ->
  forallb (fun s => negb (degenerate_title (outline_title s))) l = true ->
  Forall (step_row_ok plan) rows.
Proof.
  induction l as [|s l IH]; intros i [|r rows] H Hd; cbn [rows_from] in H; try contradiction;
    [constructor|].
  destruct H as ((Hp & _ & _ & Ht & Hs & Hm & Hpr & Hde & Hsc) & H).
  cbn [forallb] in Hd. apply andb_true_iff in Hd as (Hd1 & Hd2).
  constructor; [|eapply IH; eassumption].
  unfold step_row_ok. rewrite Ht. apply negb_true_iff in Hd1.
  repeat split; try assumption; tauto.
Qed.

Lemma finalize_inv env plan count ip gen w resp w' :
  finalize env plan count ip gen w = (Normal resp, w') ->
  ncalls w' = ncalls w
  /\ (http_status resp = 200
      /\ http_body resp = PlanBody (lit "generate_plan") plan (FAST_MODEL env) count gen
      \/ http_status resp = 500
         /\ exists detail,
              http_body resp = ErrorBody (lit "Failed to insert generated steps") (Some detail)).
Proof.
  unfold finalize. destruct ip; cbn [negb].
  - unfold ret. intros H; inversion H; subst. split; [reflexivity | left; split; reflexivity].
  - unfold bind at 1. unfold delete_steps.
    destruct (db_step _ _ w) as [c w1] eqn:H1.
    pose proof (db_step_ncalls _ _ _ _ _ H1) as N1.
    pose proof (db_step_run (DeleteSteps plan)
                  (filter (fun r => negb (str_eqb (plan_id r) plan))) w) as (d & Hd & _).
    rewrite H1 in Hd. cbn [fst] in Hd. subst c.
    unfold bind at 1. unfold insert_steps.
    destruct (db_step _ _ w1) as [c w2] eqn:H2.
    pose proof (db_step_ncalls _ _ _ _ _ H2) as N2.
    pose proof (db_step_run (InsertSteps gen) (fun t => t ++ gen) w1) as (r & Hr & _).
    rewrite H2 in Hr. cbn [fst] in Hr. subst c.
    destruct r as [id|detail]; unfold ret; intros H; inversion H; subst; (split; [lia|]).
    + left; split; reflexivity.
    + right; split; [reflexivity | exists detail; reflexivity].
Qed.

(** X18: the shape of a successful response. When [handleGeneratePlan]
    answers 200 under bounds 0 <= MIN_STEPS <= MAX_STEPS, its step_count
    is within the bounds and is the number of steps it lists; the steps
    are keyed step_1 .. step_N and numbered 1 .. N in order; and every
    step belongs to the new plan, has not started, has a title that is
    not degenerate, minutes within 10 .. 90, a priority among low, medium,
    high, and details and success criteria that are not empty, end in
    terminal punctuation and keep within 121 and 111 code units. *)
Theorem generate_plan_response_shape :
  forall (env : Env) (body : GeneratePlanBody) (w w' : world) (resp : http_response),
    handleGeneratePlan env body w = (Normal resp, w') ->
    http_status resp = 200 ->
    0 <= MIN_STEPS env <= MAX_STEPS env ->
    exists plan count rows,
      http_body resp = PlanBody (lit "generate_plan") plan (FAST_MODEL env) count rows
      /\ MIN_STEPS env <= count <= MAX_STEPS env
      /\ Z.of_nat (List.length rows) = count
      /\ map step_key rows = step_keys (List.length rows)
      /\ map order_index rows = map Z.of_nat (seq 1 (List.length rows))
      /\ Forall (step_row_ok plan) rows.
Proof.
  intros env body w w' resp H Hst Hb.
  apply handleGeneratePlan_inv in H
    as [(_ & -> & _) | [(_ & detail & _ & ->) | (_ & plan & w1 & outlineRaw & w2 & o0 & phErr
                                                  & w3 & ip & gen & w4 & _ & _ & Ho & _ & Hg & Hf)]];
    try discriminate.
  apply generate_steps_rows in Hg as (rows & Hgen & Hrows & _ & _). cbn [app] in Hgen. subst gen.
  apply finalize_inv in Hf as (_ & [(_ & Hbody) | (Hc & _)]); [|rewrite Hc in Hst; discriminate].
  exists plan, (step_count o0), rows. split; [exact Hbody|].
  pose proof (rows_from_snoc _ _ _ _ Hrows) as Hlen.
  pose proof (normalizeOutline_length _ _ _ _ Ho) as Hlo.
  pose proof (normalizeOutline_keys _ _ _ _ Ho) as Hko.
  assert (Hfl : List.length (fix_titles 0 (steps o0)) = List.length (steps o0)).
  { rewrite <- (length_map outline_key), fix_titles_keys, length_map. reflexivity. }
  apply normalizeOutline_inv in Ho as (n & byKey & Ho).
  assert (Hcount : MIN_STEPS env <= step_count o0 <= MAX_STEPS env).
  { rewrite Ho. cbn [step_count]. apply clampInt_bounds. lia. }
  split; [exact Hcount|].
  split; [rewrite Hlen, Hfl, Hlo; lia|].
  split.
  { rewrite (rows_from_keys _ _ _ _ Hrows), fix_titles_keys, Hko, Hlen, Hfl. reflexivity. }
  split.
  { rewrite (rows_from_order _ _ _ _ Hrows). apply map_ext. intros j. lia. }
  eapply rows_from_ok; [exact Hrows | apply fix_titles_non_degenerate].
Qed.

Lemma generate_plan_response_shape_witness :
  handleGeneratePlan demo_env demo_body fallback_world
  = (Normal fallback_response, snd (handleGeneratePlan demo_env demo_body fallback_world))
  /\ exists plan count rows,
       http_body fallback_response
       = PlanBody (lit "generate_plan") plan (FAST_MODEL demo_env) count rows
       /\ MIN_STEPS demo_env <= count <= MAX_STEPS demo_env
       /\ Z.of_nat (List.length rows) = count
       /\ map step_key rows = step_keys (List.length rows)
       /\ map order_index rows = map Z.of_nat (seq 1 (List.length rows))
       /\ Forall (step_row_ok plan) rows.
Proof.
  split; [vm_compute; reflexivity|].
  apply (generate_plan_response_shape demo_env demo_body fallback_world
           (snd (handleGeneratePlan demo_env demo_body fallback_world)) fallback_response).
  - vm_compute; reflexivity.
  - reflexivity.
  - vm_compute. split; discriminate.
Defined.

(** X19: what a plan costs. A run of [handleGeneratePlan] that answers
    200 with N steps has made at least N + 1 and at most 2 N + 2
    generation calls: one or two for the outline and for every step. *)
Theorem generate_plan_call_budget :
  forall (env : Env) (body : GeneratePlanBody) (w w' : world) (resp : http_response)
         (mode plan model_used : jsstring) (count : Z) (rows : list StepRow),
    handleGeneratePlan env body w = (Normal resp, w') ->
    http_body resp = PlanBody mode plan model_used count rows ->
    (ncalls w + List.length rows + 1 <= ncalls w'
     /\ ncalls w' <= ncalls w + 2 * List.length rows + 2)%nat.
Proof.
  intros env body w w' resp mode plan model_used count rows H Hbody.
  apply handleGeneratePlan_inv in H
    as [(_ & -> & _) | [(_ & detail & _ & ->) | (_ & plan' & w1 & outlineRaw & w2 & o0 & phErr
                                                  & w3 & ip & gen & w4 & H1 & H2 & _ & H3 & Hg & Hf)]];
    try discriminate.
  apply generate_steps_rows in Hg as (rows' & Hgen & Hrows & Hn & _). cbn [app] in Hgen.
  subst gen.
  apply finalize_inv in Hf as (Nf & [(_ & Hb) | (_ & d & Hb)]); rewrite Hb in Hbody;
    [|discriminate].
  inversion Hbody; subst. clear Hbody.
  pose proof (rows_from_snoc _ _ _ _ Hrows) as Hlen. rewrite <- Hlen in Hn.
  unfold insert_plan in H1. apply db_step_ncalls in H1.
  unfold insert_steps in H3. apply db_step_ncalls in H3.
  pose proof (callJSON_ncalls (outline_call env body) w1) as Hc. rewrite H2 in Hc.
  cbn [snd] in Hc. lia.
Qed.

Lemma generate_plan_call_budget_witness :
  handleGeneratePlan demo_env demo_body fallback_world
  = (Normal fallback_response, snd (handleGeneratePlan demo_env demo_body fallback_world))
  /\ (ncalls fallback_world + List.length generated_rows + 1
      <= ncalls (snd (handleGeneratePlan demo_env demo_body fallback_world))
      /\ ncalls (snd (handleGeneratePlan demo_env demo_body fallback_world))
         <= ncalls fallback_world + 2 * List.length generated_rows + 2)%nat.
Proof.
  split; [vm_compute; reflexivity|].
  apply (generate_plan_call_budget demo_env demo_body fallback_world
           (snd (handleGeneratePlan demo_env demo_body fallback_world)) fallback_response
           (lit "generate_plan") (lit "plan-1") (FAST_MODEL demo_env) 3 generated_rows).
  - vm_compute; reflexivity.
  - reflexivity.
Defined.



(** X21: when the datastore refuses the plan row, the run ends there:
    the answer is 500 with the datastore's detail, the plan insert is the
    only datastore operation, no generation call is made and no step row
    is written. *)
Theorem refused_plan_ends_the_run :
  forall (env : Env) (body : GeneratePlanBody) (w : world) (detail : jsstring)
         (rest : list db_reply),
    valid_body body = true ->
    db_replies w = DbError detail :: rest ->
    exists w',
      handleGeneratePlan env body w = (Normal (plan_insert_failed env detail), w')
      /\ calls w' = calls w /\ upstream w' = upstream w
      /\ plan_steps w' = plan_steps w
      /\ db_log w' = db_log w ++ [InsertPlan (plan_row env body) false].
Proof.
  intros env body w detail rest Hv Hr. unfold handleGeneratePlan, valid_body in *.
  destruct (present (body_company_name body)); [|discriminate].
  destruct (present (body_company_title body)); [|discriminate].
  destruct (present (body_short_description body)); [|discriminate].
  cbn [negb orb]. fold (plan_row env body).
  unfold bind, insert_plan, db_step. rewrite Hr.
  eexists. split; [reflexivity|]. repeat split.
Qed.

Lemma refused_plan_ends_the_run_witness :
  exists w',
    handleGeneratePlan demo_env demo_body refused_plan_world
    = (Normal (plan_insert_failed demo_env (lit "plans is read-only")), w')
    /\ calls w' = calls refused_plan_world /\ upstream w' = upstream refused_plan_world
    /\ plan_steps w' = plan_steps refused_plan_world
    /\ db_log w' = db_log refused_plan_world ++ [InsertPlan (plan_row demo_env demo_body) false].
Proof.
  apply (refused_plan_ends_the_run demo_env demo_body refused_plan_world
           (lit "plans is read-only") []); reflexivity.
Defined.

(** ** Persistence without the fallback, and after refused placeholders *)

Lemma str_eqb_neq a b : a <> b -> str_eqb a b = false.
Proof.
  intros H. destruct (str_eqb a b) eqn:E; [|reflexivity].
  apply str_eqb_eq in E. contradiction.
Qed.

Lemma placeholder_rows_keys plan : forall l i,
  map step_key (placeholder_rows plan i l) = map outline_key l.
Proof.
  induction l as [|s l IH]; intros i; [reflexivity|].
  cbn [placeholder_rows map step_key]. rewrite IH. reflexivity.
Qed.

Lemma placeholder_rows_plan plan : forall l i,
  Forall (fun r => plan_id r = plan) (placeholder_rows plan i l).
Proof.
  induction l as [|s l IH]; intros i; constructor; [reflexivity | apply IH].
Qed.

(** An update leaves the rows of other plans and of other keys alone. *)
Lemma update_other_rows (f : StepRow -> StepRow) plan key (t : list StepRow) :
  (forall r, In r t -> same_step plan key r = false) ->
  map (fun r => if same_step plan key r then f r else r) t = t.
Proof.
  induction t as [|r t IH]; intros H; [reflexivity|].
  cbn [map]. rewrite (H r (or_introl eq_refl)). f_equal.
  apply IH. intros r' Hr'. apply H. right; exact Hr'.
Qed.

(** The step loop while every update is accepted: each placeholder is
    replaced, in place, by the row generated for it. [t0] holds the rows
    of other plans, [done] the rows already replaced. *)
Lemma generate_steps_in_place call plan t0 :
  (forall r, In r t0 -> str_eqb (plan_id r) plan = false) ->
  forall l i gen0 w gen w' done,
    generate_steps call plan i l true gen0 w = (Normal (true, gen), w') ->
    plan_steps w = t0 ++ done ++ placeholder_rows plan i l ->
    NoDup (map outline_key l) ->
    (forall r, In r done -> ~ In (step_key r) (map outline_key l)) ->
    exists rows,
      gen = gen0 ++ rows
      /\ plan_steps w' = t0 ++ done ++ rows
      /\ db_log w' = db_log w ++ map accepted_update rows
      /\ Forall (fun r => plan_id r = plan) rows.
Proof.
  intros Ht0. induction l as [|s rest IH]; intros i gen0 w gen w' done H Ht Hnd Hdone.
  - cbn [generate_steps] in H. unfold ret in H. inversion H; subst.
    exists []. cbn [placeholder_rows] in Ht. rewrite !app_nil_r in *.
    repeat split; [exact Ht | constructor].
  - cbn [generate_steps] in H. unfold bind at 1 in H.
    destruct (callJSON_db (call s) w) as (Hlog & _ & Htab).
    destruct (callJSON (call s) w) as [[raw|e] w1]; [|discriminate].
    cbn [snd] in Hlog, Htab.
    unfold bind at 1, lift at 1 in H.
    destruct (normalizeStepGen raw (outline_key s) (outline_title s)) as [g|e] eqn:Hg;
      [|discriminate].
    apply normalizeStepGen_inv in Hg as (d & sc & n & p & _ & _ & _ & _ & _ & _ & ->).
    cbn [gen_step_key gen_title gen_details gen_success_criteria gen_priority
         gen_estimated_minutes] in H.
    set (row := {| plan_id := plan; step_key := outline_key s; order_index := i + 1;
                   title := outline_title s; details := d; success_criteria := sc;
                   priority := p; estimated_minutes := clampInt n 10 90;
                   status := lit "not_started" |}) in *.
    unfold bind at 1 in H. unfold update_step in H.
    match type of H with context [db_step ?ev ?ap w1] =>
      destruct (db_step_run ev ap w1) as (reply & Hr & Hl & Htb);
      destruct (db_step ev ap w1) as [c w2] end.
    cbn [fst snd] in Hr, Hl, Htb. subst c.
    destruct (db_failed reply) eqn:Hfail; cbn [negb] in H.
    { (* a refused update switches the flag off for good *)
      apply generate_steps_rows in H as (_ & _ & _ & _ & Hoff).
      specialize (Hoff eq_refl). discriminate. }
    inversion Hnd as [|k ks Hnotin Hnd']; subst.
    (* the table after the update *)
    assert (Htable : plan_steps w2 = t0 ++ (done ++ [row]) ++ placeholder_rows plan (i + 1) rest).
    { rewrite Htb, Htab, Ht. cbn [placeholder_rows]. rewrite !map_app. cbn [map].
      cbn [plan_id step_key row].
      rewrite (update_other_rows _ plan (outline_key s) t0).
      2:{ intros r Hin. unfold same_step. rewrite (Ht0 r Hin). reflexivity. }
      rewrite (update_other_rows _ plan (outline_key s) done).
      2:{ intros r Hin. unfold same_step. rewrite (str_eqb_neq (step_key r) (outline_key s)).
          - apply andb_false_r.
          - intros E. apply (Hdone r Hin). left. symmetry. exact E. }
      rewrite (update_other_rows _ plan (outline_key s) (placeholder_rows plan (i + 1) rest)).
      2:{ intros r Hin. unfold same_step. rewrite (str_eqb_neq (step_key r) (outline_key s)).
          - apply andb_false_r.
          - intros E. apply Hnotin. rewrite <- E, <- (placeholder_rows_keys plan rest (i + 1)).
            apply in_map. exact Hin. }
      unfold same_step. cbn [plan_id step_key]. rewrite !str_eqb_refl. cbn [andb].
      cbn [order_index title status details success_criteria priority estimated_minutes].
      rewrite <- !app_assoc. reflexivity. }
    apply (IH (i + 1) _ w2 gen w' (done ++ [row])) in H; [|exact Htable | exact Hnd'|].
    2:{ intros r Hin. apply in_app_or in Hin as [Hin | Hin].
        - intros Hk. apply (Hdone r Hin). right. exact Hk.
        - cbn [In] in Hin. destruct Hin as [<- | Hin]; [exact Hnotin | contradiction]. }
    destruct H as (rows & -> & Htw & Hlw & Hpl).
    exists (row :: rows). rewrite <- !app_assoc in *. cbn [app] in *.
    split; [reflexivity|]. split; [exact Htw|].
    split; [|constructor; [reflexivity | exact Hpl]].
    rewrite Hlw, Hl, Hlog. cbn [map]. rewrite <- app_assoc. reflexivity.
Qed.

Lemma rows_of_none plan t :
  rows_of plan t = [] -> forall r, In r t -> str_eqb (plan_id r) plan = false.
Proof.
  unfold rows_of. induction t as [|x t IH]; intros H r Hin; [contradiction|].
  destruct Hin as [<- | Hin].
  - cbn [filter] in H. destruct (str_eqb (plan_id x) plan); [discriminate | reflexivity].
  - apply IH; [|exact Hin]. cbn [filter] in H.
    destruct (str_eqb (plan_id x) plan); [discriminate | exact H].
Qed.

Lemma rows_of_app_fresh plan t rows :
  rows_of plan t = [] -> Forall (fun r => plan_id r = plan) rows ->
  rows_of plan (t ++ rows) = rows.
Proof.
  intros Ht Hr. unfold rows_of in *. rewrite filter_app, Ht. cbn [app].
  induction Hr as [|r l Hp _ IH]; [reflexivity|].
  cbn [filter]. rewrite Hp, str_eqb_refl, IH. reflexivity.
Qed.

Lemma forallb_event_ok_app a b :
  forallb event_ok (a ++ b) = true -> forallb event_ok a = true /\ forallb event_ok b = true.
Proof. rewrite forallb_app. apply andb_true_iff. Qed.

(** X22: persistence in place. In a run of [handleGeneratePlan] that
    returns the plan [plan] (an identifier no stored row carried before)
    and in which no datastore operation failed, the rows stored for the
    plan are exactly the steps of the response: the placeholders were
    inserted, then each was updated once, in order, and nothing was
    deleted or inserted after. *)
Theorem in_place_persistence :
  forall (env : Env) (body : GeneratePlanBody) (w w' : world) (resp : http_response)
         (mode plan model_used : jsstring) (count : Z) (rows : list StepRow)
         (events : list db_event),
    handleGeneratePlan env body w = (Normal resp, w') ->
    http_body resp = PlanBody mode plan model_used count rows ->
    rows_of plan (plan_steps w) = [] ->
    db_log w' = db_log w ++ events ->
    forallb event_ok events = true ->
    plan_steps w' = plan_steps w ++ rows
    /\ rows_of plan (plan_steps w') = rows
    /\ exists placeholders,
         map step_key placeholders = map step_key rows
         /\ events = InsertPlan (plan_row env body) true :: InsertSteps placeholders true
                       :: map accepted_update rows.
Proof.
  intros env body w w' resp mode plan model_used count rows events H Hbody Hfresh Hev Hok.
  apply handleGeneratePlan_inv in H
    as [(_ & -> & _) | [(_ & detail & _ & ->) | (_ & plan' & w1 & outlineRaw & w2 & o0 & phErr
                                                  & w3 & ip & gen & w4 & H1 & H2 & Ho & H3 & Hg & Hf)]];
    try discriminate.
  (* the plan insert *)
  unfold insert_plan in H1.
  destruct (db_step_run (InsertPlan (plan_row env body)) (fun t => t) w) as (r1 & Hr1 & Hl1 & Ht1).
  rewrite H1 in Hr1, Hl1, Ht1. cbn [fst snd] in Hr1, Hl1, Ht1. inversion Hr1; subst r1.
  cbn [db_failed negb] in Hl1, Ht1.
  (* the outline *)
  destruct (callJSON_db (outline_call env body) w1) as (Hl2 & _ & Ht2).
  rewrite H2 in Hl2, Ht2. cbn [snd] in Hl2, Ht2.
  (* the placeholders *)
  unfold insert_steps in H3.
  match type of H3 with db_step ?ev ?ap w2 = _ =>
    destruct (db_step_run ev ap w2) as (r3 & Hr3 & Hl3 & Ht3) end.
  rewrite H3 in Hr3, Hl3, Ht3. cbn [fst snd] in Hr3, Hl3, Ht3. inversion Hr3; subst r3.
  (* the steps *)
  pose proof (generate_steps_spec _ _ _ _ _ _ _ _ _ _ Hg) as (rows0 & evs & Hgen0 & _ & _ & Hl4 & Htr).
  cbn [app] in Hgen0. subst gen.
  destruct ip.
  2:{ (* the fallback ran: some operation had failed *)
      exfalso. unfold finalize in Hf. cbn [negb] in Hf.
      unfold bind at 1 in Hf. unfold delete_steps in Hf.
      match type of Hf with context [db_step ?ev ?ap w4] =>
        destruct (db_step_run ev ap w4) as (r5 & Hr5 & Hl5 & _);
        destruct (db_step ev ap w4) as [c w5] end.
      cbn [fst snd] in Hr5, Hl5. subst c.
      unfold bind at 1 in Hf. unfold insert_steps in Hf.
      match type of Hf with context [db_step ?ev ?ap w5] =>
        destruct (db_step_run ev ap w5) as (r6 & Hr6 & Hl6 & _);
        destruct (db_step ev ap w5) as [c w6] end.
      cbn [fst snd] in Hr6, Hl6. subst c.
      assert (Hw : w6 = w').
      { destruct r6; unfold ret in Hf; inversion Hf; reflexivity. }
      subst w6.
      rewrite Hl6, Hl5, Hl4, Hl3, Hl2, Hl1, <- !app_assoc in Hev.
      apply app_inv_head in Hev. subst events.
      cbn [app forallb event_ok] in Hok.
      apply andb_true_iff in Hok as (_ & Hok).
      apply andb_true_iff in Hok as (Hph & Hok).
      apply forallb_event_ok_app in Hok as (Hevs & _).
      destruct Htr as [(Hc & _) | [(_ & Hc & _) | (_ & _ & oks & k & -> & _)]].
      - rewrite Hph in Hc. discriminate.
      - discriminate.
      - apply forallb_event_ok_app in Hevs as (_ & Hc). discriminate. }
  assert (Hph : negb (db_failed phErr) = true).
  { destruct (negb (db_failed phErr)) eqn:E; [reflexivity|].
    apply generate_steps_rows in Hg as (_ & _ & _ & _ & Hoff). specialize (Hoff eq_refl).
    discriminate. }
  rewrite Hph in Hg, Hl3. apply negb_true_iff in Hph. rewrite Hph in Ht3.
  unfold finalize in Hf. cbn [negb] in Hf. unfold ret in Hf. inversion Hf; subst w4 resp.
  cbn [http_body] in Hbody. inversion Hbody; subst mode plan' model_used count rows0.
  clear Hbody Hf.
  pose proof (rows_of_none plan (plan_steps w) Hfresh) as Hother.
  assert (Hnd : NoDup (map outline_key (fix_titles 0 (steps o0)))).
  { rewrite fix_titles_keys, (normalizeOutline_keys _ _ _ _ Ho). apply step_keys_NoDup. }
  destruct (generate_steps_in_place _ plan (plan_steps w) Hother _ _ _ _ _ _ [] Hg)
    as (rows1 & Hgen & Htw & Hlw & Hpl); [|exact Hnd | intros r []|].
  { rewrite Ht3, Ht2, Ht1. reflexivity. }
  cbn [app] in Hgen, Htw. subst rows1.
  split; [exact Htw|].
  split; [rewrite Htw; apply rows_of_app_fresh; assumption|].
  exists (placeholder_rows plan 0 (fix_titles 0 (steps o0))).
  split.
  { rewrite placeholder_rows_keys. apply generate_steps_rows in Hg as (rows2 & Hg2 & Hrows & _).
    cbn [app] in Hg2. subst rows2. symmetry. eapply rows_from_keys; exact Hrows. }
  rewrite Hlw, Hl3, Hl2, Hl1, <- !app_assoc in Hev. apply app_inv_head in Hev.
  subst events. reflexivity.
Qed.

Lemma in_place_persistence_witness :
  handleGeneratePlan demo_env demo_body smooth_world
  = (Normal fallback_response, snd (handleGeneratePlan demo_env demo_body smooth_world))
  /\ plan_steps (snd (handleGeneratePlan demo_env demo_body smooth_world))
     = plan_steps smooth_world ++ generated_rows
  /\ rows_of (lit "plan-1") (plan_steps (snd (handleGeneratePlan demo_env demo_body smooth_world)))
     = generated_rows
  /\ exists placeholders,
       map step_key placeholders = map step_key generated_rows
       /\ db_log (snd (handleGeneratePlan demo_env demo_body smooth_world))
          = InsertPlan (plan_row demo_env demo_body) true :: InsertSteps placeholders true
              :: map accepted_update generated_rows.
Proof.
  split; [vm_compute; reflexivity|].
  apply (in_place_persistence demo_env demo_body smooth_world
           (snd (handleGeneratePlan demo_env demo_body smooth_world)) fallback_response
           (lit "generate_plan") (lit "plan-1") (FAST_MODEL demo_env) 3 generated_rows
           (db_log (snd (handleGeneratePlan demo_env demo_body smooth_world))));
    vm_compute; reflexivity.
Defined.

(** The step loop once incremental persistence is off: the datastore is
    left alone. *)
Lemma generate_steps_off call plan : forall l i gen0 w ip gen w',
  generate_steps call plan i l false gen0 w = (Normal (ip, gen), w') ->
  plan_steps w' = plan_steps w /\ db_log w' = db_log w.
Proof.
  induction l as [|s rest IH]; intros i gen0 w ip gen w' H.
  - cbn [generate_steps] in H. unfold ret in H. inversion H; subst. split; reflexivity.
  - cbn [generate_steps] in H. unfold bind at 1 in H.
    destruct (callJSON_db (call s) w) as (Hlog & _ & Htab).
    destruct (callJSON (call s) w) as [[raw|e] w1]; [|discriminate].
    cbn [snd] in Hlog, Htab.
    unfold bind at 1, lift at 1 in H.
    destruct (normalizeStepGen raw (outline_key s) (outline_title s)) as [g|e]; [|discriminate].
    apply IH in H as (Ht & Hl). split; congruence.
Qed.

Lemma rows_of_filter_other plan t :
  rows_of plan (filter (fun r => negb (str_eqb (plan_id r) plan)) t) = [].
Proof.
  unfold rows_of. induction t as [|r t IH]; [reflexivity|]. cbn [filter].
  destruct (str_eqb (plan_id r) plan) eqn:E; cbn [negb]; [exact IH|].
  cbn [filter]. rewrite E. exact IH.
Qed.

(** X23: persistence when the placeholders are refused. In a run of
    [handleGeneratePlan] that returns the plan [plan] (an identifier no
    stored row carried before) and in which an insert of step rows
    failed, that insert was the placeholder insert; no update was
    attempted; after the cleanup delete, whatever its outcome, the
    generated rows were inserted at once, and they are exactly the rows
    stored for the plan. *)
Theorem refused_placeholders_persistence :
  forall (env : Env) (body : GeneratePlanBody) (w w' : world) (resp : http_response)
         (mode plan model_used : jsstring) (count : Z) (rows refused : list StepRow)
         (events : list db_event),
    handleGeneratePlan env body w = (Normal resp, w') ->
    http_body resp = PlanBody mode plan model_used count rows ->
    rows_of plan (plan_steps w) = [] ->
    db_log w' = db_log w ++ events ->
    In (InsertSteps refused false) events ->
    rows_of plan (plan_steps w') = rows
    /\ map step_key refused = map step_key rows
    /\ exists deleted,
         events = [InsertPlan (plan_row env body) true; InsertSteps refused false;
                   DeleteSteps plan deleted; InsertSteps rows true].
Proof.
  intros env body w w' resp mode plan model_used count rows refused events
         H Hbody Hfresh Hev Hin.
  apply handleGeneratePlan_inv in H
    as [(_ & -> & _) | [(_ & detail & _ & ->) | (_ & plan' & w1 & outlineRaw & w2 & o0 & phErr
                                                  & w3 & ip & gen & w4 & H1 & H2 & Ho & H3 & Hg & Hf)]];
    try discriminate.
  unfold insert_plan in H1.
  destruct (db_step_run (InsertPlan (plan_row env body)) (fun t => t) w) as (r1 & Hr1 & Hl1 & Ht1).
  rewrite H1 in Hr1, Hl1, Ht1. cbn [fst snd] in Hr1, Hl1, Ht1. inversion Hr1; subst r1.
  cbn [db_failed negb] in Hl1, Ht1.
  destruct (callJSON_db (outline_call env body) w1) as (Hl2 & _ & Ht2).
  rewrite H2 in Hl2, Ht2. cbn [snd] in Hl2, Ht2.
  unfold insert_steps in H3.
  match type of H3 with db_step ?ev ?ap w2 = _ =>
    destruct (db_step_run ev ap w2) as (r3 & Hr3 & Hl3 & Ht3) end.
  rewrite H3 in Hr3, Hl3, Ht3. cbn [fst snd] in Hr3, Hl3, Ht3. inversion Hr3; subst r3.
  pose proof (generate_steps_spec _ _ _ _ _ _ _ _ _ _ Hg)
    as (rows0 & evs & Hgen0 & _ & Hplan & Hl4 & Htr).
  cbn [app] in Hgen0. subst gen.
  pose proof (generate_steps_rows _ _ _ _ _ _ _ _ _ _ Hg) as (rows1 & Hg1 & Hrows & _ & _).
  cbn [app] in Hg1. subst rows1.
  unfold finalize in Hf. destruct ip; cbn [negb] in Hf.
  { (* no fallback: every insert of step rows had succeeded *)
    exfalso. unfold ret in Hf. inversion Hf; subst w4 resp.
    rewrite Hl4, Hl3, Hl2, Hl1, <- !app_assoc in Hev. apply app_inv_head in Hev. subst events.
    destruct Htr as [(_ & Hc & _) | [(Hb & _ & Hoks) | (_ & Hc & _)]]; try discriminate.
    rewrite Hb in Hin. cbn [app In] in Hin.
    destruct Hin as [Hc | [Hc | Hin]]; try discriminate.
    rewrite Forall_forall in Hoks. destruct (Hoks _ Hin) as (k & Hk). discriminate. }
  unfold bind at 1 in Hf. unfold delete_steps in Hf.
  match type of Hf with context [db_step ?ev ?ap w4] =>
    destruct (db_step_run ev ap w4) as (r5 & Hr5 & Hl5 & Ht5);
    destruct (db_step ev ap w4) as [c w5] end.
  cbn [fst snd] in Hr5, Hl5, Ht5. subst c.
  unfold bind at 1 in Hf. unfold insert_steps in Hf.
  match type of Hf with context [db_step ?ev ?ap w5] =>
    destruct (db_step_run ev ap w5) as (r6 & Hr6 & Hl6 & Ht6);
    destruct (db_step ev ap w5) as [c w6] end.
  cbn [fst snd] in Hr6, Hl6, Ht6. subst c.
  destruct r6 as [id|detail]; unfold ret in Hf; inversion Hf; subst w6 resp; clear Hf;
    [|discriminate].
  cbn [http_body] in Hbody. inversion Hbody; subst mode plan' model_used count rows0.
  clear Hbody. cbn [db_failed negb] in Hl6, Ht6.
  rewrite Hl6, Hl5, Hl4, Hl3, Hl2, Hl1, <- !app_assoc in Hev. apply app_inv_head in Hev.
  subst events.
  destruct Htr as [(Hb & _ & ->) | [(_ & Hc & _) | (Hb & _ & oks & k & -> & Hoks)]];
    try discriminate.
  2:{ (* the placeholders had been accepted: no insert of step rows failed *)
      exfalso. rewrite Hb in Hin. cbn [app In] in Hin.
      destruct Hin as [Hc | [Hc | Hin]]; try discriminate.
      rewrite <- app_assoc in Hin. apply in_app_or in Hin as [Hin | Hin].
      - rewrite Forall_forall in Hoks. destruct (Hoks _ Hin) as (k' & Hk'). discriminate.
      - cbn [app In] in Hin. destruct Hin as [Hc | [Hc | [Hc | []]]]; discriminate. }
  rewrite Hb in Hin, Hg |- *. cbn [app In] in Hin.
  assert (Href : refused = placeholder_rows plan 0 (fix_titles 0 (steps o0))).
  { destruct Hin as [Hc | [Hc | [Hc | [Hc | []]]]]; try discriminate.
    inversion Hc; reflexivity. }
  subst refused.
  apply generate_steps_off in Hg as (Ht4 & _).
  assert (Hfail : db_failed phErr = true) by (apply negb_false_iff; exact Hb).
  rewrite Hfail in Ht3.
  split.
  { rewrite Ht6. apply rows_of_app_fresh; [|exact Hplan].
    rewrite Ht5. destruct (db_failed r5).
    - rewrite Ht4, Ht3, Ht2, Ht1. exact Hfresh.
    - apply rows_of_filter_other. }
  split.
  { rewrite placeholder_rows_keys. symmetry. eapply rows_from_keys; exact Hrows. }
  exists (negb (db_failed r5)). reflexivity.
Qed.

Lemma refused_placeholders_persistence_witness :
  handleGeneratePlan demo_env demo_body refused_placeholders_world
  = (Normal fallback_response,
     snd (handleGeneratePlan demo_env demo_body refused_placeholders_world))
  /\ rows_of (lit "plan-1")
       (plan_steps (snd (handleGeneratePlan demo_env demo_body refused_placeholders_world)))
     = generated_rows
  /\ map step_key demo_placeholders = map step_key generated_rows
  /\ exists deleted,
       db_log (snd (handleGeneratePlan demo_env demo_body refused_placeholders_world))
       = [InsertPlan (plan_row demo_env demo_body) true; InsertSteps demo_placeholders false;
          DeleteSteps (lit "plan-1") deleted; InsertSteps generated_rows true].
Proof.
  split; [vm_compute; reflexivity|].
  apply (refused_placeholders_persistence demo_env demo_body refused_placeholders_world
           (snd (handleGeneratePlan demo_env demo_body refused_placeholders_world))
           fallback_response (lit "generate_plan") (lit "plan-1") (FAST_MODEL demo_env) 3
           generated_rows demo_placeholders
           (db_log (snd (handleGeneratePlan demo_env demo_body refused_placeholders_world)))).
  - vm_compute; reflexivity.
  - reflexivity.
  - reflexivity.
  - vm_compute; reflexivity.
  - vm_compute. right; left; reflexivity.
Defined.

(** ** Server-sent events *)

Lemma no_control_app a b : no_control (a ++ b) = no_control a && no_control b.
Proof. apply forallb_app. Qed.

Lemma hex_char_printable n : 0 <= n < 16 -> (32 <=? hex_char n) = true.
Proof.
  intros H. unfold hex_char. apply Z.leb_le. destruct (n <? 10); lia.
Qed.

Lemma unicode_escape_no_control c : no_control (unicode_escape c) = true.
Proof.
  unfold unicode_escape, no_control. cbn [forallb].
  rewrite !hex_char_printable by (apply Z.mod_pos_bound; lia). reflexivity.
Qed.

Lemma quote_unit_no_control c : no_control (quote_unit c) = true.
Proof.
  unfold quote_unit.
  repeat match goal with |- context [if ?c =? ?k then _ else _] =>
    destruct (c =? k); [reflexivity|] end.
  destruct (c <? 32) eqn:E; cbn [orb]; [apply unicode_escape_no_control|].
  destruct (is_lead c || is_trail c); [apply unicode_escape_no_control|].
  unfold no_control. cbn [forallb]. apply Z.ltb_ge in E.
  rewrite (proj2 (Z.leb_le 32 c) E). reflexivity.
Qed.

Lemma surrogate_printable c : is_lead c || is_trail c = true -> (32 <=? c) = true.
Proof.
  unfold is_lead, is_trail. intros H. apply Z.leb_le.
  apply orb_true_iff in H as [H | H]; apply andb_true_iff in H as (H & _);
    apply Z.leb_le in H; lia.
Qed.

Lemma quote_body_no_control n : forall s, (List.length s <= n)%nat ->
  no_control (quote_body s) = true.
Proof.
  induction n as [|n IH]; intros s Hn.
  - destruct s; [reflexivity | simpl in Hn; lia].
  - destruct s as [|c r]; [reflexivity|]. simpl in Hn. cbn [quote_body].
    destruct (is_lead c) eqn:El.
    + destruct r as [|d r']; [apply quote_unit_no_control|].
      destruct (is_trail d) eqn:Et.
      * unfold no_control. cbn [forallb].
        rewrite (surrogate_printable c) by (rewrite El; reflexivity).
        rewrite (surrogate_printable d) by (rewrite Et; apply orb_true_r).
        apply IH. simpl in Hn. lia.
      * rewrite no_control_app, quote_unit_no_control. apply IH. lia.
    + rewrite no_control_app, quote_unit_no_control. apply IH. lia.
Qed.

Lemma QuoteJSONString_no_control s : no_control (QuoteJSONString s) = true.
Proof.
  unfold QuoteJSONString. change (34 :: quote_body s ++ [34]) with ([34] ++ quote_body s ++ [34]).
  rewrite !no_control_app, (quote_body_no_control (List.length s) s (Nat.le_refl _)).
  reflexivity.
Qed.

Lemma join_with_no_control parts :
  Forall (fun p => no_control p = true) parts -> no_control (join_with 44 parts) = true.
Proof.
  induction 1 as [|p r Hp _ IH]; [reflexivity|].
  cbn [join_with]. destruct r as [|q r']; [exact Hp|].
  rewrite no_control_app, Hp. cbn [andb].
  change (44 :: join_with 44 (q :: r')) with ([44] ++ join_with 44 (q :: r')).
  rewrite no_control_app, IH. reflexivity.
Qed.

Lemma uint_digits_no_control u : no_control (lit (NilEmpty.string_of_uint u)) = true.
Proof.
  unfold no_control, lit.
  induction u; cbn [NilEmpty.string_of_uint list_ascii_of_string map forallb];
    [reflexivity | exact IHu ..].
Qed.

Lemma uint_no_control u : no_control (lit (NilZero.string_of_uint u)) = true.
Proof.
  destruct u; [reflexivity | apply uint_digits_no_control ..].
Qed.

Lemma decimal_no_control z : no_control (decimal z) = true.
Proof.
  unfold decimal. destruct (Z.to_int z) as [u|u]; cbn [NilZero.string_of_int].
  - apply uint_no_control.
  - change (no_control (45 :: lit (NilZero.string_of_uint u)) = true).
    unfold no_control. cbn [forallb]. apply uint_no_control.
Qed.

Lemma no_control_firstn n s : no_control s = true -> no_control (firstn n s) = true.
Proof.
  revert s. induction n as [|n IH]; intros [|c r]; try reflexivity.
  unfold no_control. cbn [firstn forallb]. intros H. apply andb_true_iff in H as (Hc & Hr).
  rewrite Hc. apply IH; exact Hr.
Qed.

Lemma no_control_skipn n s : no_control s = true -> no_control (skipn n s) = true.
Proof.
  revert s. induction n as [|n IH]; intros [|c r]; try reflexivity; [auto|].
  unfold no_control. cbn [skipn forallb]. intros H. apply andb_true_iff in H as (_ & Hr).
  apply IH; exact Hr.
Qed.

Lemma zeros_no_control n : no_control (Num.zeros n) = true.
Proof.
  unfold Num.zeros. induction (Z.to_nat n) as [|k IH]; [reflexivity|]. exact IH.
Qed.

Lemma format_positive_no_control x : no_control (Num.format_positive x) = true.
Proof.
  unfold Num.format_positive.
  destruct (Num.shortest 20 1 x (Num.ilog10 x + 1)) as [[n k] s].
  unfold Num.digits_of.
  pose proof (decimal_no_control s) as Hs.
  destruct ((-5 <=? n) && (n <=? 21)).
  - destruct (k <=? n); [rewrite no_control_app, Hs, zeros_no_control; reflexivity|].
    destruct (0 <? n).
    + rewrite !no_control_app, no_control_firstn, no_control_skipn by exact Hs. reflexivity.
    + rewrite !no_control_app, zeros_no_control, Hs. reflexivity.
  - assert (He : no_control ((if 0 <=? n - 1 then [43] else [45]) ++ decimal (Z.abs (n - 1)))
                 = true).
    { rewrite no_control_app, decimal_no_control. destruct (0 <=? n - 1); reflexivity. }
    destruct (decimal s) as [|d [|d' r]]; [reflexivity | |].
    + unfold no_control in Hs |- *. cbn [forallb] in Hs. apply andb_true_iff in Hs as (Hd & _).
      cbn [app forallb]. rewrite Hd. exact He.
    + unfold no_control in Hs. cbn [forallb] in Hs.
      apply andb_true_iff in Hs as (Hd & Hr).
      change (d :: 46 :: (d' :: r) ++ [101] ++ (if 0 <=? n - 1 then [43] else [45])
                ++ decimal (Z.abs (n - 1)))
        with ([d; 46] ++ (d' :: r) ++ [101] ++ (if 0 <=? n - 1 then [43] else [45])
                ++ decimal (Z.abs (n - 1))).
      rewrite !no_control_app. unfold no_control at 1 2. cbn [forallb].
      rewrite Hd, Hr. unfold no_control at 1. cbn [forallb andb].
      rewrite <- no_control_app. exact He.
Qed.

Lemma toString_no_control n : no_control (Num.toString n) = true.
Proof.
  destruct n as [|[|]|q]; try reflexivity. cbn [Num.toString].
  destruct (Qnum q =? 0); [reflexivity|].
  destruct (Qnum q <? 0); [|apply format_positive_no_control].
  change (45 :: Num.format_positive (- q)) with ([45] ++ Num.format_positive (- q)).
  rewrite no_control_app, format_positive_no_control. reflexivity.
Qed.

Lemma insert_index_In {A} i (x : A) l kv :
  In kv (map snd (insert_index i x l)) -> kv = x \/ In kv (map snd l).
Proof.
  induction l as [|[j y] r IH]; cbn [insert_index map In].
  - intros [H | []]; auto.
  - destruct (i <? j); cbn [map In snd].
    + intros [H | [H | H]]; auto.
    + intros [H | H]; [auto|]. destruct (IH H); auto.
Qed.

Lemma own_property_order_In {A} (ps : list (jsstring * A)) kv :
  In kv (own_property_order ps) -> In kv ps.
Proof.
  unfold own_property_order. intros H. apply in_app_or in H as [H | H].
  - assert (G : forall l acc,
               In kv (map snd (fold_left
                                 (fun acc kv => match array_index (fst kv) with
                                                | Some i => insert_index i kv acc
                                                | None => acc
                                                end) l acc)) ->
               In kv l \/ In kv (map snd acc)).
    { induction l as [|p l IH]; intros acc Hin; cbn [fold_left] in Hin; [auto|].
      apply IH in Hin as [Hin | Hin]; [left; right; exact Hin|].
      destruct (array_index (fst p)); [|auto].
      apply insert_index_In in Hin as [-> | Hin]; [left; left; reflexivity | auto]. }
    apply G in H as [H | []]. exact H.
  - apply filter_In in H as (H & _). exact H.
Qed.

(** The text of every value is free of control characters. *)
Lemma stringify_no_control v : no_control (stringify_text v) = true.
Proof.
  unfold stringify_text.
  induction v as [| |b|n|s|xs IH|ps IH] using value_ind_nested; try reflexivity.
  - destruct b; reflexivity.
  - destruct n as [|[|]|q]; try reflexivity. cbn [stringify]. apply toString_no_control.
  - cbn [stringify]. apply QuoteJSONString_no_control.
  - cbn [stringify].
    change (no_control ([91] ++ join_with 44
              ((fix items (l : list value) : list jsstring :=
                  match l with
                  | [] => []
                  | x :: r => match stringify x with Some j => j | None => lit "null" end
                              :: items r
                  end) xs) ++ [93]) = true).
    rewrite !no_control_app.
    apply andb_true_iff; split; [reflexivity|]. apply andb_true_iff; split; [|reflexivity].
    apply join_with_no_control. induction IH as [|x r Hx _ IHr]; constructor; [|exact IHr].
    destruct (stringify x); [exact Hx | reflexivity].
  - cbn [stringify].
    match goal with |- context [own_property_order ?l] => set (props := l) end.
    assert (Hprops : Forall (fun kv => match snd kv with
                                       | Some j => no_control j = true
                                       | None => True
                                       end) props).
    { subst props. induction IH as [|[k x] r Hx _ IHr]; constructor; [|exact IHr].
      cbn [snd] in *. destruct (stringify x); [exact Hx | exact I]. }
    change (no_control ([123] ++ join_with 44 (member_texts (own_property_order props))
                          ++ [125]) = true).
    rewrite !no_control_app.
    apply andb_true_iff; split; [reflexivity|]. apply andb_true_iff; split; [|reflexivity].
    apply join_with_no_control.
    unfold member_texts. apply Forall_forall. intros m Hm.
    apply in_flat_map in Hm as ([k j] & Hin & Hm). cbn [fst snd] in Hm.
    apply own_property_order_In in Hin. rewrite Forall_forall in Hprops.
    specialize (Hprops _ Hin). cbn [snd] in Hprops.
    destruct j as [j|]; [|contradiction]. destruct Hm as [<- | []].
    change (QuoteJSONString k ++ 58 :: j) with (QuoteJSONString k ++ [58] ++ j).
    rewrite !no_control_app, QuoteJSONString_no_control, Hprops. reflexivity.
Qed.

(** The order of the members, the numbers that are not finite, the
    missing values and the escapes, on one payload. *)
Example stringify_awkward_payload : stringify awkward_payload = Some awkward_text.
Proof. vm_compute. reflexivity. Qed.

(** X24: an event is framed on its own lines. The frame [sseEvent]
    builds is the event line, one data line and a blank line, and the
    data holds no line break, nor any other control character, whatever
    the payload: line breaks inside its strings are escaped. *)
Theorem sseEvent_data_is_one_line :
  forall (event : jsstring) (data : value),
    exists json,
      sseEvent event data = lit "event: " ++ event ++ [10] ++ lit "data: " ++ json ++ [10; 10]
      /\ no_control json = true
      /\ indexOf json [10] = -1 /\ indexOf json [13] = -1.
Proof.
  intros event data. exists (stringify_text data).
  split; [reflexivity|].
  pose proof (stringify_no_control data) as H. split; [exact H|].
  assert (G : forall c, c < 32 -> forall s i, no_control s = true -> indexOf_from i s [c] = -1).
  { intros c Hc. induction s as [|d r IH]; intros i Hs; [reflexivity|].
    unfold no_control in Hs. cbn [forallb] in Hs. apply andb_true_iff in Hs as (Hd & Hr).
    apply Z.leb_le in Hd. cbn [indexOf_from startsWith].
    destruct (d =? c) eqn:E; [apply Z.eqb_eq in E; lia|]. cbn [andb]. apply IH. exact Hr. }
  split; apply G; (lia || exact H).
Qed.

(** ** Strings survive the encoding of an event *)

Ltac split_positive p n :=
  lazymatch n with
  | O => idtac
  | S ?m =>
      try reflexivity;
      let q := fresh "q" in
      destruct p as [q|q|]; [split_positive q m | split_positive q m | try reflexivity]
  end.

Lemma string_body_other c r acc :
  c <> 34 -> c <> 92 ->
  Json.string_body (c :: r) acc
  = if (c <? 32) || (c =? 92) then None else Json.string_body r (c :: acc).
Proof.
  intros H34 H92.
  destruct c as [|p|p]; [reflexivity | | reflexivity].
  split_positive p 8%nat; try reflexivity; try (exfalso; lia).
Qed.

Lemma hex_digit_char n : 0 <= n < 16 -> Num.hex_digit (hex_char n) = Some n.
Proof.
  intros H.
  destruct n as [|p|p]; [reflexivity | | lia].
  split_positive p 4%nat; try reflexivity; exfalso; lia.
Qed.

Lemma hex4_escape c :
  0 <= c < 65536 ->
  Json.hex4 (hex_char ((c / 4096) mod 16)) (hex_char ((c / 256) mod 16))
    (hex_char ((c / 16) mod 16)) (hex_char (c mod 16)) = Some c.
Proof.
  intros H. unfold Json.hex4.
  rewrite !hex_digit_char by (apply Z.mod_pos_bound; lia). f_equal.
  pose proof (Z.div_mod c 16 ltac:(lia)) as E1.
  pose proof (Z.div_mod (c / 16) 16 ltac:(lia)) as E2.
  pose proof (Z.div_mod (c / 256) 16 ltac:(lia)) as E3.
  rewrite Z.div_div in E2 by lia. change (16 * 16) with 256 in E2.
  replace (c / 256 / 16) with (c / 4096) in E3
    by (rewrite Z.div_div by lia; reflexivity).
  assert (H4 : 0 <= c / 4096 < 16).
  { split; [apply Z.div_pos; lia | apply Z.div_lt_upper_bound; lia]. }
  rewrite (Z.mod_small (c / 4096) 16 H4). lia.
Qed.

Lemma unicode_escape_read c t acc :
  0 <= c < 65536 ->
  Json.string_body (unicode_escape c ++ t) acc = Json.string_body t (c :: acc).
Proof.
  intros H. unfold unicode_escape.
  change (Json.string_body
            (92 :: 117 :: hex_char ((c / 4096) mod 16) :: hex_char ((c / 256) mod 16)
               :: hex_char ((c / 16) mod 16) :: hex_char (c mod 16) :: t) acc
          = Json.string_body t (c :: acc)).
  change (match Json.hex4 (hex_char ((c / 4096) mod 16)) (hex_char ((c / 256) mod 16))
                  (hex_char ((c / 16) mod 16)) (hex_char (c mod 16)) with
          | Some u => Json.string_body t (u :: acc)
          | None => None
          end = Json.string_body t (c :: acc)).
  rewrite (hex4_escape c H). reflexivity.
Qed.

(** Reading back what [QuoteJSONString] wrote for one code unit. *)
Lemma quote_unit_read c t acc :
  0 <= c < 65536 ->
  Json.string_body (quote_unit c ++ t) acc = Json.string_body t (c :: acc).
Proof.
  intros H. unfold quote_unit.
  repeat match goal with |- context [if ?x =? ?k then _ else _] =>
    let E := fresh "E" in
    destruct (x =? k) eqn:E;
      [apply Z.eqb_eq in E; subst; reflexivity | apply Z.eqb_neq in E] end.
  destruct ((c <? 32) || is_lead c || is_trail c) eqn:Ec;
    [apply unicode_escape_read; exact H|].
  apply orb_false_iff in Ec as (Ec & _). apply orb_false_iff in Ec as (Ec & _).
  cbn [app]. rewrite string_body_other by assumption.
  rewrite Ec. cbn [orb].
  destruct (c =? 92) eqn:E92; [apply Z.eqb_eq in E92; contradiction | reflexivity].
Qed.

Lemma surrogate_read c t acc :
  is_lead c || is_trail c = true ->
  Json.string_body (c :: t) acc = Json.string_body t (c :: acc).
Proof.
  intros H.
  assert (Hc : 55296 <= c).
  { unfold is_lead, is_trail in H.
    apply orb_true_iff in H as [H | H]; apply andb_true_iff in H as (H & _);
      apply Z.leb_le in H; lia. }
  rewrite string_body_other by lia.
  destruct (c <? 32) eqn:E1; [apply Z.ltb_lt in E1; lia|].
  destruct (c =? 92) eqn:E2; [apply Z.eqb_eq in E2; lia | reflexivity].
Qed.

Lemma quote_body_read n : forall s, (List.length s <= n)%nat ->
  code_units s = true -> forall rest acc,
  Json.string_body (quote_body s ++ 34 :: rest) acc = Some (rev acc ++ s, rest).
Proof.
  induction n as [|n IH]; intros s Hn Hs rest acc.
  - destruct s; [|simpl in Hn; lia]. cbn [quote_body app]. rewrite app_nil_r. reflexivity.
  - destruct s as [|c r]; [cbn [quote_body app]; rewrite app_nil_r; reflexivity|].
    simpl in Hn. unfold code_units in Hs. cbn [forallb] in Hs.
    apply andb_true_iff in Hs as (Hc & Hr).
    apply andb_true_iff in Hc as (Hc0 & Hc1). apply Z.leb_le in Hc0. apply Z.ltb_lt in Hc1.
    assert (Hstep : forall t, Json.string_body (quote_unit c ++ t) acc
                              = Json.string_body t (c :: acc))
      by (intros t; apply quote_unit_read; lia).
    assert (Hone : Json.string_body ((quote_unit c ++ quote_body r) ++ 34 :: rest) acc
                   = Some (rev acc ++ c :: r, rest)).
    { rewrite <- app_assoc, Hstep, (IH r ltac:(lia) Hr). cbn [rev].
      rewrite <- app_assoc. reflexivity. }
    cbn [quote_body]. destruct (is_lead c) eqn:El; [|exact Hone].
    destruct r as [|d r']; [rewrite <- (app_nil_r (quote_unit c)); exact Hone|].
    destruct (is_trail d) eqn:Et; [|exact Hone].
    cbn [app]. rewrite surrogate_read by (rewrite El; reflexivity).
    rewrite surrogate_read by (rewrite Et; apply orb_true_r).
    unfold code_units in Hr. cbn [forallb] in Hr. apply andb_true_iff in Hr as (_ & Hr').
    rewrite (IH r' ltac:(simpl in Hn; lia) Hr'). cbn [rev].
    rewrite <- !app_assoc. reflexivity.
Qed.

Lemma parse_quoted s :
  code_units s = true -> Json.parse (QuoteJSONString s) = Normal (VStr s).
Proof.
  intros Hs. unfold Json.parse, QuoteJSONString.
  change (List.length (34 :: quote_body s ++ [34])) with (S (List.length (quote_body s ++ [34]))).
  cbn [Json.parse_value Json.skip_ws Json.is_json_ws Z.eqb orb Pos.eqb].
  rewrite (quote_body_read (List.length s) s (Nat.le_refl _) Hs [] []). reflexivity.
Qed.

(** X25: a string survives the encoding of an event. Whatever code
    units a string holds (quotes, backslashes, line breaks, lone
    surrogates), the data line [sseEvent] writes for it is a JSON text
    that [JSON.parse] reads back as the same string. *)
Theorem sseEvent_string_round_trip :
  forall (event s : jsstring),
    code_units s = true ->
    exists json,
      sseEvent event (VStr s) = lit "event: " ++ event ++ [10] ++ lit "data: " ++ json ++ [10; 10]
      /\ Json.parse json = Normal (VStr s).
Proof.
  intros event s Hs. exists (QuoteJSONString s). split; [reflexivity|].
  apply parse_quoted. exact Hs.
Qed.

Lemma sseEvent_string_round_trip_witness :
  exists json,
    sseEvent (lit "token") (VStr [72; 105; 10; 13; 34; 92; 9; 55357; 33])
    = lit "event: " ++ lit "token" ++ [10] ++ lit "data: " ++ json ++ [10; 10]
    /\ Json.parse json = Normal (VStr [72; 105; 10; 13; 34; 92; 9; 55357; 33]).
Proof.
  apply (sseEvent_string_round_trip (lit "token") [72; 105; 10; 13; 34; 92; 9; 55357; 33]).
  vm_compute; reflexivity.
Defined.

(* ------------------------------------------------------------------ *)
(** ** The streaming client hands deltas over and takes none back *)

Lemma drain_extends onToken onRawLine : forall fuel buf full w,
  exists ds, delivered (snd (drain fuel onToken onRawLine buf full w)) = delivered w ++ ds.
Proof.
  induction fuel as [|f IH]; intros buf full w; cbn [drain].
  - exists []. rewrite app_nil_r. reflexivity.
  - destruct (indexOf buf [10] =? -1).
    { exists []. rewrite app_nil_r. reflexivity. }
    destruct (trim (slice buf 0 (indexOf buf [10]))) as [|c l]; [apply IH|].
    unfold bind at 1, lift.
    destruct (match onRawLine with Some f0 => f0 (c :: l) | None => Normal tt end).
    2:{ exists []. rewrite app_nil_r. reflexivity. }
    unfold bind at 1.
    destruct (on_line_delivers onToken (c :: l) full w)
      as (full1 & brk & ds1 & w1 & Hl & Hd1 & _).
    rewrite Hl. destruct brk.
    + exists ds1. exact Hd1.
    + destruct (IH (slice_from buf (indexOf buf [10] + 1)) full1 w1) as (ds2 & Hd2).
      exists (ds1 ++ ds2). rewrite Hd2, Hd1, app_assoc. reflexivity.
Qed.

Lemma read_loop_extends ending onToken onRawLine : forall chunks buf full w,
  exists ds,
    delivered (snd (read_loop chunks ending onToken onRawLine buf full w)) = delivered w ++ ds.
Proof.
  induction chunks as [|c rest IH]; intros buf full w; cbn [read_loop].
  - exists []. rewrite app_nil_r. destruct ending; reflexivity.
  - unfold bind.
    destruct (drain_extends onToken onRawLine (S (List.length (buf ++ c))) (buf ++ c) full w)
      as (ds1 & Hd1).
    destruct (drain _ onToken onRawLine (buf ++ c) full w) as [[[buf2 full2]|e] w1];
      cbn [snd] in Hd1.
    + destruct (IH buf2 full2 w1) as (ds2 & Hd2).
      exists (ds1 ++ ds2). rewrite Hd2, Hd1, app_assoc. reflexivity.
    + exists ds1. exact Hd1.
Qed.

Lemma ollamaChatStream_extends p onToken onRawLine w :
  exists ds, delivered (snd (ollamaChatStream p onToken onRawLine w)) = delivered w ++ ds.
Proof.
  unfold ollamaChatStream, fetch, bind, lift, throw.
  destruct (answer w) as [res|e].
  2:{ exists []. rewrite app_nil_r. reflexivity. }
  destruct (negb (res_ok res)).
  { exists []. rewrite app_nil_r. destruct (res_text res); reflexivity. }
  destruct (res_body res) as [[chunks ending]|].
  2:{ exists []. rewrite app_nil_r. reflexivity. }
  destruct (read_loop_extends ending onToken onRawLine chunks [] []
              (record_call (chat_request p true) w)) as (ds & Hd).
  exists ds. exact Hd.
Qed.

Lemma callJSONStream_extends p onToken w :
  exists ds, delivered (snd (callJSONStream p onToken w)) = delivered w ++ ds.
Proof.
  rewrite callJSONStream_run.
  destruct (ollamaChatStream_extends (primary p) onToken None w) as (ds & Hd).
  exists ds.
  destruct (ollamaChatStream (primary p) onToken None w) as [[raw1|e] w1]; [|exact Hd].
  destruct (fst (tryParseJSON (VStr raw1))) as [p1|e]; [|exact Hd].
  destruct (Val.truthy p1); exact Hd.
Qed.

Lemma db_step_delivered ev apply w : delivered (snd (db_step ev apply w)) = delivered w.
Proof. reflexivity. Qed.

Lemma lift_delivered {A} (c : completion A) w : delivered (snd (lift c w)) = delivered w.
Proof. reflexivity. Qed.

(* ------------------------------------------------------------------ *)
(** ** The stream handler *)

Lemma token_deltas_app a b : token_deltas (a ++ b) = token_deltas a ++ token_deltas b.
Proof. unfold token_deltas. apply flat_map_app. Qed.

Lemma advances_refl s : closed s = false -> advances s s.
Proof.
  intros H. split; [exact H|]. exists [], []. rewrite !app_nil_r. repeat split.
Qed.

Lemma advances_trans s1 s2 s3 : advances s1 s2 -> advances s2 s3 -> advances s1 s3.
Proof.
  intros [_ (m1 & d1 & E1 & P1 & D1 & T1)] [C (m2 & d2 & E2 & P2 & D2 & T2)].
  split; [exact C|].
  exists (m1 ++ m2), (d1 ++ d2). rewrite E2, E1, D2, D1, !app_assoc.
  split; [reflexivity|]. split; [rewrite forallb_app, P1, P2; reflexivity|].
  split; [reflexivity|]. rewrite token_deltas_app, filter_app, T1, T2. reflexivity.
Qed.

Lemma advances_finishes s1 s2 s3 : advances s1 s2 -> finishes s2 s3 -> finishes s1 s3.
Proof.
  intros [_ (m1 & d1 & E1 & P1 & D1 & T1)] [C (m2 & last & d2 & E2 & P2 & T & D2 & T2)].
  split; [exact C|].
  exists (m1 ++ m2), last, (d1 ++ d2). rewrite E2, E1, D2, D1, <- !app_assoc.
  split; [reflexivity|]. split; [rewrite forallb_app, P1, P2; reflexivity|].
  split; [exact T|]. split; [reflexivity|].
  rewrite token_deltas_app, filter_app, T1, T2. reflexivity.
Qed.

Lemma sret_keeps {A} (a : A) : keeps (sret a).
Proof. intros s H. apply advances_refl, H. Qed.

Lemma sbind_keeps {A B} (m : SM A) (k : A -> SM B) :
  keeps m -> (forall a, keeps (k a)) -> keeps (sbind m k).
Proof.
  intros Hm Hk s H. specialize (Hm s H). unfold sbind.
  destruct (m s) as [[a|e] s1]; cbn [snd] in *; [|exact Hm].
  eapply advances_trans; [exact Hm|]. apply Hk. apply Hm.
Qed.

Lemma sbind_settles {A B} (m : SM A) (k : A -> SM B) :
  keeps m -> (forall a, settles (k a)) -> settles (sbind m k).
Proof.
  intros Hm Hk s H. specialize (Hm s H). unfold sbind.
  destruct (m s) as [[a|e] s1]; cbn [snd] in *; [|exact Hm].
  specialize (Hk a s1 (proj1 Hm)).
  destruct (k a s1) as [[b|e] s2].
  - eapply advances_finishes; eassumption.
  - eapply advances_trans; eassumption.
Qed.

Lemma lift_m_keeps {A} (m : M A) :
  (forall w, delivered (snd (m w)) = delivered w) -> keeps (lift_m m).
Proof.
  intros Hd s H. unfold lift_m. specialize (Hd (net s)).
  destruct (m (net s)) as [c w']. cbn [snd] in *.
  split; [exact H|]. exists [], []. cbn [events net]. rewrite !app_nil_r.
  repeat split. exact Hd.
Qed.

Lemma send_keeps event data :
  str_eqb event (lit "status") = true -> keeps (send event data).
Proof.
  intros P s H. unfold send. rewrite H. cbn [snd]. split; [reflexivity|].
  exists [(event, data)], []. cbn [events net]. rewrite app_nil_r.
  split; [reflexivity|].
  split; [cbn [forallb]; unfold is_progress_event; cbn [fst]; rewrite P; reflexivity|].
  split; [reflexivity|].
  apply str_eqb_eq in P. subst event. reflexivity.
Qed.

Lemma tokens_progress (token : value -> value) (l : list value) :
  forallb is_progress_event (map (fun d => (lit "token", token d)) l) = true.
Proof. induction l as [|d l IH]; [reflexivity|]. cbn [map forallb]. rewrite IH. reflexivity. Qed.

Lemma tokens_deltas (token : value -> value) (l : list value) :
  (forall d, Val.get (token d) (lit "delta") = d) ->
  token_deltas (map (fun d => (lit "token", token d)) l) = l.
Proof.
  intros Ht. induction l as [|d l IH]; [reflexivity|].
  cbn [map]. change (token_deltas ((lit "token", token d) :: map (fun d0 => (lit "token", token d0)) l))
    with (Val.get (token d) (lit "delta") :: token_deltas (map (fun d0 => (lit "token", token d0)) l)).
  rewrite Ht, IH. reflexivity.
Qed.

Lemma filter_idem {A} (f : A -> bool) l : filter f (filter f l) = filter f l.
Proof.
  induction l as [|x l IH]; [reflexivity|]. cbn [filter].
  destruct (f x) eqn:E; [cbn [filter]; rewrite E, IH; reflexivity | exact IH].
Qed.

Lemma streamed_keeps {A} (token : value -> value)
  (call : (value -> completion unit) -> M A) :
  (forall d, Val.get (token d) (lit "delta") = d) ->
  (forall onToken w, exists ds, delivered (snd (call onToken w)) = delivered w ++ ds) ->
  keeps (streamed token call).
Proof.
  intros Ht Hc s H. unfold streamed.
  destruct (Hc (token_guard (negb (closed s))) (net s)) as (ds & Hd).
  destruct (call (token_guard (negb (closed s))) (net s)) as [c w']. cbn [snd] in *.
  split; [exact H|]. cbn [events net]. rewrite H.
  eexists _, ds. split; [reflexivity|]. split; [apply tokens_progress|].
  split; [exact Hd|].
  rewrite tokens_deltas by exact Ht. rewrite Hd, skipn_app, skipn_all, Nat.sub_diag.
  reflexivity.
Qed.

Lemma terminal_settles event data :
  is_terminal_event (event, data) = true ->
  settles (sbind (send event data) (fun _ => close)).
Proof.
  intros T s H. unfold sbind, send, close. rewrite H. cbn [closed].
  split; [reflexivity|]. exists [], (event, data), []. cbn [events net app].
  rewrite app_nil_r. repeat split. exact T.
Qed.

Lemma stream_steps_keeps env body plan count l :
  forall i ip generated, keeps (stream_steps env body plan count i l ip generated).
Proof.
  induction l as [|o rest IH]; intros i ip generated; cbn [stream_steps].
  - apply sret_keeps.
  - apply sbind_keeps; [apply send_keeps; reflexivity|]. intros _.
    apply sbind_keeps.
    { apply streamed_keeps; [reflexivity|]. intros onToken w. apply callJSONStream_extends. }
    intros stepRes.
    apply sbind_keeps; [apply lift_m_keeps; reflexivity|]. intros stepGen.
    apply sbind_keeps.
    + destruct ip; [|apply sret_keeps].
      apply sbind_keeps; [apply lift_m_keeps; reflexivity|]. intros upErr. apply sret_keeps.
    + intros still. apply sbind_keeps; [apply send_keeps; reflexivity|]. intros _.
      apply IH.
Qed.

Lemma settles_after_send {B} event data (k : unit -> SM B) :
  str_eqb event (lit "status") = true -> settles (k tt) ->
  forall s, closed s = false ->
    match sbind (send event data) k s with
    | (Normal _, s') =>
        closed s' = true
        /\ exists more last ds,
             events s' = events s ++ (event, data) :: more ++ [last]
             /\ forallb is_progress_event more = true
             /\ is_terminal_event last = true
             /\ delivered (net s') = delivered (net s) ++ ds
             /\ token_deltas more = filter forwarded ds
    | (Throw _, s') =>
        closed s' = false
        /\ exists more ds,
             events s' = events s ++ (event, data) :: more
             /\ forallb is_progress_event more = true
             /\ delivered (net s') = delivered (net s) ++ ds
             /\ token_deltas more = filter forwarded ds
    end.
Proof.
  intros P Hk s H. unfold sbind, send. rewrite H.
  specialize (Hk {| net := net s; events := events s ++ [(event, data)]; closed := false |}
                 eq_refl).
  destruct (k tt _) as [[b|e] s'].
  - destruct Hk as [C (more & last & ds & E & Pm & T & D & Td)]. split; [exact C|].
    exists more, last, ds. cbn [events net] in E, D. rewrite E, <- app_assoc. auto.
  - destruct Hk as [C (more & ds & E & Pm & D & Td)]. split; [exact C|].
    exists more, ds. cbn [events net] in E, D. rewrite E, <- app_assoc. auto.
Qed.

Lemma stream_body_outcome env body s :
  closed s = false ->
  let start := (lit "status",
                phase (lit "start") [(lit "build_marker", VStr (BUILD_MARKER env))]) in
  match stream_body env body s with
  | (Normal _, s') =>
      closed s' = true
      /\ exists more last ds,
           events s' = events s ++ start :: more ++ [last]
           /\ forallb is_progress_event more = true
           /\ is_terminal_event last = true
           /\ delivered (net s') = delivered (net s) ++ ds
           /\ token_deltas more = filter forwarded ds
  | (Throw _, s') =>
      closed s' = false
      /\ exists more ds,
           events s' = events s ++ start :: more
           /\ forallb is_progress_event more = true
           /\ delivered (net s') = delivered (net s) ++ ds
           /\ token_deltas more = filter forwarded ds
  end.
Proof.
  intros H start. unfold stream_body.
  apply settles_after_send; [reflexivity| |exact H].
  destruct (negb (present (body_company_name body))
            || negb (present (body_company_title body))
            || negb (present (body_short_description body))).
  { apply terminal_settles. reflexivity. }
  apply sbind_settles; [apply send_keeps; reflexivity|]. intros _.
  apply sbind_settles; [apply lift_m_keeps; reflexivity|]. intros [plan|detail].
  2: { apply terminal_settles. reflexivity. }
  apply sbind_settles; [apply send_keeps; reflexivity|]. intros _.
  apply sbind_settles; [apply send_keeps; reflexivity|]. intros _.
  apply sbind_settles.
  { apply streamed_keeps; [reflexivity|]. intros onToken w. apply callJSONStream_extends. }
  intros outlineRes.
  apply sbind_settles; [apply lift_m_keeps; reflexivity|]. intros outline0.
  cbv zeta.
  apply sbind_settles; [apply send_keeps; reflexivity|]. intros _.
  apply sbind_settles; [apply lift_m_keeps; reflexivity|]. intros phErr.
  apply sbind_settles; [apply stream_steps_keeps|]. intros [ip generated].
  destruct ip; cbn [negb].
  { apply terminal_settles. reflexivity. }
  apply sbind_settles; [apply send_keeps; reflexivity|]. intros _.
  apply sbind_settles; [apply lift_m_keeps; reflexivity|]. intros _.
  apply sbind_settles; [apply lift_m_keeps; reflexivity|]. intros [rows|detail];
    apply terminal_settles; reflexivity.
Qed.

(** What the handler has done when it is over. *)
Lemma handleGeneratePlanStream_outcome engine_message env body w :
  exists s more last ds,
    handleGeneratePlanStream engine_message env body (open_stream w) = (Normal tt, s)
    /\ closed s = true
    /\ events s
       = (lit "status", phase (lit "start") [(lit "build_marker", VStr (BUILD_MARKER env))])
           :: more ++ [last]
    /\ forallb is_progress_event more = true
    /\ is_terminal_event last = true
    /\ delivered (net s) = delivered w ++ ds
    /\ token_deltas more = filter forwarded ds.
Proof.
  pose proof (stream_body_outcome env body (open_stream w) eq_refl) as H.
  cbv zeta in H. unfold handleGeneratePlanStream.
  destruct (stream_body env body (open_stream w)) as [[[]|e] s1].
  - destruct H as [C (more & last & ds & E & P & T & D & Td)].
    exists s1, more, last, ds. cbn [open_stream events net app] in E, D. auto 10.
  - destruct H as [C (more & ds & E & P & D & Td)]. cbn [open_stream events net app] in E, D.
    unfold sbind, send, close. rewrite C. cbn [closed].
    eexists _, more, _, ds. cbn [events closed net]. rewrite E.
    split; [reflexivity|]. split; [reflexivity|]. split; [reflexivity|].
    split; [exact P|]. split; [reflexivity|]. split; [exact D | exact Td].
Qed.

(** X26: every stream ends, and ends once. Whatever the body, the
    datastore and the generation service do, the function started by
    [handleGeneratePlanStream] returns without an exception, with the
    stream closed; what it has sent is the start status, then status and
    token events only, then exactly one terminal event, [done] or
    [error], after which nothing is sent. *)
Theorem stream_ends_with_one_terminal_event :
  forall (engine_message : exn -> jsstring) (env : Env) (body : GeneratePlanBody)
         (w : world),
    exists s progress last,
      handleGeneratePlanStream engine_message env body (open_stream w) = (Normal tt, s)
      /\ closed s = true
      /\ events s
         = (lit "status", phase (lit "start") [(lit "build_marker", VStr (BUILD_MARKER env))])
             :: progress ++ [last]
      /\ forallb is_progress_event progress = true
      /\ is_terminal_event last = true.
Proof.
  intros engine_message env body w.
  destruct (handleGeneratePlanStream_outcome engine_message env body w)
    as (s & more & last & ds & H & C & E & P & T & _).
  exists s, more, last. auto.
Qed.

Lemma terminal_not_token ev : is_terminal_event ev = true -> token_deltas [ev] = [].
Proof.
  unfold is_terminal_event, token_deltas. cbn [flat_map]. intros H.
  destruct (str_eqb (fst ev) (lit "token")) eqn:E; [|reflexivity].
  apply str_eqb_eq in E. rewrite E in H. discriminate.
Qed.

(** X27: the token events are the deltas that count. In every run of
    [handleGeneratePlanStream], the deltas of the token events sent are,
    in order, exactly the deltas the generation calls handed to onToken
    during the run that are strings and not blank; a blank delta, and a
    delta that is no string, is never sent. *)
Theorem stream_tokens_are_the_forwarded_deltas :
  forall (engine_message : exn -> jsstring) (env : Env) (body : GeneratePlanBody)
         (w : world),
    let s := snd (handleGeneratePlanStream engine_message env body (open_stream w)) in
    exists ds,
      delivered (net s) = delivered w ++ ds
      /\ token_deltas (events s) = filter forwarded ds.
Proof.
  intros engine_message env body w.
  destruct (handleGeneratePlanStream_outcome engine_message env body w)
    as (s & more & last & ds & H & C & E & P & T & D & Td).
  rewrite H. cbn [snd]. exists ds. split; [exact D|].
  rewrite E.
  change (token_deltas (more ++ [last]) = filter forwarded ds).
  rewrite token_deltas_app, terminal_not_token by exact T.
  rewrite app_nil_r. exact Td.
Qed.

(* ------------------------------------------------------------------ *)
(** ** The stream handler: what a done event carries *)

Lemma sbind_inv {A B} (m : SM A) (k : A -> SM B) s b s' :
  sbind m k s = (Normal b, s') ->
  exists a s1, m s = (Normal a, s1) /\ k a s1 = (Normal b, s').
Proof.
  unfold sbind. destruct (m s) as [[a|e] s1]; [|discriminate].
  intros H. exists a, s1. split; [reflexivity | exact H].
Qed.

Lemma lift_m_lift_inv {A} (c : completion A) s a s1 :
  lift_m (lift c) s = (Normal a, s1) -> c = Normal a.
Proof. unfold lift_m, lift. intros H. inversion H. reflexivity. Qed.

Lemma terminal_returns event data s u s' :
  sbind (send event data) (fun _ => close) s = (Normal u, s') ->
  events s' = events s ++ [(event, data)].
Proof.
  unfold sbind, send, close. destruct (closed s); [discriminate|].
  cbn [closed]. intros H. inversion H. reflexivity.
Qed.

Lemma stream_steps_rows env body plan count : forall l i ip0 gen0 s ip gen s',
  stream_steps env body plan count i l ip0 gen0 s = (Normal (ip, gen), s') ->
  exists rows, gen = gen0 ++ rows /\ rows_from plan i l rows.
Proof.
  induction l as [|o rest IH]; intros i ip0 gen0 s ip gen s' H; cbn [stream_steps] in H.
  - unfold sret in H. inversion H; subst. exists []. rewrite app_nil_r. split; reflexivity.
  - apply sbind_inv in H as (_ & s1 & _ & H).
    apply sbind_inv in H as (stepRes & s2 & _ & H).
    apply sbind_inv in H as (stepGen & s3 & Hg & H).
    apply lift_m_lift_inv in Hg.
    pose proof (normalizeStepGen_row _ o stepGen plan (i + 1) Hg) as Hrow.
    apply sbind_inv in H as (still & s4 & _ & H).
    apply sbind_inv in H as (_ & s5 & _ & H).
    apply IH in H as (rows & -> & Hrows).
    eexists (_ :: rows). rewrite <- app_assoc. split; [reflexivity|].
    split; [exact Hrow | exact Hrows].
Qed.

(** A run of the [try] block that returns has ended the stream with an
    error event, or with the done event of a plan whose rows were
    generated from a normalised outline. *)
Lemma stream_body_returns env body s u s' :
  stream_body env body s = (Normal u, s') ->
  exists evs last,
    events s' = evs ++ [last]
    /\ (fst last = lit "error"
        \/ exists plan outlineRes o0 gen,
             normalizeOutline (parsed outlineRes) (MIN_STEPS env) (MAX_STEPS env) = Normal o0
             /\ rows_from plan 0 (fix_titles 0 (steps o0)) gen
             /\ last = (lit "done", done_event env plan (step_count o0) gen)).
Proof.
  unfold stream_body. intros H.
  apply sbind_inv in H as (_ & s1 & _ & H).
  destruct (negb (present (body_company_name body))
            || negb (present (body_company_title body))
            || negb (present (body_short_description body))).
  { apply terminal_returns in H. eexists _, _. split; [exact H | left; reflexivity]. }
  apply sbind_inv in H as (_ & s2 & _ & H).
  apply sbind_inv in H as ([plan|detail] & s3 & _ & H).
  2:{ apply terminal_returns in H. eexists _, _. split; [exact H | left; reflexivity]. }
  apply sbind_inv in H as (_ & s4 & _ & H).
  apply sbind_inv in H as (_ & s5 & _ & H).
  apply sbind_inv in H as (outlineRes & s6 & _ & H).
  apply sbind_inv in H as (o0 & s7 & Ho & H).
  apply lift_m_lift_inv in Ho. cbv zeta in H.
  apply sbind_inv in H as (_ & s8 & _ & H).
  apply sbind_inv in H as (phErr & s9 & _ & H).
  apply sbind_inv in H as ([ip gen] & s10 & Hg & H).
  apply stream_steps_rows in Hg as (rows & Hgen & Hrows). cbn [app] in Hgen. subst gen.
  assert (Hdone : forall s0,
             sbind (send (lit "done") (done_event env plan (step_count o0) rows))
               (fun _ => close) s0 = (Normal u, s') ->
             exists evs last,
               events s' = evs ++ [last]
               /\ (fst last = lit "error"
                   \/ exists plan' outlineRes' o0' gen,
                        normalizeOutline (parsed outlineRes') (MIN_STEPS env) (MAX_STEPS env)
                        = Normal o0'
                        /\ rows_from plan' 0 (fix_titles 0 (steps o0')) gen
                        /\ last = (lit "done", done_event env plan' (step_count o0') gen))).
  { intros s0 H0. apply terminal_returns in H0. eexists _, _. split; [exact H0|].
    right. exists plan, outlineRes, o0, rows. auto. }
  destruct ip; cbn [negb] in H; [eapply Hdone; exact H|].
  apply sbind_inv in H as (_ & s11 & _ & H).
  apply sbind_inv in H as (_ & s12 & _ & H).
  apply sbind_inv in H as ([ids|detail] & s13 & _ & H); [eapply Hdone; exact H|].
  apply terminal_returns in H. eexists _, _. split; [exact H | left; reflexivity].
Qed.

(** X28: what a done event carries. When the stream of
    [handleGeneratePlanStream] ends with a done event, under bounds
    0 <= MIN_STEPS <= MAX_STEPS, the event names the mode, the plan, the
    model and the build marker; its step_count is within the bounds and is
    the number of steps it lists; the steps are keyed step_1 .. step_N and
    numbered 1 .. N in order; and every step belongs to the plan, has not
    started, has a title that is not degenerate, minutes within 10 .. 90,
    a priority among low, medium, high, and details and success criteria
    that are not empty, end in terminal punctuation and keep within 121
    and 111 code units. *)
Theorem stream_done_event_shape :
  forall (engine_message : exn -> jsstring) (env : Env) (body : GeneratePlanBody)
         (w : world) (s : session) (evs : list (jsstring * value)) (data : value),
    handleGeneratePlanStream engine_message env body (open_stream w) = (Normal tt, s) ->
    events s = evs ++ [(lit "done", data)] ->
    0 <= MIN_STEPS env <= MAX_STEPS env ->
    exists plan count rows,
      data = done_event env plan count rows
      /\ MIN_STEPS env <= count <= MAX_STEPS env
      /\ Z.of_nat (List.length rows) = count
      /\ map step_key rows = step_keys (List.length rows)
      /\ map order_index rows = map Z.of_nat (seq 1 (List.length rows))
      /\ Forall (step_row_ok plan) rows.
Proof.
  intros engine_message env body w s evs data H He Hb.
  unfold handleGeneratePlanStream in H.
  destruct (stream_body env body (open_stream w)) as [[u|e] s1] eqn:E.
  2:{ apply terminal_returns in H. rewrite He in H.
      apply app_inj_tail in H as (_ & H). inversion H. }
  inversion H; subst s1. clear H.
  apply stream_body_returns in E as (evs' & last & E & Hl).
  rewrite He in E. apply app_inj_tail in E as (_ & <-).
  destruct Hl as [Hl | (plan & outlineRes & o0 & rows & Ho & Hrows & Hl)];
    [cbn [fst] in Hl; inversion Hl|].
  inversion Hl as [Hd]. clear Hl.
  exists plan, (step_count o0), rows. split; [reflexivity|].
  pose proof (rows_from_snoc _ _ _ _ Hrows) as Hlen.
  pose proof (normalizeOutline_length _ _ _ _ Ho) as Hlo.
  pose proof (normalizeOutline_keys _ _ _ _ Ho) as Hko.
  assert (Hfl : List.length (fix_titles 0 (steps o0)) = List.length (steps o0)).
  { rewrite <- (length_map outline_key), fix_titles_keys, length_map. reflexivity. }
  apply normalizeOutline_inv in Ho as (n & byKey & Ho).
  assert (Hcount : MIN_STEPS env <= step_count o0 <= MAX_STEPS env).
  { rewrite Ho. cbn [step_count]. apply clampInt_bounds. lia. }
  split; [exact Hcount|].
  split; [rewrite Hlen, Hfl, Hlo; lia|].
  split.
  { rewrite (rows_from_keys _ _ _ _ Hrows), fix_titles_keys, Hko, Hlen, Hfl. reflexivity. }
  split.
  { rewrite (rows_from_order _ _ _ _ Hrows). apply map_ext. intros j. lia. }
  eapply rows_from_ok; [exact Hrows | apply fix_titles_non_degenerate].
Qed.

Lemma stream_done_event_shape_witness :
  exists plan count rows,
    done_event demo_env (lit "plan-1") 3 streamed_rows = done_event demo_env plan count rows
    /\ MIN_STEPS demo_env <= count <= MAX_STEPS demo_env
    /\ Z.of_nat (List.length rows) = count
    /\ map step_key rows = step_keys (List.length rows)
    /\ map order_index rows = map Z.of_nat (seq 1 (List.length rows))
    /\ Forall (step_row_ok plan) rows.
Proof.
  apply (stream_done_event_shape plain_message demo_env demo_body streaming_world
           (snd (handleGeneratePlanStream plain_message demo_env demo_body
                   (open_stream streaming_world)))
           (removelast (events (snd (handleGeneratePlanStream plain_message demo_env demo_body
                                       (open_stream streaming_world)))))
           (done_event demo_env (lit "plan-1") 3 streamed_rows)).
  - vm_compute; reflexivity.
  - vm_compute; reflexivity.
  - vm_compute. split; discriminate.
Defined.

(* ------------------------------------------------------------------ *)
(** ** The stream handler: requests that go wrong *)



Lemma ollamaChatStream_db p onToken onRawLine w :
  db_log (snd (ollamaChatStream p onToken onRawLine w)) = db_log w
  /\ plan_steps (snd (ollamaChatStream p onToken onRawLine w)) = plan_steps w.
Proof.
  unfold ollamaChatStream, fetch, bind, lift, throw.
  destruct (answer w) as [res|e]; [|split; reflexivity].
  destruct (negb (res_ok res)).
  { destruct (res_text res); split; reflexivity. }
  destruct (res_body res) as [[chunks ending]|]; [|split; reflexivity].
  destruct (read_loop_frame ending onToken onRawLine chunks [] []
              (record_call (chat_request p true) w)) as (_ & _ & _ & Hl & Ht).
  split; [exact Hl | exact Ht].
Qed.

Lemma callJSONStream_db p onToken w :
  db_log (snd (callJSONStream p onToken w)) = db_log w
  /\ plan_steps (snd (callJSONStream p onToken w)) = plan_steps w.
Proof.
  rewrite callJSONStream_run.
  pose proof (ollamaChatStream_db (primary p) onToken None w) as H.
  destruct (ollamaChatStream (primary p) onToken None w) as [[raw1|e] w1]; [|exact H].
  destruct (fst (tryParseJSON (VStr raw1))) as [p1|e]; [|exact H].
  destruct (Val.truthy p1); exact H.
Qed.

(** X30: a failed outline is reported, and the plan stays. When the
    body is valid, the datastore accepts the plan and the streamed
    outline call throws, the stream carries the start, db_create_plan,
    plan_created and outline_model_call statuses, a token event for every
    forwarded delta of the call, and one error event, Internal server
    error, whose detail is the message of the exception; the stream is
    closed. The plan insert is the only datastore operation of the run:
    the plan row is not taken back. *)
Theorem stream_reports_a_failed_outline :
  forall (engine_message : exn -> jsstring) (env : Env) (body : GeneratePlanBody)
         (w w2 : world) (plan : jsstring) (rest : list db_reply) (e : exn),
    valid_body body = true ->
    db_replies w = DbData plan :: rest ->
    callJSONStream (outline_call env body) (token_guard true)
      (snd (insert_plan (plan_row env body) w)) = (Throw e, w2) ->
    exists ds,
      delivered w2 = delivered w ++ ds
      /\ handleGeneratePlanStream engine_message env body (open_stream w)
         = (Normal tt,
            {| net := w2;
               events := [start_event env;
                          (lit "status", phase (lit "db_create_plan") []);
                          (lit "status", phase (lit "plan_created") [(lit "plan_id", VStr plan)]);
                          (lit "status", phase (lit "outline_model_call") [])]
                         ++ map outline_token (filter forwarded ds)
                         ++ [(lit "error",
                              error_event (lit "Internal server error")
                                (Some (VStr (error_message engine_message e))))];
               closed := true |})
      /\ db_log w2 = db_log w ++ [InsertPlan (plan_row env body) true]
      /\ plan_steps w2 = plan_steps w.
Proof.
  intros engine_message env body w w2 plan rest e Hv Hr Hc.
  destruct (callJSONStream_extends (outline_call env body) (token_guard true)
              (snd (insert_plan (plan_row env body) w))) as (ds & Hd).
  destruct (callJSONStream_db (outline_call env body) (token_guard true)
              (snd (insert_plan (plan_row env body) w))) as (Hl & Ht).
  rewrite Hc in Hd, Hl, Ht. cbn [snd] in Hd, Hl, Ht.
  assert (Hi : insert_plan (plan_row env body) w
               = (Normal (DbData plan), snd (insert_plan (plan_row env body) w))).
  { unfold insert_plan, db_step. rewrite Hr. reflexivity. }
  assert (Hw1 : delivered (snd (insert_plan (plan_row env body) w)) = delivered w
                /\ db_log (snd (insert_plan (plan_row env body) w))
                   = db_log w ++ [InsertPlan (plan_row env body) true]
                /\ plan_steps (snd (insert_plan (plan_row env body) w)) = plan_steps w).
  { unfold insert_plan, db_step. rewrite Hr. repeat split. }
  destruct Hw1 as (Hd1 & Hl1 & Ht1).
  exists ds. split; [rewrite Hd, Hd1; reflexivity|].
  split; [|split; [rewrite Hl, Hl1; reflexivity | rewrite Ht, Ht1; reflexivity]].
  unfold handleGeneratePlanStream, stream_body.
  assert (Hp : negb (present (body_company_name body))
               || negb (present (body_company_title body))
               || negb (present (body_short_description body)) = false).
  { unfold valid_body in Hv.
    destruct (present (body_company_name body)); [|discriminate].
    destruct (present (body_company_title body)); [|discriminate].
    destruct (present (body_short_description body)); [reflexivity | discriminate]. }
  rewrite Hp.
  unfold sbind at 1. unfold send at 1. cbn [open_stream closed net events app].
  unfold sbind at 1. unfold send at 1. cbn [closed net events app].
  unfold sbind at 1. unfold lift_m at 1. cbn [net events closed]. rewrite Hi.
  unfold sbind at 1. unfold send at 1. cbn [closed net events app].
  unfold sbind at 1. unfold send at 1. cbn [closed net events app].
  unfold sbind at 1. unfold streamed at 1. cbn [closed net events negb]. rewrite Hc.
  unfold sbind, send, close. cbn [closed net events].
  rewrite Hd, Hd1, skipn_app, skipn_all, Nat.sub_diag. cbn [skipn app].
  reflexivity.
Qed.

Lemma stream_reports_a_failed_outline_witness :
  exists ds,
    delivered (snd (callJSONStream (outline_call demo_env demo_body) (token_guard true)
                      (snd (insert_plan (plan_row demo_env demo_body) broken_outline_world))))
    = delivered broken_outline_world ++ ds
    /\ handleGeneratePlanStream plain_message demo_env demo_body
         (open_stream broken_outline_world)
       = (Normal tt,
          {| net := snd (callJSONStream (outline_call demo_env demo_body) (token_guard true)
                           (snd (insert_plan (plan_row demo_env demo_body)
                                   broken_outline_world)));
             events := [start_event demo_env;
                        (lit "status", phase (lit "db_create_plan") []);
                        (lit "status",
                         phase (lit "plan_created") [(lit "plan_id", VStr (lit "plan-1"))]);
                        (lit "status", phase (lit "outline_model_call") [])]
                       ++ map outline_token (filter forwarded ds)
                       ++ [(lit "error",
                            error_event (lit "Internal server error")
                              (Some (VStr (error_message plain_message
                                             (Rejected (lit "connection reset"))))))];
             closed := true |})
    /\ db_log (snd (callJSONStream (outline_call demo_env demo_body) (token_guard true)
                      (snd (insert_plan (plan_row demo_env demo_body) broken_outline_world))))
       = db_log broken_outline_world ++ [InsertPlan (plan_row demo_env demo_body) true]
    /\ plan_steps (snd (callJSONStream (outline_call demo_env demo_body) (token_guard true)
                          (snd (insert_plan (plan_row demo_env demo_body)
                                  broken_outline_world))))
       = plan_steps broken_outline_world.
Proof.
  apply (stream_reports_a_failed_outline plain_message demo_env demo_body broken_outline_world
           (snd (callJSONStream (outline_call demo_env demo_body) (token_guard true)
                   (snd (insert_plan (plan_row demo_env demo_body) broken_outline_world))))
           (lit "plan-1") [] (Rejected (lit "connection reset"))).
  - reflexivity.
  - reflexivity.
  - vm_compute; reflexivity.
Defined.
